(** * Mycodo output controller: a shallow embedding of
      [mycodo/controller_output.py] and the properties of its switching,
      budget, expiration and conditional-cascade logic.

    Modelling conventions.
    - Python [float] values (amps, durations, duty cycles, clock readings)
      are rationals [Q]; [datetime] values are seconds on the same clock and
      [timedelta(seconds=d)] is [d].
    - Every [dict] attribute of the controller is a [gmap Z _]; [d[k]] raises
      [KeyError] on a missing key, exactly as in Python.
    - The controller object, the GPIO output latches, the clock and the trace
      of calls made to external collaborators form the [World] that a small
      state-and-exception monad threads through the code.
    - [threading.Thread(target=f).start()] is modelled by running [f] at the
      point where the thread is started; an exception raised inside the
      thread ends the thread only.
    - [logger.debug/warning/error] calls are dropped, the audit line
      [logger.info(message)] that closes each conditional action is kept. *)

From Stdlib Require Import QArith Qabs Qround Qminmax Lqa ZArith String List.
From stdpp Require Import gmap strings list fin_maps.

Local Open Scope string_scope.
Local Open Scope Z_scope.

(** ** Python truthiness and comparisons *)

Definition truthy_float (x : Q) : bool := negb (Qeq_bool x 0).
Definition truthy_int (z : Z) : bool := negb (Z.eqb z 0).
Definition truthy_str (s : string) : bool := negb (String.eqb s "").
Definition truthy_pin (p : option Z) : bool :=
  match p with Some z => truthy_int z | None => false end.
Definition is_None {A} (o : option A) : bool :=
  match o with Some _ => false | None => true end.
Definition is_not_None {A} (o : option A) : bool := negb (is_None o).

(** [x > y] and [x < y] on floats. *)
Definition Qgtb (x y : Q) : bool := negb (Qle_bool x y).
Definition Qltb (x y : Q) : bool := negb (Qle_bool y x).

(** [s in [a, b, ...]] on strings. *)
Definition str_in (s : string) (l : list string) : bool :=
  existsb (String.eqb s) l.

(** [int(x)] on a float: truncation toward zero. *)
Definition int_of_float (x : Q) : Z := Z.quot (Qnum x) (Zpos (Qden x)).

Definition current_kinds : list string :=
  ["command"; "wired"; "wireless_433MHz_pi_switch"].
Definition pin_kinds : list string :=
  ["pwm"; "wired"; "wireless_433MHz_pi_switch"].

(** ** Rows of the configuration store *)

Module Output.
Record t := {
  id : Z; unique_id : string; relay_type : string; name : string;
  pin : option Z; amps : Q; trigger : bool; on_at_start : option bool;
  protocol : Z; pulse_length : Z; bit_length : Z;
  on_command : string; off_command : string;
  pwm_hertz : Z; pwm_library : string }.
End Output.

Module Conditional.
Record t := {
  id : Z; name : string; is_activated : bool;
  if_relay_id : Z; if_relay_state : string; if_relay_duration : Q }.
End Conditional.

Module ConditionalActions.
Record t := {
  id : Z; conditional_id : Z; do_action : string;
  do_relay_id : Z; do_relay_state : string; do_relay_duration : Q;
  do_action_string : string; email_notify : string; do_lcd_id : Z }.
End ConditionalActions.

Record Database := {
  db_Output : list Output.t;
  db_Conditional : list Conditional.t;
  db_ConditionalActions : list ConditionalActions.t;
  db_Misc_max_amps : Q;
  db_SMTP_hourly_max : Z }.

(** ** Hardware handles *)

Record Transmit433MHz := {
  tx_pin : option Z; tx_protocol : Z; tx_pulse_length : Z; tx_bit_length : Z }.

Inductive pigpio_pi := pigpio_handle.

(** ** Calls made to external collaborators, in the order they happen *)

Inductive Event :=
| GPIO_output_call (pin : Z) (level : bool)
| transmit_call (sw : Transmit433MHz) (code : string)
| cmd_output_call (command : string)
| hardware_PWM_call (pin : option Z) (hertz : Z) (duty : Q)
| set_PWM_frequency_call (pin : option Z) (hertz : Z)
| set_PWM_dutycycle_call (pin : option Z) (duty : Z)
| write_influxdb_value (unique_id : string) (kind : string) (value : Q)
    (timestamp : option Q)
| conditional_command (template : string) (output_pin : option Z)
    (output_action : string) (output_duration : Q) (output_pwm : Q)
| send_email (recipients : string) (conditional_action : Z)
| flash_lcd (lcd_id : Z)
| logger_info (conditional : Z) (conditional_action : Z).

(** ** The controller object *)

Record OutputController := {
  output_id : gmap Z Z;
  output_unique_id : gmap Z string;
  output_type : gmap Z string;
  output_name : gmap Z string;
  output_pin : gmap Z (option Z);
  output_amps : gmap Z Q;
  output_trigger : gmap Z bool;
  output_on_at_start : gmap Z (option bool);
  output_on_until : gmap Z Q;
  output_last_duration : gmap Z Q;
  output_on_duration : gmap Z bool;
  output_protocol : gmap Z Z;
  output_pulse_length : gmap Z Z;
  output_bit_length : gmap Z Z;
  output_on_command : gmap Z string;
  output_off_command : gmap Z string;
  wireless_pi_switch : gmap Z Transmit433MHz;
  pwm_hertz : gmap Z Z;
  pwm_library : gmap Z string;
  pwm_output : gmap Z pigpio_pi;
  pwm_state : gmap Z (option Q);
  pwm_time_turned_on : gmap Z (option Q);
  output_time_turned_on : gmap Z (option Q);
  smtp_max_count : Z;
  smtp_wait_time : Q;
  email_count : Z;
  allowed_to_send_notice : bool
}.

Definition set_output_on_until (v : gmap Z Q)
    (c : OutputController) : OutputController :=
  {| output_id := output_id c; output_unique_id := output_unique_id c;
     output_type := output_type c; output_name := output_name c;
     output_pin := output_pin c; output_amps := output_amps c;
     output_trigger := output_trigger c;
     output_on_at_start := output_on_at_start c; output_on_until := v;
     output_last_duration := output_last_duration c;
     output_on_duration := output_on_duration c;
     output_protocol := output_protocol c;
     output_pulse_length := output_pulse_length c;
     output_bit_length := output_bit_length c;
     output_on_command := output_on_command c;
     output_off_command := output_off_command c;
     wireless_pi_switch := wireless_pi_switch c; pwm_hertz := pwm_hertz c;
     pwm_library := pwm_library c; pwm_output := pwm_output c;
     pwm_state := pwm_state c; pwm_time_turned_on := pwm_time_turned_on c;
     output_time_turned_on := output_time_turned_on c;
     smtp_max_count := smtp_max_count c; smtp_wait_time := smtp_wait_time c;
     email_count := email_count c;
     allowed_to_send_notice := allowed_to_send_notice c |}.

Definition set_output_last_duration (v : gmap Z Q)
    (c : OutputController) : OutputController :=
  {| output_id := output_id c; output_unique_id := output_unique_id c;
     output_type := output_type c; output_name := output_name c;
     output_pin := output_pin c; output_amps := output_amps c;
     output_trigger := output_trigger c;
     output_on_at_start := output_on_at_start c;
     output_on_until := output_on_until c; output_last_duration := v;
     output_on_duration := output_on_duration c;
     output_protocol := output_protocol c;
     output_pulse_length := output_pulse_length c;
     output_bit_length := output_bit_length c;
     output_on_command := output_on_command c;
     output_off_command := output_off_command c;
     wireless_pi_switch := wireless_pi_switch c; pwm_hertz := pwm_hertz c;
     pwm_library := pwm_library c; pwm_output := pwm_output c;
     pwm_state := pwm_state c; pwm_time_turned_on := pwm_time_turned_on c;
     output_time_turned_on := output_time_turned_on c;
     smtp_max_count := smtp_max_count c; smtp_wait_time := smtp_wait_time c;
     email_count := email_count c;
     allowed_to_send_notice := allowed_to_send_notice c |}.

Definition set_output_on_duration (v : gmap Z bool)
    (c : OutputController) : OutputController :=
  {| output_id := output_id c; output_unique_id := output_unique_id c;
     output_type := output_type c; output_name := output_name c;
     output_pin := output_pin c; output_amps := output_amps c;
     output_trigger := output_trigger c;
     output_on_at_start := output_on_at_start c;
     output_on_until := output_on_until c;
     output_last_duration := output_last_duration c; output_on_duration := v;
     output_protocol := output_protocol c;
     output_pulse_length := output_pulse_length c;
     output_bit_length := output_bit_length c;
     output_on_command := output_on_command c;
     output_off_command := output_off_command c;
     wireless_pi_switch := wireless_pi_switch c; pwm_hertz := pwm_hertz c;
     pwm_library := pwm_library c; pwm_output := pwm_output c;
     pwm_state := pwm_state c; pwm_time_turned_on := pwm_time_turned_on c;
     output_time_turned_on := output_time_turned_on c;
     smtp_max_count := smtp_max_count c; smtp_wait_time := smtp_wait_time c;
     email_count := email_count c;
     allowed_to_send_notice := allowed_to_send_notice c |}.

Definition set_wireless_pi_switch (v : gmap Z Transmit433MHz)
    (c : OutputController) : OutputController :=
  {| output_id := output_id c; output_unique_id := output_unique_id c;
     output_type := output_type c; output_name := output_name c;
     output_pin := output_pin c; output_amps := output_amps c;
     output_trigger := output_trigger c;
     output_on_at_start := output_on_at_start c;
     output_on_until := output_on_until c;
     output_last_duration := output_last_duration c;
     output_on_duration := output_on_duration c;
     output_protocol := output_protocol c;
     output_pulse_length := output_pulse_length c;
     output_bit_length := output_bit_length c;
     output_on_command := output_on_command c;
     output_off_command := output_off_command c; wireless_pi_switch := v;
     pwm_hertz := pwm_hertz c; pwm_library := pwm_library c;
     pwm_output := pwm_output c; pwm_state := pwm_state c;
     pwm_time_turned_on := pwm_time_turned_on c;
     output_time_turned_on := output_time_turned_on c;
     smtp_max_count := smtp_max_count c; smtp_wait_time := smtp_wait_time c;
     email_count := email_count c;
     allowed_to_send_notice := allowed_to_send_notice c |}.

Definition set_pwm_output (v : gmap Z pigpio_pi)
    (c : OutputController) : OutputController :=
  {| output_id := output_id c; output_unique_id := output_unique_id c;
     output_type := output_type c; output_name := output_name c;
     output_pin := output_pin c; output_amps := output_amps c;
     output_trigger := output_trigger c;
     output_on_at_start := output_on_at_start c;
     output_on_until := output_on_until c;
     output_last_duration := output_last_duration c;
     output_on_duration := output_on_duration c;
     output_protocol := output_protocol c;
     output_pulse_length := output_pulse_length c;
     output_bit_length := output_bit_length c;
     output_on_command := output_on_command c;
     output_off_command := output_off_command c;
     wireless_pi_switch := wireless_pi_switch c; pwm_hertz := pwm_hertz c;
     pwm_library := pwm_library c; pwm_output := v; pwm_state := pwm_state c;
     pwm_time_turned_on := pwm_time_turned_on c;
     output_time_turned_on := output_time_turned_on c;
     smtp_max_count := smtp_max_count c; smtp_wait_time := smtp_wait_time c;
     email_count := email_count c;
     allowed_to_send_notice := allowed_to_send_notice c |}.

Definition set_pwm_state (v : gmap Z (option Q))
    (c : OutputController) : OutputController :=
  {| output_id := output_id c; output_unique_id := output_unique_id c;
     output_type := output_type c; output_name := output_name c;
     output_pin := output_pin c; output_amps := output_amps c;
     output_trigger := output_trigger c;
     output_on_at_start := output_on_at_start c;
     output_on_until := output_on_until c;
     output_last_duration := output_last_duration c;
     output_on_duration := output_on_duration c;
     output_protocol := output_protocol c;
     output_pulse_length := output_pulse_length c;
     output_bit_length := output_bit_length c;
     output_on_command := output_on_command c;
     output_off_command := output_off_command c;
     wireless_pi_switch := wireless_pi_switch c; pwm_hertz := pwm_hertz c;
     pwm_library := pwm_library c; pwm_output := pwm_output c; pwm_state := v;
     pwm_time_turned_on := pwm_time_turned_on c;
     output_time_turned_on := output_time_turned_on c;
     smtp_max_count := smtp_max_count c; smtp_wait_time := smtp_wait_time c;
     email_count := email_count c;
     allowed_to_send_notice := allowed_to_send_notice c |}.

Definition set_pwm_time_turned_on (v : gmap Z (option Q))
    (c : OutputController) : OutputController :=
  {| output_id := output_id c; output_unique_id := output_unique_id c;
     output_type := output_type c; output_name := output_name c;
     output_pin := output_pin c; output_amps := output_amps c;
     output_trigger := output_trigger c;
     output_on_at_start := output_on_at_start c;
     output_on_until := output_on_until c;
     output_last_duration := output_last_duration c;
     output_on_duration := output_on_duration c;
     output_protocol := output_protocol c;
     output_pulse_length := output_pulse_length c;
     output_bit_length := output_bit_length c;
     output_on_command := output_on_command c;
     output_off_command := output_off_command c;
     wireless_pi_switch := wireless_pi_switch c; pwm_hertz := pwm_hertz c;
     pwm_library := pwm_library c; pwm_output := pwm_output c;
     pwm_state := pwm_state c; pwm_time_turned_on := v;
     output_time_turned_on := output_time_turned_on c;
     smtp_max_count := smtp_max_count c; smtp_wait_time := smtp_wait_time c;
     email_count := email_count c;
     allowed_to_send_notice := allowed_to_send_notice c |}.

Definition set_output_time_turned_on (v : gmap Z (option Q))
    (c : OutputController) : OutputController :=
  {| output_id := output_id c; output_unique_id := output_unique_id c;
     output_type := output_type c; output_name := output_name c;
     output_pin := output_pin c; output_amps := output_amps c;
     output_trigger := output_trigger c;
     output_on_at_start := output_on_at_start c;
     output_on_until := output_on_until c;
     output_last_duration := output_last_duration c;
     output_on_duration := output_on_duration c;
     output_protocol := output_protocol c;
     output_pulse_length := output_pulse_length c;
     output_bit_length := output_bit_length c;
     output_on_command := output_on_command c;
     output_off_command := output_off_command c;
     wireless_pi_switch := wireless_pi_switch c; pwm_hertz := pwm_hertz c;
     pwm_library := pwm_library c; pwm_output := pwm_output c;
     pwm_state := pwm_state c; pwm_time_turned_on := pwm_time_turned_on c;
     output_time_turned_on := v; smtp_max_count := smtp_max_count c;
     smtp_wait_time := smtp_wait_time c; email_count := email_count c;
     allowed_to_send_notice := allowed_to_send_notice c |}.

Definition set_smtp_max_count (v : Z)
    (c : OutputController) : OutputController :=
  {| output_id := output_id c; output_unique_id := output_unique_id c;
     output_type := output_type c; output_name := output_name c;
     output_pin := output_pin c; output_amps := output_amps c;
     output_trigger := output_trigger c;
     output_on_at_start := output_on_at_start c;
     output_on_until := output_on_until c;
     output_last_duration := output_last_duration c;
     output_on_duration := output_on_duration c;
     output_protocol := output_protocol c;
     output_pulse_length := output_pulse_length c;
     output_bit_length := output_bit_length c;
     output_on_command := output_on_command c;
     output_off_command := output_off_command c;
     wireless_pi_switch := wireless_pi_switch c; pwm_hertz := pwm_hertz c;
     pwm_library := pwm_library c; pwm_output := pwm_output c;
     pwm_state := pwm_state c; pwm_time_turned_on := pwm_time_turned_on c;
     output_time_turned_on := output_time_turned_on c; smtp_max_count := v;
     smtp_wait_time := smtp_wait_time c; email_count := email_count c;
     allowed_to_send_notice := allowed_to_send_notice c |}.

Definition set_smtp_wait_time (v : Q)
    (c : OutputController) : OutputController :=
  {| output_id := output_id c; output_unique_id := output_unique_id c;
     output_type := output_type c; output_name := output_name c;
     output_pin := output_pin c; output_amps := output_amps c;
     output_trigger := output_trigger c;
     output_on_at_start := output_on_at_start c;
     output_on_until := output_on_until c;
     output_last_duration := output_last_duration c;
     output_on_duration := output_on_duration c;
     output_protocol := output_protocol c;
     output_pulse_length := output_pulse_length c;
     output_bit_length := output_bit_length c;
     output_on_command := output_on_command c;
     output_off_command := output_off_command c;
     wireless_pi_switch := wireless_pi_switch c; pwm_hertz := pwm_hertz c;
     pwm_library := pwm_library c; pwm_output := pwm_output c;
     pwm_state := pwm_state c; pwm_time_turned_on := pwm_time_turned_on c;
     output_time_turned_on := output_time_turned_on c;
     smtp_max_count := smtp_max_count c; smtp_wait_time := v;
     email_count := email_count c;
     allowed_to_send_notice := allowed_to_send_notice c |}.

Definition set_email_count (v : Z)
    (c : OutputController) : OutputController :=
  {| output_id := output_id c; output_unique_id := output_unique_id c;
     output_type := output_type c; output_name := output_name c;
     output_pin := output_pin c; output_amps := output_amps c;
     output_trigger := output_trigger c;
     output_on_at_start := output_on_at_start c;
     output_on_until := output_on_until c;
     output_last_duration := output_last_duration c;
     output_on_duration := output_on_duration c;
     output_protocol := output_protocol c;
     output_pulse_length := output_pulse_length c;
     output_bit_length := output_bit_length c;
     output_on_command := output_on_command c;
     output_off_command := output_off_command c;
     wireless_pi_switch := wireless_pi_switch c; pwm_hertz := pwm_hertz c;
     pwm_library := pwm_library c; pwm_output := pwm_output c;
     pwm_state := pwm_state c; pwm_time_turned_on := pwm_time_turned_on c;
     output_time_turned_on := output_time_turned_on c;
     smtp_max_count := smtp_max_count c; smtp_wait_time := smtp_wait_time c;
     email_count := v; allowed_to_send_notice := allowed_to_send_notice c |}.

Definition set_allowed_to_send_notice (v : bool)
    (c : OutputController) : OutputController :=
  {| output_id := output_id c; output_unique_id := output_unique_id c;
     output_type := output_type c; output_name := output_name c;
     output_pin := output_pin c; output_amps := output_amps c;
     output_trigger := output_trigger c;
     output_on_at_start := output_on_at_start c;
     output_on_until := output_on_until c;
     output_last_duration := output_last_duration c;
     output_on_duration := output_on_duration c;
     output_protocol := output_protocol c;
     output_pulse_length := output_pulse_length c;
     output_bit_length := output_bit_length c;
     output_on_command := output_on_command c;
     output_off_command := output_off_command c;
     wireless_pi_switch := wireless_pi_switch c; pwm_hertz := pwm_hertz c;
     pwm_library := pwm_library c; pwm_output := pwm_output c;
     pwm_state := pwm_state c; pwm_time_turned_on := pwm_time_turned_on c;
     output_time_turned_on := output_time_turned_on c;
     smtp_max_count := smtp_max_count c; smtp_wait_time := smtp_wait_time c;
     email_count := email_count c; allowed_to_send_notice := v |}.

(** The controller before any output is registered ([__init__], the
    assignments before the [try]). *)
Definition empty_controller : OutputController :=
  Build_OutputController ∅ ∅ ∅ ∅ ∅ ∅ ∅ ∅ ∅ ∅ ∅ ∅ ∅ ∅ ∅ ∅ ∅ ∅ ∅ ∅ ∅ ∅ ∅
    0 0%Q 0 true.

(** ** The world: controller, GPIO latches, clock, trace *)

Record World := {
  self : OutputController;
  GPIO : gmap Z bool;
  clock : Q;
  trace : list Event }.

Definition set_self (c : OutputController) (w : World) : World :=
  Build_World c (GPIO w) (clock w) (trace w).
Definition set_GPIO (g : gmap Z bool) (w : World) : World :=
  Build_World (self w) g (clock w) (trace w).
Definition set_clock (t : Q) (w : World) : World :=
  Build_World (self w) (GPIO w) t (trace w).
Definition set_trace (l : list Event) (w : World) : World :=
  Build_World (self w) (GPIO w) (clock w) l.

(** ** State and exception monad *)

Inductive exn := KeyError | TypeError | ValueError | RecursionError.

Inductive result (A : Type) := Ok (a : A) | Raise (e : exn).
Arguments Ok {A} a.
Arguments Raise {A} e.

Definition M (A : Type) : Type := World → result A * World.

Definition ret {A} (a : A) : M A := λ w, (Ok a, w).
Definition bind {A B} (m : M A) (f : A → M B) : M B := λ w,
  match m w with
  | (Ok a, w') => f a w'
  | (Raise e, w') => (Raise e, w')
  end.

Declare Scope M_scope.
Delimit Scope M_scope with M.
Bind Scope M_scope with M.
Notation "x ← y ; z" := (bind y (λ x, z))
  (at level 20, y at level 100, z at level 200, only parsing) : M_scope.
Notation "y ;; z" := (bind y (λ _, z))
  (at level 100, z at level 200, only parsing, right associativity) : M_scope.
Local Open Scope M_scope.

Definition raise {A} (e : exn) : M A := λ w, (Raise e, w).
Definition gets {A} (f : World → A) : M A := λ w, (Ok (f w), w).
Definition modify (f : World → World) : M unit := λ w, (Ok tt, f w).
Definition emit (e : Event) : M unit :=
  modify (λ w, set_trace (trace w ++ [e]) w).

(** [self.d[k]] *)
Definition getitem {V} (d : OutputController → gmap Z V) (k : Z) : M V :=
  λ w, match d (self w) !! k with
       | Some v => (Ok v, w)
       | None => (Raise KeyError, w)
       end.

(** [self.d[k] = v] *)
Definition setitem {V} (d : OutputController → gmap Z V)
    (set_d : gmap Z V → OutputController → OutputController)
    (k : Z) (v : V) : M unit :=
  modify (λ w, set_self (set_d (<[k:=v]> (d (self w))) (self w)) w).

(** [self.a = v] *)
Definition setattr {V} (set_a : V → OutputController → OutputController)
    (v : V) : M unit :=
  modify (λ w, set_self (set_a v (self w)) w).

(** [threading.Thread(target=m).start()] *)
Definition Thread_start {A} (m : M A) : M unit := λ w, (Ok tt, (m w).2).

(** [try: m except Exception: pass] *)
Definition try_except (m : M unit) : M unit := λ w, (Ok tt, (m w).2).

Fixpoint for_each {A} (l : list A) (f : A → M unit) : M unit :=
  match l with
  | [] => ret tt
  | x :: l' => f x ;; for_each l' f
  end.

(** [datetime.datetime.now()] and [time.time()] *)
Definition now : M Q := gets clock.

(** ** RPi.GPIO: an output pin reads back the level last driven on it *)

Definition GPIO_input (pin : option Z) : M bool :=
  match pin with
  | Some p => gets (λ w, default false (GPIO w !! p))
  | None => raise ValueError
  end.

Definition GPIO_output (pin : option Z) (level : bool) : M unit :=
  match pin with
  | Some p =>
      modify (λ w, set_GPIO (<[p:=level]> (GPIO w)) w) ;;
      emit (GPIO_output_call p level)
  | None => raise ValueError
  end.

Definition has_key {V} (m : gmap Z V) (k : Z) : bool :=
  match m !! k with Some _ => true | None => false end.

(** [abs(duty_cycle)]; [abs(None)] is a [TypeError]. *)
Definition py_abs (x : option Q) : M Q :=
  match x with Some q => ret (Qabs q) | None => raise TypeError end.

(** [(t - x).total_seconds()] for a [datetime] attribute [x] that may hold
    [None]. *)
Definition datetime_sub (t : Q) (x : option Q) : M Q :=
  match x with Some y => ret (t - y)%Q | None => raise TypeError end.

(** Control leaves a block of [output_on_off] either through a [return] or
    by falling through to the conditional check, with the current value of
    the local variable [duration]. *)
Inductive flow := Returned (v : option Z) | Fallthrough (duration : Q).

(** ** The controller's methods *)

Section Controller.
Context (db : Database).

Definition _is_setup (output_id : Z) : M bool :=
  ty ← getitem output_type output_id;
  wired_with_pin ←
    (if String.eqb ty "wired"
     then pin ← getitem output_pin output_id; ret (truthy_pin pin)
     else ret false);
  if wired_with_pin then
    (* GPIO.setmode(GPIO.BCM); GPIO.setup(pin, GPIO.OUT): direction only *)
    ret true
  else if str_in ty ["command"; "wireless_433MHz_pi_switch"] then ret true
  else if String.eqb ty "pwm" then
    known ← gets (λ w, has_key (pwm_output (self w)) output_id);
    ret known
  else ret false.

Definition is_on (output_id : Z) : M bool :=
  ty ← getitem output_type output_id;
  wired_and_setup ←
    (if String.eqb ty "wired" then _is_setup output_id else ret false);
  if wired_and_setup then
    trig ← getitem output_trigger output_id;
    pin ← getitem output_pin output_id;
    level ← GPIO_input pin;
    ret (Bool.eqb trig level)
  else if str_in ty ["command"; "wireless_433MHz_pi_switch"] then
    t ← getitem output_time_turned_on output_id;
    ret (is_not_None t)
  else if String.eqb ty "pwm" then
    t ← getitem pwm_time_turned_on output_id;
    ret (is_not_None t)
  else ret false.

Fixpoint amp_load_loop (items : list (Z * Q)) (amp_load : Q) : M Q :=
  match items with
  | [] => ret amp_load
  | (each_output_id, each_output_amps) :: rest =>
      on ← is_on each_output_id;
      amp_load_loop rest
        (if on then (amp_load + each_output_amps)%Q else amp_load)
  end.

Definition current_amp_load : M Q :=
  items ← gets (λ w, map_to_list (output_amps (self w)));
  amp_load_loop items 0%Q.

Definition output_switch (output_id : Z) (state : string)
    (duty_cycle : option Q) : M unit :=
  ty ← getitem output_type output_id;
  if String.eqb ty "wired" then
    if String.eqb state "on" then
      pin ← getitem output_pin output_id;
      trig ← getitem output_trigger output_id;
      GPIO_output pin trig
    else if String.eqb state "off" then
      pin ← getitem output_pin output_id;
      trig ← getitem output_trigger output_id;
      GPIO_output pin (negb trig)
    else ret tt
  else if String.eqb ty "wireless_433MHz_pi_switch" then
    if String.eqb state "on" then
      sw ← getitem wireless_pi_switch output_id;
      code ← getitem output_on_command output_id;
      emit (transmit_call sw code)
    else if String.eqb state "off" then
      sw ← getitem wireless_pi_switch output_id;
      code ← getitem output_off_command output_id;
      emit (transmit_call sw code)
    else ret tt
  else if String.eqb ty "command" then
    run_on ←
      (if String.eqb state "on"
       then c ← getitem output_on_command output_id; ret (truthy_str c)
       else ret false);
    if run_on then
      c ← getitem output_on_command output_id;
      emit (cmd_output_call c)
    else
      run_off ←
        (if String.eqb state "off"
         then c ← getitem output_off_command output_id; ret (truthy_str c)
         else ret false);
      if run_off then
        c ← getitem output_off_command output_id;
        emit (cmd_output_call c)
      else ret tt
  else if String.eqb ty "pwm" then
    if String.eqb state "on" then
      lib ← getitem pwm_library output_id;
      (if String.eqb lib "pigpio_hardware" then
         _ ← getitem pwm_output output_id;
         pin ← getitem output_pin output_id;
         hz ← getitem pwm_hertz output_id;
         dc ← py_abs duty_cycle;
         emit (hardware_PWM_call pin hz (dc * 10000)%Q)
       else
         lib' ← getitem pwm_library output_id;
         if String.eqb lib' "pigpio_any" then
           _ ← getitem pwm_output output_id;
           pin ← getitem output_pin output_id;
           hz ← getitem pwm_hertz output_id;
           emit (set_PWM_frequency_call pin hz) ;;
           dc ← py_abs duty_cycle;
           let calc_duty_cycle := int_of_float ((dc / 100) * 255)%Q in
           let calc_duty_cycle :=
             if Z.ltb 255 calc_duty_cycle then 255 else calc_duty_cycle in
           let calc_duty_cycle :=
             if Z.ltb calc_duty_cycle 0 then 0 else calc_duty_cycle in
           _ ← getitem pwm_output output_id;
           pin ← getitem output_pin output_id;
           emit (set_PWM_dutycycle_call pin calc_duty_cycle)
         else ret tt) ;;
      dc ← py_abs duty_cycle;
      setitem pwm_state set_pwm_state output_id (Some dc)
    else if String.eqb state "off" then
      lib ← getitem pwm_library output_id;
      (if String.eqb lib "pigpio_hardware" then
         _ ← getitem pwm_output output_id;
         pin ← getitem output_pin output_id;
         hz ← getitem pwm_hertz output_id;
         emit (hardware_PWM_call pin hz 0%Q)
       else
         lib' ← getitem pwm_library output_id;
         if String.eqb lib' "pigpio_any" then
           _ ← getitem pwm_output output_id;
           pin ← getitem output_pin output_id;
           hz ← getitem pwm_hertz output_id;
           emit (set_PWM_frequency_call pin hz) ;;
           _ ← getitem pwm_output output_id;
           pin ← getitem output_pin output_id;
           emit (set_PWM_dutycycle_call pin 0)
         else ret tt) ;;
      setitem pwm_state set_pwm_state output_id None
    else ret tt
  else ret tt.

(** Lines 577-585 of [check_conditionals]: the hourly e-mail throttle.
    Returns [self.allowed_to_send_notice]. *)
Definition email_throttle : M bool :=
  count ← gets (λ w, email_count (self w));
  max_count ← gets (λ w, smtp_max_count (self w));
  reached ←
    (if Z.leb max_count count
     then t ← now; wait ← gets (λ w, smtp_wait_time (self w));
          ret (Qltb t wait)
     else ret false);
  (if reached then setattr set_allowed_to_send_notice false
   else
     t ← now;
     wait ← gets (λ w, smtp_wait_time (self w));
     (if Qgtb t wait then
        setattr set_email_count 0 ;;
        t' ← now;
        setattr set_smtp_wait_time (t' + 3600)%Q
      else ret tt) ;;
     setattr set_allowed_to_send_notice true) ;;
  count' ← gets (λ w, email_count (self w));
  setattr set_email_count (count' + 1) ;;
  gets (λ w, allowed_to_send_notice (self w)).

(** The query built at the top of [check_conditionals], given the value of
    [self.is_on(output_id)]. *)
Definition select_conditionals (output_id : Z) (on : bool) (on_duration : Q)
    : list Conditional.t :=
  let conditionals := db_Conditional db in
  let conditionals :=
    filter (λ c, Conditional.if_relay_id c = output_id) conditionals in
  let conditionals :=
    filter (λ c, Conditional.is_activated c = true) conditionals in
  if on then
    let conditionals :=
      filter (λ c, Conditional.if_relay_state c = "on"
                   ∨ Conditional.if_relay_state c = "on_any") conditionals in
    filter (λ c, Conditional.if_relay_state c = "on_any"
                 ∨ (Conditional.if_relay_state c = "on"
                    ∧ Qeq_bool (Conditional.if_relay_duration c) on_duration
                      = true)) conditionals
  else
    filter (λ c, Conditional.if_relay_state c = "off") conditionals.

Definition run_action (output_on_off : Z → string → Q → M (option Z))
    (output_id : Z) (state : string) (on_duration duty_cycle : Q)
    (each_conditional : Conditional.t)
    (each_cond_action : ConditionalActions.t) : M unit :=
  let do_action := ConditionalActions.do_action each_cond_action in
  (if String.eqb do_action "relay" then
     let do_relay_id := ConditionalActions.do_relay_id each_cond_action in
     let do_relay_state :=
       ConditionalActions.do_relay_state each_cond_action in
     let do_relay_duration :=
       ConditionalActions.do_relay_duration each_cond_action in
     known ← gets (λ w, has_key (output_name (self w)) do_relay_id);
     if negb known then ret tt
     else
       _ ← getitem output_name (Conditional.if_relay_id each_conditional);
       _ ← getitem output_name do_relay_id;
       if Qeq_bool do_relay_duration 0 then
         _ ← output_on_off do_relay_id do_relay_state 0%Q; ret tt
       else
         _ ← output_on_off do_relay_id do_relay_state do_relay_duration;
         ret tt
   else if String.eqb do_action "command" then
     pin ← getitem output_pin output_id;
     emit (conditional_command
             (ConditionalActions.do_action_string each_cond_action)
             pin state on_duration duty_cycle)
   else if String.eqb do_action "email" then
     allowed ← email_throttle;
     if allowed then
       emit (send_email (ConditionalActions.do_action_string each_cond_action)
               (ConditionalActions.id each_cond_action))
     else ret tt
   else if String.eqb do_action "flash_lcd" then
     Thread_start
       (emit (flash_lcd (ConditionalActions.do_lcd_id each_cond_action)))
   else ret tt) ;;
  emit (logger_info (Conditional.id each_conditional)
          (ConditionalActions.id each_cond_action)).

Definition check_conditionals
    (output_on_off : Z → string → Q → M (option Z))
    (output_id : Z) (state : string) (on_duration duty_cycle : Q) : M unit :=
  on ← is_on output_id;
  for_each (select_conditionals output_id on on_duration)
    (λ each_conditional,
       let conditional_actions :=
         filter (λ a, ConditionalActions.conditional_id a
                      = Conditional.id each_conditional)
           (db_ConditionalActions db) in
       for_each conditional_actions
         (run_action output_on_off output_id state on_duration duty_cycle
            each_conditional)).

(** [k in self.output_id] and the keys that [for k in self.output_id]
    visits. *)
Definition output_exists (k : Z) : M bool :=
  gets (λ w, has_key (output_id (self w)) k).
Definition registered_ids : M (list Z) :=
  gets (λ w, (map_to_list (output_id (self w))).*1).

(** Lines 197-207: a kind that needs a pin has none. *)
Definition invalid_pin (output_id : Z) : M bool :=
  ty ← getitem output_type output_id;
  if str_in ty pin_kinds
  then pin ← getitem output_pin output_id; ret (is_None pin)
  else ret false.

(** Lines 209-243: the amperage budget, then the minimum off period. *)
Definition exceeds_budget_or_min_off (output_id : Z) (min_off : Q)
    : M bool :=
  ty ← getitem output_type output_id;
  if str_in ty current_kinds then
    current_amps ← current_amp_load;
    let max_amps := db_Misc_max_amps db in
    amps ← getitem output_amps output_id;
    if Qgtb (current_amps + amps) max_amps then ret true
    else
      current_time ← now;
      check_off ←
        (if truthy_float min_off then
           on ← is_on output_id;
           if negb on then
             until ← getitem output_on_until output_id;
             ret (Qgtb current_time until)
           else ret false
         else ret false);
      if check_off then
        until ← getitem output_on_until output_id;
        let off_seconds := (current_time - until)%Q in
        ret (Qltb off_seconds min_off)
      else ret false
  else ret false.

(** Lines 245-353: the three ways of turning on. *)
Definition switch_on (output_id : Z) (duration duty_cycle : Q) : M flow :=
  ty ← getitem output_type output_id;
  if str_in ty current_kinds && truthy_float duration then
    (* Turn output on for a duration *)
    time_now ← now;
    on ← is_on output_id;
    timed ← (if on then getitem output_on_duration output_id else ret false);
    if timed then
      until ← getitem output_on_until output_id;
      remaining_time ←
        (if Qgtb until time_now then
           until' ← getitem output_on_until output_id;
           ret (until' - time_now)%Q
         else ret 0%Q);
      last ← getitem output_last_duration output_id;
      let time_on := (last - remaining_time)%Q in
      setitem output_on_until set_output_on_until output_id
        (time_now + duration)%Q ;;
      setitem output_last_duration set_output_last_duration output_id
        duration ;;
      (if Qgtb time_on 0 then
         let duration := time_on in
         t ← now;
         let timestamp := (t - duration)%Q in
         uid ← getitem output_unique_id output_id;
         Thread_start
           (emit (write_influxdb_value uid "duration_sec" duration
                    (Some timestamp)))
       else ret tt) ;;
      ret (Returned (Some 0))
    else
      on' ← is_on output_id;
      (* [not self.output_on_duration]: the dict itself, true when empty *)
      no_durations ←
        (if on'
         then gets (λ w, bool_decide (output_on_duration (self w) = ∅))
         else ret false);
      if no_durations then
        setitem output_on_duration set_output_on_duration output_id true ;;
        setitem output_on_until set_output_on_until output_id
          (time_now + duration)%Q ;;
        setitem output_last_duration set_output_last_duration output_id
          duration ;;
        ret (Returned (Some 0))
      else
        setitem output_on_until set_output_on_until output_id
          (time_now + duration)%Q ;;
        setitem output_on_duration set_output_on_duration output_id true ;;
        setitem output_last_duration set_output_last_duration output_id
          duration ;;
        output_switch output_id "on" None ;;
        ret (Fallthrough duration)
  else if str_in ty current_kinds then
    (* Just turn output on *)
    on ← is_on output_id;
    if on then ret (Returned (Some 1))
    else
      t ← now;
      setitem output_time_turned_on set_output_time_turned_on output_id
        (Some t) ;;
      output_switch output_id "on" None ;;
      ret (Fallthrough duration)
  else if String.eqb ty "pwm" then
    (* PWM output *)
    hz ← getitem pwm_hertz output_id;
    if Z.leb hz 0 then ret (Returned (Some 1))
    else
      t ← now;
      setitem pwm_time_turned_on set_pwm_time_turned_on output_id (Some t) ;;
      output_switch output_id "on" (Some duty_cycle) ;;
      uid ← getitem output_unique_id output_id;
      Thread_start
        (emit (write_influxdb_value uid "duty_cycle" duty_cycle None)) ;;
      ret (Fallthrough duration)
  else ret (Fallthrough duration).

(** The ['on'] block of [output_on_off] (lines 195-353). *)
Definition turn_on (output_id : Z) (duration min_off duty_cycle : Q)
    : M flow :=
  invalid ← invalid_pin output_id;
  if invalid then ret (Returned (Some 1)) else
  denied ← exceeds_budget_or_min_off output_id min_off;
  if denied then ret (Returned (Some 1)) else
  switch_on output_id duration duty_cycle.

(** The ['off'] block of [output_on_off] (lines 356-413). *)
Definition turn_off (output_id : Z) (duration duty_cycle : Q) : M flow :=
  setup ← _is_setup output_id;
  if negb setup then ret (Returned None) else
  ty ← getitem output_type output_id;
  no_pin ←
    (if str_in ty pin_kinds
     then pin ← getitem output_pin output_id; ret (is_None pin)
     else ret false);
  if no_pin then ret (Returned None) else
  output_switch output_id "off" None ;;
  ty ← getitem output_type output_id;
  pwm_was_on ←
    (if String.eqb ty "pwm"
     then t ← getitem pwm_time_turned_on output_id; ret (is_not_None t)
     else ret false);
  if pwm_was_on then
    (* Write PWM duty cycle to database *)
    t ← now;
    turned_on ← getitem pwm_time_turned_on output_id;
    duration ← datetime_sub t turned_on;
    setitem pwm_time_turned_on set_pwm_time_turned_on output_id None ;;
    t' ← now;
    let timestamp := (t' - duration)%Q in
    uid ← getitem output_unique_id output_id;
    Thread_start
      (emit (write_influxdb_value uid "duty_cycle" duty_cycle
               (Some timestamp))) ;;
    ret (Fallthrough duration)
  else
    turned_on ← getitem output_time_turned_on output_id;
    was_on ←
      (if is_not_None turned_on then ret true
       else getitem output_on_duration output_id);
    if was_on then
      (* Write output duration on to database *)
      let duration := 0%Q in
      timed ← getitem output_on_duration output_id;
      duration ←
        (if timed then
           let remaining_time := 0%Q in
           time_now ← now;
           until ← getitem output_on_until output_id;
           remaining_time ←
             (if Qgtb until time_now then
                until' ← getitem output_on_until output_id;
                ret (until' - time_now)%Q
              else ret remaining_time);
           last ← getitem output_last_duration output_id;
           let duration := (last - remaining_time)%Q in
           setitem output_on_duration set_output_on_duration output_id
             false ;;
           t ← now;
           setitem output_on_until set_output_on_until output_id t ;;
           ret duration
         else ret duration);
      turned_on ← getitem output_time_turned_on output_id;
      duration ←
        (match turned_on with
         | Some t_on =>
             t ← now;
             turned_on' ← getitem output_time_turned_on output_id;
             duration ← datetime_sub t turned_on';
             setitem output_time_turned_on set_output_time_turned_on
               output_id None ;;
             ret duration
         | None => ret duration
         end);
      t ← now;
      let timestamp := (t - duration)%Q in
      uid ← getitem output_unique_id output_id;
      Thread_start
        (emit (write_influxdb_value uid "duration_sec" duration
                 (Some timestamp))) ;;
      ret (Fallthrough duration)
    else ret (Fallthrough duration).

Definition output_on_off_body
    (check_conditionals : Z → string → Q → Q → M unit)
    (output_id : Z) (state : string) (duration min_off duty_cycle : Q)
    (trigger_conditionals : bool) : M (option Z) :=
  (* Check if output exists *)
  known ← output_exists output_id;
  if negb known then ret (Some 1) else
  fl ←
    (if String.eqb state "on" then
       turn_on output_id duration min_off duty_cycle
     else if String.eqb state "off" then
       turn_off output_id duration duty_cycle
     else ret (Fallthrough duration));
  match fl with
  | Returned v => ret v
  | Fallthrough duration =>
      (if trigger_conditionals
       then check_conditionals output_id state duration duty_cycle
       else ret tt) ;;
      ret None
  end.

(** [output_on_off]; [fuel] bounds the depth of the cascade of conditional
    actions that call it again, as the interpreter's recursion limit does. *)
Fixpoint output_on_off (fuel : nat) (output_id : Z) (state : string)
    (duration min_off duty_cycle : Q) (trigger_conditionals : bool)
    : M (option Z) :=
  match fuel with
  | O => raise RecursionError
  | S fuel' =>
      output_on_off_body
        (check_conditionals
           (λ i s d, output_on_off fuel' i s d 0%Q 0%Q true))
        output_id state duration min_off duty_cycle trigger_conditionals
  end.

(** One iteration of the [while self.running] loop of [run]. *)
Definition run_iteration (fuel : nat) : M unit :=
  current_time ← now;
  ids ← registered_ids;
  for_each ids (λ output_id,
    until ← getitem output_on_until output_id;
    expired ←
      (if Qltb until current_time then
         timed ← getitem output_on_duration output_id;
         if timed
         then pin ← getitem output_pin output_id; ret (is_not_None pin)
         else ret false
       else ret false);
    if expired then
      Thread_start (output_on_off fuel output_id "off" 0%Q 0%Q 0%Q true) ;;
      last ← getitem output_last_duration output_id;
      if Qgtb last 0 then
        duration ← getitem output_last_duration output_id;
        t ← now;
        let timestamp := (t - duration)%Q in
        uid ← getitem output_unique_id output_id;
        Thread_start
          (emit (write_influxdb_value uid "duration_sec" duration
                   (Some timestamp)))
      else ret tt
    else ret tt).

(** [setup_pin] *)
Definition setup_pin (output_id : Z) : M unit :=
  ty ← getitem output_type output_id;
  if String.eqb ty "wired" then
    try_except
      ((* GPIO.setmode(GPIO.BCM); GPIO.setup(pin, GPIO.OUT) *)
       pin ← getitem output_pin output_id;
       trig ← getitem output_trigger output_id;
       GPIO_output pin (negb trig))
  else if String.eqb ty "wireless_433MHz_pi_switch" then
    pin ← getitem output_pin output_id;
    protocol ← getitem output_protocol output_id;
    pulse_length ← getitem output_pulse_length output_id;
    bit_length ← getitem output_bit_length output_id;
    setitem wireless_pi_switch set_wireless_pi_switch output_id
      (Build_Transmit433MHz pin protocol pulse_length bit_length)
  else if String.eqb ty "pwm" then
    try_except
      (setitem pwm_output set_pwm_output output_id pigpio_handle ;;
       lib ← getitem pwm_library output_id;
       (if String.eqb lib "pigpio_hardware" then
          _ ← getitem pwm_output output_id;
          pin ← getitem output_pin output_id;
          hz ← getitem pwm_hertz output_id;
          emit (hardware_PWM_call pin hz 0%Q)
        else
          lib' ← getitem pwm_library output_id;
          if String.eqb lib' "pigpio_any" then
            _ ← getitem pwm_output output_id;
            pin ← getitem output_pin output_id;
            hz ← getitem pwm_hertz output_id;
            emit (set_PWM_frequency_call pin hz) ;;
            _ ← getitem pwm_output output_id;
            pin ← getitem output_pin output_id;
            emit (set_PWM_dutycycle_call pin 0)
          else ret tt) ;;
       setitem pwm_state set_pwm_state output_id None)
  else ret tt.

(** The assignments of lines 620-640 of [all_outputs_initialize] for one
    row; none of them can raise, so they are made in one step. *)
Definition store_output (o : Output.t) (t : Q) (c : OutputController)
    : OutputController :=
  let k := Output.id o in
  {| output_id := <[k:=k]> (output_id c);
     output_unique_id := <[k:=Output.unique_id o]> (output_unique_id c);
     output_type := <[k:=Output.relay_type o]> (output_type c);
     output_name := <[k:=Output.name o]> (output_name c);
     output_pin := <[k:=Output.pin o]> (output_pin c);
     output_amps := <[k:=Output.amps o]> (output_amps c);
     output_trigger := <[k:=Output.trigger o]> (output_trigger c);
     output_on_at_start := <[k:=Output.on_at_start o]> (output_on_at_start c);
     output_on_until := <[k:=t]> (output_on_until c);
     output_last_duration := <[k:=0%Q]> (output_last_duration c);
     output_on_duration := <[k:=false]> (output_on_duration c);
     output_protocol := <[k:=Output.protocol o]> (output_protocol c);
     output_pulse_length :=
       <[k:=Output.pulse_length o]> (output_pulse_length c);
     output_bit_length := <[k:=Output.bit_length o]> (output_bit_length c);
     output_on_command := <[k:=Output.on_command o]> (output_on_command c);
     output_off_command := <[k:=Output.off_command o]> (output_off_command c);
     wireless_pi_switch := wireless_pi_switch c;
     pwm_hertz := <[k:=Output.pwm_hertz o]> (pwm_hertz c);
     pwm_library := <[k:=Output.pwm_library o]> (pwm_library c);
     pwm_output := pwm_output c;
     pwm_state := pwm_state c;
     pwm_time_turned_on := <[k:=None]> (pwm_time_turned_on c);
     output_time_turned_on := <[k:=None]> (output_time_turned_on c);
     smtp_max_count := smtp_max_count c;
     smtp_wait_time := smtp_wait_time c;
     email_count := email_count c;
     allowed_to_send_notice := allowed_to_send_notice c |}.

(** The body of the loop of [all_outputs_initialize]. *)
Definition initialize_output (each_output : Output.t) : M unit :=
  t ← now;
  modify (λ w, set_self (store_output each_output t (self w)) w) ;;
  pin ← getitem output_pin (Output.id each_output);
  if is_not_None pin then setup_pin (Output.id each_output) else ret tt.

Definition all_outputs_initialize (outputs : list Output.t) : M unit :=
  for_each outputs initialize_output.

(** [all_outputs_off] *)
Definition all_outputs_off (fuel : nat) : M unit :=
  ids ← registered_ids;
  for_each ids (λ each_output_id,
    at_start ← getitem output_on_at_start each_output_id;
    skip ←
      (if is_None at_start then ret true
       else ty ← getitem output_type each_output_id;
            ret (String.eqb ty "pwm"));
    if skip then ret tt
    else
      _ ← output_on_off fuel each_output_id "off" 0%Q 0%Q 0%Q false;
      ret tt).

(** [all_outputs_on] *)
Definition all_outputs_on (fuel : nat) : M unit :=
  ids ← registered_ids;
  for_each ids (λ each_output_id,
    at_start ← getitem output_on_at_start each_output_id;
    skip ←
      (if is_None at_start then ret true
       else ty ← getitem output_type each_output_id;
            ret (String.eqb ty "pwm"));
    if skip then ret tt
    else
      at_start' ← getitem output_on_at_start each_output_id;
      if bool_decide (at_start' = Some true) then
        _ ← output_on_off fuel each_output_id "on" 0%Q 0%Q 0%Q false;
        ret tt
      else
        _ ← output_on_off fuel each_output_id "off" 0%Q 0%Q 0%Q false;
        ret tt).

(** [__init__]: the controller as it stands when the constructor returns,
    started at clock reading [t0] with every GPIO latch low. *)
Definition init (fuel : nat) (t0 : Q) : World :=
  (try_except
     (setattr set_smtp_max_count (db_SMTP_hourly_max db) ;;
      t ← now;
      setattr set_smtp_wait_time (t + 3600)%Q ;;
      setattr set_email_count 0 ;;
      setattr set_allowed_to_send_notice true ;;
      all_outputs_initialize (db_Output db) ;;
      all_outputs_off fuel ;;
      all_outputs_on fuel)
     (Build_World empty_controller ∅ t0 [])).2.

End Controller.

(** ** Observations *)

(** The observed state of an output: [is_on] returned [True]. *)
Definition observed_on (w : World) (k : Z) : bool :=
  match (is_on k w).1 with Ok true => true | _ => false end.

(** The calls made to external collaborators by a computation run from
    [w]: what it appends to the trace. *)
Definition calls_of {A} (m : M A) (w : World) : list Event :=
  drop (length (trace w)) (trace (m w).2).

(** ** A small installation used by the concrete scenarios *)

Module Scenario.

Definition output (k : Z) (ty : string) (pin : option Z) (amps : Q)
    : Output.t :=
  {| Output.id := k; Output.unique_id := "out"; Output.relay_type := ty;
     Output.name := "output"; Output.pin := pin; Output.amps := amps;
     Output.trigger := true; Output.on_at_start := Some false;
     Output.protocol := 1; Output.pulse_length := 189;
     Output.bit_length := 24; Output.on_command := "on.sh";
     Output.off_command := "off.sh"; Output.pwm_hertz := 22000;
     Output.pwm_library := "pigpio_any" |}.

End Scenario.

(** ** Specification vocabulary *)

(** A computation that only reads the world. *)
Definition readonly {A} (m : M A) : Prop := ∀ w, (m w).2 = w.

(** The sum that [current_amp_load] computes, as a function of the world. *)
Fixpoint sum_on (w : World) (items : list (Z * Q)) (acc : Q) : Q :=
  match items with
  | [] => acc
  | (k, a) :: rest =>
      sum_on w rest (if observed_on w k then (acc + a)%Q else acc)
  end.

Definition amp_load (w : World) : Q :=
  sum_on w (map_to_list (output_amps (self w))) 0%Q.

(** An output is fully registered: every per-output dict that
    [all_outputs_initialize] fills has its key, and the hardware handle that
    [setup_pin] creates for a wireless or PWM output with a pin is there. *)
Definition handle_ok (c : OutputController) (k : Z) : bool :=
  match output_type c !! k, output_pin c !! k with
  | Some ty, Some (Some _) =>
      (if String.eqb ty "wireless_433MHz_pi_switch"
       then has_key (wireless_pi_switch c) k else true)
      && (if String.eqb ty "pwm" then has_key (pwm_output c) k else true)
  | _, _ => true
  end.

Definition entryb (c : OutputController) (k : Z) : bool :=
  has_key (output_id c) k && has_key (output_unique_id c) k
  && has_key (output_type c) k && has_key (output_pin c) k
  && has_key (output_amps c) k && has_key (output_trigger c) k
  && has_key (output_on_until c) k && has_key (output_last_duration c) k
  && has_key (output_on_duration c) k && has_key (output_on_command c) k
  && has_key (output_off_command c) k && has_key (pwm_hertz c) k
  && has_key (pwm_library c) k && has_key (pwm_time_turned_on c) k
  && has_key (output_time_turned_on c) k && handle_ok c k.

Definition well_formed (w : World) : Prop :=
  ∀ k, has_key (output_id (self w)) k || has_key (output_amps (self w)) k
       = true →
       entryb (self w) k = true.

Definition well_formedb (w : World) : bool :=
  forallb (entryb (self w))
    ((map_to_list (output_id (self w))).*1
     ++ (map_to_list (output_amps (self w))).*1).

(** ** The budget scenario: X and Y draw 6 A each under a 10 A budget *)

Module BudgetScenario.

Definition db (kind_x kind_y : string) : Database :=
  {| db_Output := [Scenario.output 1 kind_x (Some 17) 6;
                   Scenario.output 2 kind_y (Some 27) 6];
     db_Conditional := []; db_ConditionalActions := [];
     db_Misc_max_amps := 10; db_SMTP_hourly_max := 2 |}.

Definition on (kx ky : string) (k : Z) : M (option Z) :=
  output_on_off (db kx ky) 8 k "on" 0 0 0 true.

Definition started (kx ky : string) : World := init (db kx ky) 8 0.
Definition x_on (kx ky : string) : World := (on kx ky 1 (started kx ky)).2.


End BudgetScenario.

(** ** The e-mail scenario: one rule with three e-mail actions, two e-mails
    allowed per hour *)

Module EmailScenario.

Definition email_action (k : Z) : ConditionalActions.t :=
  {| ConditionalActions.id := k; ConditionalActions.conditional_id := 1;
     ConditionalActions.do_action := "email";
     ConditionalActions.do_relay_id := 0;
     ConditionalActions.do_relay_state := "";
     ConditionalActions.do_relay_duration := 0;
     ConditionalActions.do_action_string := "admin@example.org";
     ConditionalActions.email_notify := "admin@example.org";
     ConditionalActions.do_lcd_id := 0 |}.

Definition rule : Conditional.t :=
  {| Conditional.id := 1; Conditional.name := "notify";
     Conditional.is_activated := true; Conditional.if_relay_id := 1;
     Conditional.if_relay_state := "on_any";
     Conditional.if_relay_duration := 0 |}.

Definition db : Database :=
  {| db_Output := [Scenario.output 1 "command" None 1];
     db_Conditional := [rule];
     db_ConditionalActions := [email_action 1; email_action 2; email_action 3];
     db_Misc_max_amps := 10; db_SMTP_hourly_max := 2 |}.

Definition is_send_email (e : Event) : bool :=
  match e with send_email _ _ => true | _ => false end.

Definition emails_sent (w : World) : nat :=
  length (filter (λ e, is_send_email e = true) (trace w)).

(** The controller is started at time 0 and output 1 is turned on. *)
Definition started : World := init db 8 0.
Definition turned_on : World :=
  (output_on_off db 8 1 "on" 0 0 0 true started).2.

End EmailScenario.

(** ** The PWM scenario: one hardware-PWM output and one software-PWM
    output *)

Module PwmScenario.

Definition pwm_output_row (k : Z) (lib : string) (pin : Z) : Output.t :=
  {| Output.id := k; Output.unique_id := "pwm"; Output.relay_type := "pwm";
     Output.name := "fan"; Output.pin := Some pin; Output.amps := 0;
     Output.trigger := true; Output.on_at_start := None;
     Output.protocol := 1; Output.pulse_length := 189;
     Output.bit_length := 24; Output.on_command := "";
     Output.off_command := ""; Output.pwm_hertz := 22000;
     Output.pwm_library := lib |}.

Definition db : Database :=
  {| db_Output := [pwm_output_row 1 "pigpio_hardware" 18;
                   pwm_output_row 2 "pigpio_any" 23];
     db_Conditional := []; db_ConditionalActions := [];
     db_Misc_max_amps := 10; db_SMTP_hourly_max := 2 |}.

Definition started : World := init db 8 0.

End PwmScenario.

(** ** The duty-cycle translation as the specification words it: clamp the
    percentage to 0-100, then translate. *)



(** ** The rule scenario: output A with an "on for 30 s" rule, an "off" rule
    and an "on_any" rule, each flashing its own display *)

Module RuleScenario.

Definition rule (k : Z) (watched : string) (required : Q) : Conditional.t :=
  {| Conditional.id := k; Conditional.name := "rule";
     Conditional.is_activated := true; Conditional.if_relay_id := 1;
     Conditional.if_relay_state := watched;
     Conditional.if_relay_duration := required |}.

Definition flash (k : Z) : ConditionalActions.t :=
  {| ConditionalActions.id := k; ConditionalActions.conditional_id := k;
     ConditionalActions.do_action := "flash_lcd";
     ConditionalActions.do_relay_id := 0;
     ConditionalActions.do_relay_state := "";
     ConditionalActions.do_relay_duration := 0;
     ConditionalActions.do_action_string := "";
     ConditionalActions.email_notify := "";
     ConditionalActions.do_lcd_id := k |}.

(** Rule 1 watches "on" with duration 30, rule 2 watches "off", rule 3
    watches "on_any"; rule [k] flashes display [k]. *)
Definition db (kind : string) (pin : option Z) : Database :=
  {| db_Output := [Scenario.output 1 kind pin 1];
     db_Conditional := [rule 1 "on" 30; rule 2 "off" 0; rule 3 "on_any" 0];
     db_ConditionalActions := [flash 1; flash 2; flash 3];
     db_Misc_max_amps := 10; db_SMTP_hourly_max := 2 |}.



End RuleScenario.

(** ** The expiry scenario: one output turned on for 10 s at time 0, the
    scheduler loop running at time 11 *)

Module ExpiryScenario.

Definition db (kind : string) (pin : option Z) : Database :=
  {| db_Output := [Scenario.output 1 kind pin 1];
     db_Conditional := []; db_ConditionalActions := [];
     db_Misc_max_amps := 10; db_SMTP_hourly_max := 2 |}.

Definition timed_on (kind : string) (pin : option Z) : World :=
  (output_on_off (db kind pin) 8 1 "on" 10 0 0 true
     (init (db kind pin) 8 0)).2.

Definition is_duration_sample (e : Event) : option Q :=
  match e with
  | write_influxdb_value _ "duration_sec" v _ => Some v
  | _ => None
  end.

(** The [duration_sec] samples written by one iteration of the loop at
    time [t]. *)
Definition samples_at (kind : string) (pin : option Z) (t : Q) : list Q :=
  omap is_duration_sample
    (calls_of (run_iteration (db kind pin) 8)
       (set_clock t (timed_on kind pin))).

Definition after_iteration (kind : string) (pin : option Z) (t : Q)
    : World :=
  (run_iteration (db kind pin) 8 (set_clock t (timed_on kind pin))).2.

End ExpiryScenario.

(** [is_on] as a function of the six things it reads: the kind, pin and
    trigger of the output, the GPIO latches and the two turn-on times. *)
Definition is_on_tail (ty : string) (t_on pwm_t : option (option Q))
    : result bool :=
  if str_in ty ["command"; "wireless_433MHz_pi_switch"] then
    match t_on with Some t => Ok (is_not_None t) | None => Raise KeyError end
  else if String.eqb ty "pwm" then
    match pwm_t with Some t => Ok (is_not_None t) | None => Raise KeyError end
  else Ok false.

Definition is_on_pure (ty : option string) (pin : option (option Z))
    (trig : option bool) (gpio : gmap Z bool) (t_on pwm_t : option (option Q))
    : result bool :=
  match ty with
  | None => Raise KeyError
  | Some ty =>
      if String.eqb ty "wired" then
        match pin with
        | None => Raise KeyError
        | Some pin =>
            if truthy_pin pin then
              match trig, pin with
              | None, _ => Raise KeyError
              | Some _, None => Raise ValueError
              | Some trig, Some p =>
                  Ok (Bool.eqb trig (default false (gpio !! p)))
              end
            else is_on_tail ty t_on pwm_t
        end
      else is_on_tail ty t_on pwm_t
  end.

(** ** The conversion scenario: a 1 A command output turned on without a
    duration at time 0, looked at again at time 20 *)

Module ConversionScenario.

Definition db : Database := ExpiryScenario.db "command" None.

Definition running : World :=
  set_clock 20 (output_on_off db 8 1 "on" 0 0 0 true (init db 8 0)).2.

End ConversionScenario.

(** ** The budget invariant *)

(** An output counts against the budget when it is observed on and is of a
    current-drawing kind. *)
Definition is_current_kind (w : World) (k : Z) : bool :=
  match output_type (self w) !! k with
  | Some ty => str_in ty current_kinds
  | None => false
  end.

Definition drawn (w : World) (k : Z) : bool :=
  observed_on w k && is_current_kind w k.

Fixpoint sum_where (p : Z → bool) (items : list (Z * Q)) : Q :=
  match items with
  | [] => 0
  | (k, a) :: rest => (if p k then a else 0) + sum_where p rest
  end%Q.

(** The rated draw of the current-drawing outputs that are observed on. *)
Definition drawn_load (w : World) : Q :=
  sum_where (drawn w) (map_to_list (output_amps (self w))).

(** The configuration that the requests never change. *)
Definition static (w : World)
    : gmap Z string * gmap Z (option Z) * gmap Z bool * gmap Z Q :=
  (output_type (self w), output_pin (self w), output_trigger (self w),
   output_amps (self w)).

Definition amps_nonneg (w : World) : Prop :=
  ∀ k a, output_amps (self w) !! k = Some a → (0 <= a)%Q.

Definition pins_distinct (w : World) : Prop :=
  ∀ k1 k2 p,
    output_type (self w) !! k1 = Some "wired" →
    output_type (self w) !! k2 = Some "wired" →
    output_pin (self w) !! k1 = Some (Some p) →
    output_pin (self w) !! k2 = Some (Some p) →
    p ≠ 0 → k1 = k2.

Definition budget_inv (db : Database) (w : World) : Prop :=
  amps_nonneg w ∧ pins_distinct w
  ∧ (drawn_load w <= db_Misc_max_amps db)%Q.

(** Three ways a step may change the world, each coarser than the one
    before: nothing that [is_on] reads changes; no output starts to count;
    no output other than [k] starts to count. *)
Definition same_view (w w' : World) : Prop :=
  static w' = static w ∧ GPIO w' = GPIO w
  ∧ output_time_turned_on (self w') = output_time_turned_on (self w).

Definition quiet (w w' : World) : Prop :=
  static w' = static w
  ∧ (pins_distinct w → ∀ j, drawn w' j = true → drawn w j = true).

Definition grow (k : Z) (w w' : World) : Prop :=
  static w' = static w
  ∧ (pins_distinct w → ∀ j, j ≠ k → drawn w' j = true → drawn w j = true).

(** Every world a computation can leave behind is related to the one it
    started from; a computation keeps a property of the world. *)
Definition steps (R : World → World → Prop) {A} (m : M A) : Prop :=
  ∀ w, R w (m w).2.

Definition preserves (P : World → Prop) {A} (m : M A) : Prop :=
  ∀ w, P w → P (m w).2.

(** The configuration store is sane: the budget and the rated draws are
    not negative, and two wired rows that share a usable pin are rows of the
    same output. *)
Definition db_ok (db : Database) : Prop :=
  (0 <= db_Misc_max_amps db)%Q
  ∧ (∀ o, o ∈ db_Output db → (0 <= Output.amps o)%Q)
  ∧ (∀ o1 o2 p,
       o1 ∈ db_Output db → o2 ∈ db_Output db →
       Output.relay_type o1 = "wired" → Output.relay_type o2 = "wired" →
       Output.pin o1 = Some p → Output.pin o2 = Some p → p ≠ 0 →
       Output.id o1 = Output.id o2).

(** The worlds the controller can be in: the one the constructor leaves,
    and any world reached from there by a request, an iteration of the
    scheduler loop, or the passing of time. *)
Inductive reachable (db : Database) : World → Prop :=
| reach_init fuel t0 : reachable db (init db fuel t0)
| reach_request w fuel k state duration min_off duty_cycle trigger :
    reachable db w →
    reachable db
      (output_on_off db fuel k state duration min_off duty_cycle trigger w).2
| reach_iteration w fuel :
    reachable db w → reachable db (run_iteration db fuel w).2
| reach_clock w t : reachable db w → reachable db (set_clock t w).

(** ** Initialisation *)

(** The state of the registry while [all_outputs_initialize] runs over
    [rows]: every entry comes from a row, and nothing counts against the
    budget. *)
Definition configured (rows : list Output.t) (w : World) : Prop :=
  (∀ k a, output_amps (self w) !! k = Some a →
          ∃ o, o ∈ rows ∧ Output.amps o = a)
  ∧ (∀ k ty pin,
       output_type (self w) !! k = Some ty →
       output_pin (self w) !! k = Some pin →
       ∃ o, o ∈ rows ∧ Output.id o = k ∧ Output.relay_type o = ty
            ∧ Output.pin o = pin)
  ∧ (∀ k, drawn w k = false).

(** What the loop body of [all_outputs_initialize] does for the row [o]:
    the row's fields are stored, the output has no turn-on time, and a wired
    output with a pin has its latch driven away from the trigger level. *)
Definition registered (o : Output.t) (w w' : World) : Prop :=
  let k := Output.id o in
  output_type (self w') = <[k:=Output.relay_type o]> (output_type (self w))
  ∧ output_pin (self w') = <[k:=Output.pin o]> (output_pin (self w))
  ∧ output_trigger (self w')
    = <[k:=Output.trigger o]> (output_trigger (self w))
  ∧ output_amps (self w') = <[k:=Output.amps o]> (output_amps (self w))
  ∧ output_time_turned_on (self w')
    = <[k:=None]> (output_time_turned_on (self w))
  ∧ GPIO w'
    = (if String.eqb (Output.relay_type o) "wired"
       then match Output.pin o with
            | Some p => <[p:=negb (Output.trigger o)]> (GPIO w)
            | None => GPIO w
            end
       else GPIO w).


(** ** The PWM-load scenario: a PWM fan rated 20 A under a 10 A budget *)

Module PwmLoadScenario.

Definition fan : Output.t :=
  {| Output.id := 1; Output.unique_id := "fan"; Output.relay_type := "pwm";
     Output.name := "fan"; Output.pin := Some 18; Output.amps := 20;
     Output.trigger := true; Output.on_at_start := None;
     Output.protocol := 1; Output.pulse_length := 189;
     Output.bit_length := 24; Output.on_command := "";
     Output.off_command := ""; Output.pwm_hertz := 22000;
     Output.pwm_library := "pigpio_any" |}.

Definition db : Database :=
  {| db_Output := [fan]; db_Conditional := []; db_ConditionalActions := [];
     db_Misc_max_amps := 10; db_SMTP_hourly_max := 2 |}.

Definition running : World :=
  (output_on_off db 8 1 "on" 0 0 50 true (init db 8 0)).2.

End PwmLoadScenario.

(** ** The registry keeps its entries *)

Definition sub_keys {V} (m m' : gmap Z V) : Prop :=
  ∀ j, has_key m j = true → has_key m' j = true.

(** What the controller's code may do to the registry: the configuration
    stays as it is, and the runtime dicts and the hardware handles keep
    their keys. *)
Definition registry_le (c c' : OutputController) : Prop :=
  output_id c' = output_id c
  ∧ output_unique_id c' = output_unique_id c
  ∧ output_type c' = output_type c
  ∧ output_pin c' = output_pin c
  ∧ output_amps c' = output_amps c
  ∧ output_trigger c' = output_trigger c
  ∧ output_on_command c' = output_on_command c
  ∧ output_off_command c' = output_off_command c
  ∧ pwm_hertz c' = pwm_hertz c
  ∧ pwm_library c' = pwm_library c
  ∧ sub_keys (wireless_pi_switch c) (wireless_pi_switch c')
  ∧ sub_keys (pwm_output c) (pwm_output c')
  ∧ sub_keys (output_on_until c) (output_on_until c')
  ∧ sub_keys (output_last_duration c) (output_last_duration c')
  ∧ sub_keys (output_on_duration c) (output_on_duration c')
  ∧ sub_keys (pwm_time_turned_on c) (pwm_time_turned_on c')
  ∧ sub_keys (output_time_turned_on c) (output_time_turned_on c').

Definition keeps_registry (w w' : World) : Prop :=
  registry_le (self w) (self w').

(** ** Observation and maintenance methods *)

(** [output_state] returns ['on'], ['off'] or, for a PWM output, the value
    held in [pwm_state]: the string on the left, the duty cycle on the
    right. *)
Definition state_value : Type := string + option Q.

(** [state != 'off'] *)
Definition not_off (state : state_value) : bool :=
  match state with
  | inl s => negb (String.eqb s "off")
  | inr _ => true
  end.

(** Truthiness of a [pwm_state] value: [None] and [0.0] are false. *)
Definition truthy_duty (s : option Q) : bool :=
  match s with Some d => truthy_float d | None => false end.

Definition output_state (output_id : Z) : M state_value :=
  known ← gets (λ w, has_key (output_type (self w)) output_id);
  if known then
    ty ← getitem output_type output_id;
    if String.eqb ty "wired" then
      pin ← getitem output_pin output_id;
      on ←
        (if is_not_None pin then
           trig ← getitem output_trigger output_id;
           pin' ← getitem output_pin output_id;
           level ← GPIO_input pin';
           ret (Bool.eqb trig level)
         else ret false);
      if on then ret (inl "on") else ret (inl "off")
    else
      ty ← getitem output_type output_id;
      if str_in ty ["command"; "wireless_433MHz_pi_switch"] then
        t ← getitem output_time_turned_on output_id;
        if is_not_None t then ret (inl "on") else ret (inl "off")
      else
        ty ← getitem output_type output_id;
        if String.eqb ty "pwm" then
          has_state ← gets (λ w, has_key (pwm_state (self w)) output_id);
          truthy ←
            (if has_state
             then s ← getitem pwm_state output_id; ret (truthy_duty s)
             else ret false);
          if truthy then
            s ← getitem pwm_state output_id;
            ret (inr s)
          else ret (inl "off")
        else ret (inl "off")
  else ret (inl "off").

Definition output_sec_currently_on (output_id : Z) : M Q :=
  on ← is_on output_id;
  if negb on then ret 0%Q
  else
    time_now ← now;
    let sec_currently_on := 0%Q in
    timed ← getitem output_on_duration output_id;
    if timed then
      let remaining_time := 0%Q in
      until ← getitem output_on_until output_id;
      remaining_time ←
        (if Qgtb until time_now then
           until' ← getitem output_on_until output_id;
           ret (until' - time_now)%Q
         else ret remaining_time);
      last ← getitem output_last_duration output_id;
      ret (last - remaining_time)%Q
    else
      turned_on ← getitem output_time_turned_on output_id;
      if is_not_None turned_on then
        turned_on' ← getitem output_time_turned_on output_id;
        datetime_sub time_now turned_on'
      else ret sec_currently_on.

(** What the maintenance methods return next to their status code: the
    text ["success"], or an error text built from the output id and the
    exception that was caught.  [AttributeError_None] is the exception of
    reading an attribute of the [None] that the store returns for a row it
    does not have. *)
Inductive caught := Caught (e : exn) | AttributeError_None.

Inductive message :=
| success
| Add_Mod_Output_Error (id : Z) (err : caught)
| Del_Output_Error (id : Z) (err : caught)
| Invalid_output_setup_action.

(** [try: m except Exception as e: handler e] *)
Definition try_catch {A} (m : M A) (handler : exn → M A) : M A := λ w,
  match m w with
  | (Ok a, w') => (Ok a, w')
  | (Raise e, w') => handler e w'
  end.

Definition set_output_type (v : gmap Z string)
    (c : OutputController) : OutputController :=
  {| output_id := output_id c; output_unique_id := output_unique_id c;
     output_type := v; output_name := output_name c;
     output_pin := output_pin c; output_amps := output_amps c;
     output_trigger := output_trigger c;
     output_on_at_start := output_on_at_start c;
     output_on_until := output_on_until c;
     output_last_duration := output_last_duration c;
     output_on_duration := output_on_duration c;
     output_protocol := output_protocol c;
     output_pulse_length := output_pulse_length c;
     output_bit_length := output_bit_length c;
     output_on_command := output_on_command c;
     output_off_command := output_off_command c;
     wireless_pi_switch := wireless_pi_switch c; pwm_hertz := pwm_hertz c;
     pwm_library := pwm_library c; pwm_output := pwm_output c;
     pwm_state := pwm_state c; pwm_time_turned_on := pwm_time_turned_on c;
     output_time_turned_on := output_time_turned_on c;
     smtp_max_count := smtp_max_count c; smtp_wait_time := smtp_wait_time c;
     email_count := email_count c;
     allowed_to_send_notice := allowed_to_send_notice c |}.

(** The assignments of lines 699-718 of [add_mod_output]; none of them can
    raise, so they are made in one step.  [pwm_time_turned_on] is not among
    them. *)
Definition store_modified_output (k : Z) (o : Output.t) (t : Q)
    (c : OutputController) : OutputController :=
  {| output_id := <[k:=Output.id o]> (output_id c);
     output_unique_id := <[k:=Output.unique_id o]> (output_unique_id c);
     output_type := <[k:=Output.relay_type o]> (output_type c);
     output_name := <[k:=Output.name o]> (output_name c);
     output_pin := <[k:=Output.pin o]> (output_pin c);
     output_amps := <[k:=Output.amps o]> (output_amps c);
     output_trigger := <[k:=Output.trigger o]> (output_trigger c);
     output_on_at_start := <[k:=Output.on_at_start o]> (output_on_at_start c);
     output_on_until := <[k:=t]> (output_on_until c);
     output_last_duration := <[k:=0%Q]> (output_last_duration c);
     output_on_duration := <[k:=false]> (output_on_duration c);
     output_protocol := <[k:=Output.protocol o]> (output_protocol c);
     output_pulse_length :=
       <[k:=Output.pulse_length o]> (output_pulse_length c);
     output_bit_length := <[k:=Output.bit_length o]> (output_bit_length c);
     output_on_command := <[k:=Output.on_command o]> (output_on_command c);
     output_off_command := <[k:=Output.off_command o]> (output_off_command c);
     wireless_pi_switch := wireless_pi_switch c;
     pwm_hertz := <[k:=Output.pwm_hertz o]> (pwm_hertz c);
     pwm_library := <[k:=Output.pwm_library o]> (pwm_library c);
     pwm_output := pwm_output c;
     pwm_state := pwm_state c;
     pwm_time_turned_on := pwm_time_turned_on c;
     output_time_turned_on := <[k:=None]> (output_time_turned_on c);
     smtp_max_count := smtp_max_count c;
     smtp_wait_time := smtp_wait_time c;
     email_count := email_count c;
     allowed_to_send_notice := allowed_to_send_notice c |}.

(** The [pop(output_id, None)] calls of lines 757-779 of [del_output]; none
    of them can raise.  [output_time_turned_on] is not among them. *)
Definition remove_output (k : Z) (c : OutputController) : OutputController :=
  {| output_id := delete k (output_id c);
     output_unique_id := delete k (output_unique_id c);
     output_type := delete k (output_type c);
     output_name := delete k (output_name c);
     output_pin := delete k (output_pin c);
     output_amps := delete k (output_amps c);
     output_trigger := delete k (output_trigger c);
     output_on_at_start := delete k (output_on_at_start c);
     output_on_until := delete k (output_on_until c);
     output_last_duration := delete k (output_last_duration c);
     output_on_duration := delete k (output_on_duration c);
     output_protocol := delete k (output_protocol c);
     output_pulse_length := delete k (output_pulse_length c);
     output_bit_length := delete k (output_bit_length c);
     output_on_command := delete k (output_on_command c);
     output_off_command := delete k (output_off_command c);
     wireless_pi_switch := delete k (wireless_pi_switch c);
     pwm_hertz := delete k (pwm_hertz c);
     pwm_library := delete k (pwm_library c);
     pwm_output := delete k (pwm_output c);
     pwm_state := delete k (pwm_state c);
     pwm_time_turned_on := delete k (pwm_time_turned_on c);
     output_time_turned_on := output_time_turned_on c;
     smtp_max_count := smtp_max_count c;
     smtp_wait_time := smtp_wait_time c;
     email_count := email_count c;
     allowed_to_send_notice := allowed_to_send_notice c |}.

(** [self.output_id[k]], read where the log message is formatted. *)
Definition output_id_of (k : Z) : M Z := getitem output_id k.

(** Lines 696-697 and 751-752: "turn current pin off". *)
Definition turn_current_pin_off (output_id : Z) : M unit :=
  in_pin ← gets (λ w, has_key (output_pin (self w)) output_id);
  on ←
    (if in_pin
     then state ← output_state output_id; ret (not_off state)
     else ret false);
  if on then output_switch output_id "off" None else ret tt.

Section Maintenance.
Context (db : Database).

(** [db_retrieve_table_daemon(Output, device_id=output_id)]: the row with
    that id, [None] when the store has none. *)
Definition db_retrieve_Output (device_id : Z) : option Output.t :=
  find (λ o, Z.eqb (Output.id o) device_id) (db_Output db).

Definition add_mod_output (output_id : Z) : M (Z * message) :=
  match db_retrieve_Output output_id with
  | None =>
      (* [output.relay_type] on [None], caught by the handler below *)
      ret (1, Add_Mod_Output_Error output_id AttributeError_None)
  | Some output =>
      try_catch
        (setitem output_type set_output_type output_id
           (Output.relay_type output) ;;
         (* Turn current pin off *)
         turn_current_pin_off output_id ;;
         t ← now;
         modify (λ w,
           set_self (store_modified_output output_id output t (self w)) w) ;;
         pin ← getitem output_pin output_id;
         (if truthy_pin pin then setup_pin (Output.id output) else ret tt) ;;
         (* the message formatted for the log *)
         _ ← output_id_of output_id;
         _ ← getitem output_name output_id;
         ret (0, success))
        (λ except_msg,
           ret (1, Add_Mod_Output_Error output_id (Caught except_msg)))
  end.

Definition del_output (output_id : Z) : M (Z * message) :=
  (* Turn current pin off *)
  turn_current_pin_off output_id ;;
  try_catch
    ((* the message formatted for the log *)
     _ ← output_id_of output_id;
     _ ← getitem output_name output_id;
     modify (λ w, set_self (remove_output output_id (self w)) w) ;;
     ret (0, success))
    (λ msg, ret (1, Del_Output_Error output_id (Caught msg))).

Definition output_setup (action : string) (output_id : Z)
    : M (Z * message) :=
  if str_in action ["Add"; "Modify"] then add_mod_output output_id
  else if String.eqb action "Delete" then del_output output_id
  else ret (1, Invalid_output_setup_action).

End Maintenance.

(** What the maintenance code leaves alone while it re-registers an output:
    the kinds and the PWM turn-on times. *)
Definition pwm_time_frame (w w' : World) : Prop :=
  output_type (self w') = output_type (self w)
  ∧ pwm_time_turned_on (self w') = pwm_time_turned_on (self w).

(** The configuration of the outputs, as the requests find it. *)
Definition same_configuration (c c' : OutputController) : Prop :=
  output_id c' = output_id c
  ∧ output_unique_id c' = output_unique_id c
  ∧ output_type c' = output_type c
  ∧ output_pin c' = output_pin c
  ∧ output_amps c' = output_amps c
  ∧ output_trigger c' = output_trigger c
  ∧ output_on_command c' = output_on_command c
  ∧ output_off_command c' = output_off_command c
  ∧ pwm_hertz c' = pwm_hertz c
  ∧ pwm_library c' = pwm_library c.

(** The calls that only a conditional action makes. *)
Definition is_cascade_event (e : Event) : bool :=
  match e with
  | conditional_command _ _ _ _ _ | send_email _ _ | flash_lcd _
  | logger_info _ _ => true
  | _ => false
  end.

Definition cascade_events (l : list Event) : list Event :=
  List.filter is_cascade_event l.

Definition same_cascade (w w' : World) : Prop :=
  cascade_events (trace w') = cascade_events (trace w).

(** ** Start-up *)

(** A step leaves the on-at-start settings as they are. *)
Definition at_start_frame (w w' : World) : Prop :=
  output_on_at_start (self w') = output_on_at_start (self w).

(** Only outputs that are configured on at start draw current. *)
Definition only_at_start_drawn (w : World) : Prop :=
  pins_distinct w
  ∧ ∀ k, drawn w k = true →
         output_on_at_start (self w) !! k = Some (Some true).

(** ** Installations used to exercise the maintenance and start-up code *)

Module MaintenanceScenario.

(** A PWM row whose frequency was never set. *)
Definition stalled_fan : Output.t :=
  {| Output.id := 1; Output.unique_id := "fan"; Output.relay_type := "pwm";
     Output.name := "fan"; Output.pin := Some 18; Output.amps := 0;
     Output.trigger := true; Output.on_at_start := None;
     Output.protocol := 1; Output.pulse_length := 189;
     Output.bit_length := 24; Output.on_command := "";
     Output.off_command := ""; Output.pwm_hertz := 0;
     Output.pwm_library := "pigpio_any" |}.

Definition stalled_db : Database :=
  {| db_Output := [stalled_fan]; db_Conditional := [];
     db_ConditionalActions := []; db_Misc_max_amps := 10;
     db_SMTP_hourly_max := 2 |}.

(** The budget installation after a PWM row with id 3 was added to the
    store; the controller was started before. *)
Definition hotplug_db : Database :=
  {| db_Output := [Scenario.output 1 "wired" (Some 17) 6;
                   Scenario.output 2 "command" (Some 27) 6;
                   PwmScenario.pwm_output_row 3 "pigpio_any" 12];
     db_Conditional := []; db_ConditionalActions := [];
     db_Misc_max_amps := 10; db_SMTP_hourly_max := 2 |}.

Definition running : World := BudgetScenario.started "wired" "command".

(** The budget installation with the three rules of the rule scenario, all
    bound to output 1. *)
Definition watched_db : Database :=
  {| db_Output := [Scenario.output 1 "wired" (Some 17) 6;
                   Scenario.output 2 "command" (Some 27) 6];
     db_Conditional := [RuleScenario.rule 1 "on" 30;
                        RuleScenario.rule 2 "off" 0;
                        RuleScenario.rule 3 "on_any" 0];
     db_ConditionalActions := [RuleScenario.flash 1; RuleScenario.flash 2;
                               RuleScenario.flash 3];
     db_Misc_max_amps := 10; db_SMTP_hourly_max := 2 |}.

(** A wired output that is configured on at start, next to one that is
    not. *)
Definition at_start_row : Output.t :=
  {| Output.id := 1; Output.unique_id := "lamp"; Output.relay_type := "wired";
     Output.name := "lamp"; Output.pin := Some 17; Output.amps := 6;
     Output.trigger := true; Output.on_at_start := Some true;
     Output.protocol := 1; Output.pulse_length := 189;
     Output.bit_length := 24; Output.on_command := "";
     Output.off_command := ""; Output.pwm_hertz := 22000;
     Output.pwm_library := "pigpio_any" |}.

Definition startup_db : Database :=
  {| db_Output := [at_start_row; Scenario.output 2 "command" (Some 27) 6];
     db_Conditional := []; db_ConditionalActions := [];
     db_Misc_max_amps := 10; db_SMTP_hourly_max := 2 |}.

End MaintenanceScenario.

(** ** Metrics *)

(** The [duration_sec] samples among the calls, each with its timestamp. *)
Definition duration_sample (e : Event) : option (Q * option Q) :=
  match e with
  | write_influxdb_value _ kind value timestamp =>
      if String.eqb kind "duration_sec" then Some (value, timestamp) else None
  | _ => None
  end.

Definition duration_samples (l : list Event) : list (Q * option Q) :=
  omap duration_sample l.

Definition same_samples (w w' : World) : Prop :=
  duration_samples (trace w') = duration_samples (trace w).

(** * Reasoning principles for the monad *)

Section MonadFacts.
Context {A B : Type}.

Lemma bind_Ok (m : M A) (f : A → M B) w a w' :
  m w = (Ok a, w') → bind m f w = f a w'.
Proof. intros H. unfold bind. now rewrite H. Qed.

Lemma bind_Raise (m : M A) (f : A → M B) w e w' :
  m w = (Raise e, w') → bind m f w = (Raise e, w').
Proof. intros H. unfold bind. now rewrite H. Qed.

Lemma bind_inv (m : M A) (f : A → M B) w r w'' :
  bind m f w = (r, w'') →
  (∃ a w', m w = (Ok a, w') ∧ f a w' = (r, w''))
  ∨ (∃ e, m w = (Raise e, w'') ∧ r = Raise e).
Proof.
  unfold bind. destruct (m w) as [[a|e] w'] eqn:E; intros H.
  - left. eauto.
  - right. inversion H; subst. eauto.
Qed.

End MonadFacts.

Lemma getitem_Some {V} (d : OutputController → gmap Z V) k w v :
  d (self w) !! k = Some v → getitem d k w = (Ok v, w).
Proof. intros H. unfold getitem. now rewrite H. Qed.

Lemma getitem_None {V} (d : OutputController → gmap Z V) k w :
  d (self w) !! k = None → getitem d k w = (Raise KeyError, w).
Proof. intros H. unfold getitem. now rewrite H. Qed.

Lemma has_key_is_Some {V} (m : gmap Z V) k :
  has_key m k = true ↔ is_Some (m !! k).
Proof.
  unfold has_key. destruct (m !! k); split; intros H.
  - eauto.
  - reflexivity.
  - discriminate.
  - destruct H as [? H]; discriminate.
Qed.

(** ** Computations that only read the world *)

Lemma readonly_ret {A} (a : A) : readonly (ret a).
Proof. now intros w. Qed.

Lemma readonly_raise {A} e : readonly (@raise A e).
Proof. now intros w. Qed.

Lemma readonly_gets {A} (f : World → A) : readonly (gets f).
Proof. now intros w. Qed.

Lemma readonly_getitem {V} (d : OutputController → gmap Z V) k :
  readonly (getitem d k).
Proof. intros w. unfold getitem. now destruct (d (self w) !! k). Qed.

Lemma readonly_bind {A B} (m : M A) (f : A → M B) :
  readonly m → (∀ a, readonly (f a)) → readonly (bind m f).
Proof.
  intros Hm Hf w. unfold bind. specialize (Hm w).
  destruct (m w) as [[a|e] w']; simpl in *; subst; [apply Hf | easy].
Qed.

Lemma readonly_if {A} (b : bool) (m1 m2 : M A) :
  readonly m1 → readonly m2 → readonly (if b then m1 else m2).
Proof. now destruct b. Qed.

Lemma readonly_GPIO_input pin : readonly (GPIO_input pin).
Proof. destruct pin; [apply readonly_gets | apply readonly_raise]. Qed.

Create HintDb readonly.
#[local] Hint Resolve readonly_ret readonly_raise readonly_gets
  readonly_getitem readonly_GPIO_input : readonly.

Ltac readonly_tac :=
  repeat first
    [ solve [auto with readonly]
    | apply readonly_bind; [| intros ?]
    | apply readonly_if ].

Lemma readonly__is_setup k : readonly (_is_setup k).
Proof. unfold _is_setup. readonly_tac. Qed.
#[local] Hint Resolve readonly__is_setup : readonly.

Lemma readonly_is_on k : readonly (is_on k).
Proof. unfold is_on. readonly_tac. Qed.
#[local] Hint Resolve readonly_is_on : readonly.

Lemma readonly_amp_load_loop items acc : readonly (amp_load_loop items acc).
Proof.
  revert acc. induction items as [|[k a] items IH]; intros acc; simpl.
  - apply readonly_ret.
  - apply readonly_bind; [apply readonly_is_on | intros on; apply IH].
Qed.

Lemma readonly_current_amp_load : readonly current_amp_load.
Proof.
  unfold current_amp_load. apply readonly_bind; [apply readonly_gets |].
  intros items. apply readonly_amp_load_loop.
Qed.
#[local] Hint Resolve readonly_current_amp_load : readonly.

Lemma readonly_invalid_pin k : readonly (invalid_pin k).
Proof. unfold invalid_pin. readonly_tac. Qed.

Lemma readonly_exceeds_budget_or_min_off db k min_off :
  readonly (exceeds_budget_or_min_off db k min_off).
Proof. unfold exceeds_budget_or_min_off, now. cbv zeta. readonly_tac. Qed.
#[local] Hint Resolve readonly_invalid_pin
  readonly_exceeds_budget_or_min_off : readonly.

(** A read-only computation is determined by its result. *)
Lemma readonly_run {A} (m : M A) w : readonly m → m w = ((m w).1, w).
Proof. intros H. rewrite <- (H w) at 3. now destruct (m w). Qed.

(** * The switch entry point on an unknown id *)

(** C8: for every world and every output id that is not a key of
    [self.output_id], [output_on_off] returns 1 and leaves the whole world
    as it was: no runtime field of any output changes, nothing is sent to
    the hardware (the trace is unchanged) and no conditional is evaluated. *)
Theorem output_on_off_unknown_id db fuel k state duration min_off duty_cycle
    trigger_conditionals w :
  output_id (self w) !! k = None →
  output_on_off db (S fuel) k state duration min_off duty_cycle
    trigger_conditionals w = (Ok (Some 1), w).
Proof.
  intros Hk. simpl. unfold output_on_off_body.
  assert (Hex : output_exists k w = (Ok false, w)).
  { unfold output_exists, gets, has_key. now rewrite Hk. }
  now rewrite (bind_Ok _ _ _ _ _ Hex).
Qed.

Lemma output_on_off_unknown_id_witness :
  let w := BudgetScenario.started "wired" "command" in
  output_id (self w) !! 99 = None
  ∧ output_on_off (BudgetScenario.db "wired" "command") 8 99 "on" 30 0 0 true
      w = (Ok (Some 1), w).
Proof.
  assert (Hk : output_id (self (BudgetScenario.started "wired" "command"))
               !! 99 = None).
  { vm_compute. reflexivity. }
  cbv zeta. refine (conj Hk _).
  exact (output_on_off_unknown_id (BudgetScenario.db "wired" "command")
           7%nat 99 "on" 30%Q 0%Q 0%Q true _ Hk).
Defined.

(** * Well-formed worlds: reads do not raise *)

Lemma well_formedb_sound w : well_formedb w = true → well_formed w.
Proof.
  unfold well_formedb, well_formed. rewrite forallb_forall.
  intros H k Hk. apply H. apply in_or_app.
  apply orb_prop in Hk as [Hk|Hk]; [left | right];
    apply has_key_is_Some in Hk as [v Hv];
    apply list_elem_of_In, list_elem_of_fmap; exists (k, v);
    (split; [reflexivity | now apply elem_of_map_to_list]).
Qed.

Ltac split_andb :=
  repeat match goal with
         | H : _ && _ = true |- _ => apply andb_prop in H; destruct H
         end.

Lemma entryb_lookups c k :
  entryb c k = true →
  ∃ ty pin a trig until last timed pwm_t t_on,
    output_type c !! k = Some ty ∧ output_pin c !! k = Some pin
    ∧ output_amps c !! k = Some a ∧ output_trigger c !! k = Some trig
    ∧ output_on_until c !! k = Some until
    ∧ output_last_duration c !! k = Some last
    ∧ output_on_duration c !! k = Some timed
    ∧ pwm_time_turned_on c !! k = Some pwm_t
    ∧ output_time_turned_on c !! k = Some t_on.
Proof.
  unfold entryb. intros H. split_andb.
  repeat match goal with
         | H : has_key _ _ = true |- _ =>
             apply has_key_is_Some in H; destruct H
         end.
  eauto 20.
Qed.

(** ** Stepping through a computation *)

Lemma run_ret {A} (a : A) w : ret a w = (Ok a, w).
Proof. reflexivity. Qed.

Lemma bind_ret {A B} (a : A) (f : A → M B) w : bind (ret a) f w = f a w.
Proof. reflexivity. Qed.

Lemma bind_gets {A B} (g : World → A) (f : A → M B) w :
  bind (gets g) f w = f (g w) w.
Proof. reflexivity. Qed.

Lemma bind_modify {B} (g : World → World) (f : unit → M B) w :
  bind (modify g) f w = f tt (g w).
Proof. reflexivity. Qed.

Lemma bind_raise {A B} e (f : A → M B) w :
  bind (raise e) f w = (Raise e, w).
Proof. reflexivity. Qed.

Lemma bind_bind {A B C} (m : M A) (g : A → M B) (f : B → M C) w :
  bind (bind m g) f w = bind m (λ a, bind (g a) f) w.
Proof. unfold bind. now destruct (m w) as [[a|e] w']. Qed.

Lemma bind_getitem {V B} (d : OutputController → gmap Z V) k v
    (f : V → M B) w :
  d (self w) !! k = Some v → bind (getitem d k) f w = f v w.
Proof. intros H. apply bind_Ok. now apply getitem_Some. Qed.

Lemma bind_readonly {A B} (m : M A) (f : A → M B) w a :
  readonly m → (m w).1 = Ok a → bind m f w = f a w.
Proof.
  intros Hro Ha. apply bind_Ok. rewrite (readonly_run m w Hro). now rewrite Ha.
Qed.

Ltac mstep :=
  match goal with
  | |- context [bind (bind ?m ?g) ?f ?w] => rewrite (bind_bind m g f w)
  | |- context [bind (ret ?a) ?f ?w] => rewrite (bind_ret a f w)
  | |- context [bind (gets ?g) ?f ?w] => rewrite (bind_gets g f w)
  | |- context [bind (modify ?g) ?f ?w] => rewrite (bind_modify g f w)
  | |- context [bind (raise ?e) ?f ?w] => rewrite (bind_raise e f w)
  | |- context [bind (getitem ?d ?k) ?f ?w] =>
      erewrite (bind_getitem d k _ f w) by eassumption
  | |- context [getitem ?d ?k ?w] =>
      erewrite (getitem_Some d k w) by eassumption
  | |- context [ret ?a ?w] => rewrite (run_ret a w)
  end.
Ltac mrun := repeat (mstep; cbv beta).

Lemma _is_setup_wired_pin k w pin :
  output_type (self w) !! k = Some "wired" →
  output_pin (self w) !! k = Some pin →
  _is_setup k w = (Ok (truthy_pin pin), w).
Proof.
  intros Hty Hpin. unfold _is_setup. mrun. simpl. mrun.
  now destruct (truthy_pin pin).
Qed.

Lemma is_on_well_formed k w :
  entryb (self w) k = true → is_on k w = (Ok (observed_on w k), w).
Proof.
  intros H. rewrite (readonly_run _ w (readonly_is_on k)).
  f_equal. unfold observed_on.
  destruct (entryb_lookups _ _ H)
    as (ty & pin & a & trig & until & last & timed & pwm_t & t_on
        & Hty & Hpin & Ha & Htrig & _ & _ & _ & Hpwm & Hton).
  unfold is_on. mrun.
  destruct (String.eqb ty "wired") eqn:Hw.
  - apply String.eqb_eq in Hw. subst ty.
    rewrite (bind_Ok _ _ _ _ _ (_is_setup_wired_pin _ _ _ Hty Hpin)).
    destruct (truthy_pin pin) eqn:Hp.
    + destruct pin as [p|]; [|discriminate]. unfold GPIO_input. mrun.
      simpl. now destruct (Bool.eqb trig _).
    + simpl. now mrun.
  - mrun.
    destruct (str_in ty _); [mrun; simpl; now destruct (is_not_None t_on)|].
    destruct (String.eqb ty "pwm");
      [mrun; simpl; now destruct (is_not_None pwm_t) | now mrun].
Qed.

Lemma amp_load_loop_well_formed w items acc :
  (∀ k a, (k, a) ∈ items → entryb (self w) k = true) →
  amp_load_loop items acc w = (Ok (sum_on w items acc), w).
Proof.
  revert acc. induction items as [|[k a] items IH]; intros acc Hall.
  - reflexivity.
  - simpl.
    rewrite (bind_Ok _ _ _ _ _ (is_on_well_formed k w
               (Hall k a (list_elem_of_here _ _)))).
    apply IH. intros k' a' Hin. apply (Hall k' a'). now right.
Qed.

Lemma current_amp_load_well_formed w :
  well_formed w → current_amp_load w = (Ok (amp_load w), w).
Proof.
  intros Hwf. unfold current_amp_load. mrun.
  apply amp_load_loop_well_formed. intros k a Hin. apply Hwf.
  apply elem_of_map_to_list in Hin. unfold has_key at 2. rewrite Hin.
  apply orb_true_r.
Qed.

Lemma well_formed_entry w k :
  well_formed w → output_id (self w) !! k ≠ None → entryb (self w) k = true.
Proof.
  intros Hwf Hk. apply Hwf. unfold has_key at 1.
  destruct (output_id (self w) !! k); [reflexivity | congruence].
Qed.

Lemma invalid_pin_well_formed k w ty pin :
  output_type (self w) !! k = Some ty →
  output_pin (self w) !! k = Some pin →
  invalid_pin k w = (Ok (str_in ty pin_kinds && is_None pin), w).
Proof.
  intros Hty Hpin. unfold invalid_pin. mrun.
  destruct (str_in ty pin_kinds); now mrun.
Qed.

(** The guard of lines 209-243 on a well-formed world: it reads only, it
    denies whenever the load with this output added exceeds the budget, and
    when it lets a current-drawing output through the budget holds. *)
Lemma exceeds_budget_or_min_off_well_formed db k min_off w ty a :
  well_formed w →
  output_id (self w) !! k ≠ None →
  output_type (self w) !! k = Some ty →
  output_amps (self w) !! k = Some a →
  ∃ denied,
    exceeds_budget_or_min_off db k min_off w = (Ok denied, w)
    ∧ (str_in ty current_kinds = true →
       Qgtb (amp_load w + a) (db_Misc_max_amps db) = true → denied = true)
    ∧ (str_in ty current_kinds = true → denied = false →
       Qgtb (amp_load w + a) (db_Misc_max_amps db) = false)
    ∧ (Qgtb (amp_load w + a) (db_Misc_max_amps db) = false →
       truthy_float min_off = false ∨ observed_on w k = true →
       denied = false).
Proof.
  intros Hwf Hk Hty Ha.
  pose proof (well_formed_entry _ _ Hwf Hk) as He.
  destruct (entryb_lookups _ _ He)
    as (ty' & pin & a' & trig & until & last & timed & pwm_t & t_on
        & Hty' & Hpin & Ha' & Htrig & Huntil & _ & _ & Hpwm & Hton).
  assert (ty' = ty) by congruence. assert (a' = a) by congruence.
  subst ty' a'. clear Hty' Ha'.
  unfold exceeds_budget_or_min_off. mrun.
  destruct (str_in ty current_kinds) eqn:Hkind.
  - rewrite (bind_Ok _ _ _ _ _ (current_amp_load_well_formed _ Hwf)).
    cbv zeta. mrun.
    destruct (Qgtb (amp_load w + a) (db_Misc_max_amps db)) eqn:Hgt.
    + mrun. eexists; split; [reflexivity |].
      split; [easy |]. split; discriminate.
    + unfold now. mrun.
      destruct (truthy_float min_off).
      * mrun. rewrite (bind_Ok _ _ _ _ _ (is_on_well_formed k w He)).
        destruct (observed_on w k); simpl; mrun.
        -- eexists; split; [reflexivity |].
           split; [discriminate |]. split; easy.
        -- destruct (Qgtb (clock w) until); mrun;
             eexists; (split; [reflexivity |]);
             (split; [discriminate |]); (split; [easy |]);
             intros _ [H|H]; discriminate H.
      * mrun. eexists; split; [reflexivity |].
        split; [discriminate |]. split; easy.
  - mrun. eexists; split; [reflexivity |].
    split; [discriminate |]. split; [discriminate | easy].
Qed.

(** * The amperage budget on a turn-on request *)

Lemma output_exists_known k w :
  output_id (self w) !! k ≠ None → output_exists k w = (Ok true, w).
Proof.
  intros Hk. unfold output_exists, gets, has_key.
  destruct (output_id (self w) !! k); [reflexivity | congruence].
Qed.




(** * Repeating an untimed turn-on *)

(** C10: on a well-formed world, for a registered output of a
    current-drawing kind that is observed on, an "on" request with duration
    0 returns 1 and leaves the whole world as it was: nothing is sent to the
    hardware and no runtime field changes. *)
Theorem untimed_on_rejected_when_on db fuel k ty duration min_off duty_cycle
    trigger_conditionals w :
  well_formed w →
  output_id (self w) !! k ≠ None →
  output_type (self w) !! k = Some ty →
  str_in ty current_kinds = true →
  observed_on w k = true →
  (duration == 0)%Q →
  output_on_off db (S fuel) k "on" duration min_off duty_cycle
    trigger_conditionals w = (Ok (Some 1), w).
Proof.
  intros Hwf Hk Hty Hkind Hon Hd. simpl. unfold output_on_off_body.
  rewrite (bind_Ok _ _ _ _ _ (output_exists_known _ _ Hk)). simpl.
  pose proof (well_formed_entry _ _ Hwf Hk) as He.
  destruct (entryb_lookups _ _ He)
    as (ty' & pin & a & trig & until & last & timed & pwm_t & t_on
        & Hty' & Hpin & Ha & _).
  assert (ty' = ty) by congruence. subst ty'. clear Hty'.
  unfold turn_on. rewrite bind_bind.
  rewrite (bind_Ok _ _ _ _ _ (invalid_pin_well_formed _ _ _ _ Hty Hpin)).
  destruct (str_in ty pin_kinds && is_None pin); [now mrun |].
  destruct (exceeds_budget_or_min_off_well_formed db k min_off w ty a
              Hwf Hk Hty Ha) as (denied & Hrun & _ & _ & _).
  rewrite bind_bind. rewrite (bind_Ok _ _ _ _ _ Hrun).
  destruct denied; [now mrun |].
  unfold switch_on. mrun. rewrite Hkind.
  unfold truthy_float. rewrite (Qeq_eq_bool _ _ Hd). cbn [andb negb]. mrun.
  rewrite (bind_Ok _ _ _ _ _ (is_on_well_formed k w He)). rewrite Hon.
  now mrun.
Qed.

Lemma untimed_on_rejected_when_on_witness :
  let w := BudgetScenario.x_on "command" "wired" in
  well_formed w
  ∧ output_id (self w) !! 1 ≠ None
  ∧ output_type (self w) !! 1 = Some "command"
  ∧ str_in "command" current_kinds = true
  ∧ observed_on w 1 = true
  ∧ (0 == 0)%Q
  ∧ output_on_off (BudgetScenario.db "command" "wired") 8 1 "on" 0 0 0 true w
    = (Ok (Some 1), w).
Proof.
  assert (Hwf : well_formed (BudgetScenario.x_on "command" "wired")).
  { apply well_formedb_sound. vm_compute. reflexivity. }
  assert (Hk : output_id (self (BudgetScenario.x_on "command" "wired")) !! 1
               ≠ None).
  { vm_compute. discriminate. }
  assert (Hty : output_type (self (BudgetScenario.x_on "command" "wired"))
                !! 1 = Some "command").
  { vm_compute. reflexivity. }
  assert (Hon : observed_on (BudgetScenario.x_on "command" "wired") 1 = true).
  { vm_compute. reflexivity. }
  cbv zeta.
  refine (conj Hwf (conj Hk (conj Hty (conj eq_refl (conj Hon
            (conj (Qeq_refl 0) _)))))).
  exact (untimed_on_rejected_when_on
           (BudgetScenario.db "command" "wired") 7%nat 1 "command" 0%Q 0%Q
           0%Q true _ Hwf Hk Hty eq_refl Hon (Qeq_refl 0)).
Defined.

(** * The hourly e-mail throttle *)

Lemma Qltb_true x y : Qltb x y = true ↔ (x < y)%Q.
Proof.
  unfold Qltb. rewrite negb_true_iff. split.
  - intros H. apply Qnot_le_lt. intros Hle.
    apply Qle_bool_iff in Hle. congruence.
  - intros H. apply not_true_is_false. intros Hle.
    apply Qle_bool_iff in Hle. lra.
Qed.

Lemma Qgtb_true x y : Qgtb x y = true ↔ (y < x)%Q.
Proof. apply (Qltb_true y x). Qed.

Lemma Qltb_false x y : Qltb x y = false ↔ (y <= x)%Q.
Proof.
  unfold Qltb. rewrite negb_false_iff. apply Qle_bool_iff.
Qed.

Lemma Qgtb_false x y : Qgtb x y = false ↔ (x <= y)%Q.
Proof. apply (Qltb_false y x). Qed.

(** C4, the claim as stated fails: with two e-mails allowed per hour, a
    rule with three e-mail actions sends two e-mails and suppresses the
    third inside the window, yet [email_count] stands at 3 afterwards: the
    suppressed e-mail was counted. *)
Lemma suppressed_email_is_counted :
  smtp_max_count (self EmailScenario.turned_on) = 2
  ∧ (clock EmailScenario.turned_on
     < smtp_wait_time (self EmailScenario.turned_on))%Q
  ∧ EmailScenario.emails_sent EmailScenario.turned_on = 2%nat
  ∧ email_count (self EmailScenario.turned_on) = 3.
Proof. vm_compute. repeat split. Qed.

(** C4, amended: an e-mail action is suppressed (no [send_email]) exactly
    when [email_count] has reached [smtp_max_count] and the clock is before
    [smtp_wait_time]; otherwise the e-mail is sent.  [email_count] is
    incremented by every e-mail action, suppressed or sent; when the clock
    is past [smtp_wait_time] the count is first reset to zero (so it stands
    at 1 afterwards) and the window is moved to one hour from now. *)
Theorem email_action_throttle rec k state on_duration duty_cycle cond act w :
  ConditionalActions.do_action act = "email" →
  let count := email_count (self w) in
  let wait := smtp_wait_time (self w) in
  let sent :=
    send_email (ConditionalActions.do_action_string act)
      (ConditionalActions.id act) in
  let audit :=
    logger_info (Conditional.id cond) (ConditionalActions.id act) in
  ∃ w',
    run_action rec k state on_duration duty_cycle cond act w = (Ok tt, w')
    ∧ ((smtp_max_count (self w) ≤ count)%Z ∧ (clock w < wait)%Q →
       trace w' = (trace w ++ [audit])%list
       ∧ email_count (self w') = count + 1
       ∧ smtp_wait_time (self w') = wait)
    ∧ (¬ ((smtp_max_count (self w) ≤ count)%Z ∧ (clock w < wait)%Q) →
       trace w' = ((trace w ++ [sent]) ++ [audit])%list
       ∧ ((wait < clock w)%Q →
          email_count (self w') = 1
          ∧ smtp_wait_time (self w') = (clock w + 3600)%Q)
       ∧ ((clock w <= wait)%Q →
          email_count (self w') = count + 1
          ∧ smtp_wait_time (self w') = wait)).
Proof.
  intros Hact. cbv zeta. unfold run_action. rewrite Hact.
  cbn [String.eqb Ascii.eqb Bool.eqb]. cbv zeta.
  unfold email_throttle, setattr, emit, now. mrun.
  destruct (Z.leb (smtp_max_count (self w)) (email_count (self w))) eqn:Hle.
  - mrun. destruct (Qltb (clock w) (smtp_wait_time (self w))) eqn:Hlt.
    + mrun. simpl. eexists. split; [reflexivity|]. simpl. split.
      * intros _. repeat split; reflexivity.
      * intros Hn. exfalso. apply Hn. split.
        -- now apply Z.leb_le.
        -- now apply Qltb_true.
    + mrun. simpl.
      destruct (Qgtb (clock w) (smtp_wait_time (self w))) eqn:Hgt.
      * mrun. simpl. eexists. split; [reflexivity|]. simpl. split.
        -- intros [_ H]. apply Qltb_false in Hlt. lra.
        -- intros _. split; [reflexivity|]. split.
           ++ intros _. split; reflexivity.
           ++ intros H. apply Qgtb_true in Hgt. lra.
      * mrun. simpl. eexists. split; [reflexivity|]. simpl. split.
        -- intros [_ H]. apply Qltb_false in Hlt. lra.
        -- intros _. split; [reflexivity|]. split.
           ++ intros H. apply Qgtb_false in Hgt. lra.
           ++ intros _. split; reflexivity.
  - mrun. simpl.
    destruct (Qgtb (clock w) (smtp_wait_time (self w))) eqn:Hgt.
    + mrun. simpl. eexists. split; [reflexivity|]. simpl. split.
      * intros [H _]. apply Z.leb_gt in Hle. lia.
      * intros _. split; [reflexivity|]. split.
        -- intros _. split; reflexivity.
        -- intros H. apply Qgtb_true in Hgt. lra.
    + mrun. simpl. eexists. split; [reflexivity|]. simpl. split.
      * intros [H _]. apply Z.leb_gt in Hle. lia.
      * intros _. split; [reflexivity|]. split.
        -- intros H. apply Qgtb_false in Hgt. lra.
        -- intros _. split; reflexivity.
Qed.

Lemma email_action_throttle_witness :
  let w := set_clock 3700 EmailScenario.turned_on in
  let act := EmailScenario.email_action 1 in
  let rec := λ i s d, output_on_off EmailScenario.db 8 i s d 0%Q 0%Q true in
  ConditionalActions.do_action act = "email"
  ∧ ∃ w',
      run_action rec 1 "on" 0 0 EmailScenario.rule act w = (Ok tt, w')
      ∧ ((smtp_max_count (self w) ≤ email_count (self w))%Z
         ∧ (clock w < smtp_wait_time (self w))%Q →
         trace w' = (trace w ++ [logger_info 1 1])%list
         ∧ email_count (self w') = email_count (self w) + 1
         ∧ smtp_wait_time (self w') = smtp_wait_time (self w))
      ∧ (¬ ((smtp_max_count (self w) ≤ email_count (self w))%Z
            ∧ (clock w < smtp_wait_time (self w))%Q) →
         trace w'
         = ((trace w ++ [send_email "admin@example.org" 1])
            ++ [logger_info 1 1])%list
         ∧ ((smtp_wait_time (self w) < clock w)%Q →
            email_count (self w') = 1
            ∧ smtp_wait_time (self w') = (clock w + 3600)%Q)
         ∧ ((clock w <= smtp_wait_time (self w))%Q →
            email_count (self w') = email_count (self w) + 1
            ∧ smtp_wait_time (self w') = smtp_wait_time (self w))).
Proof.
  cbv zeta. split; [reflexivity |].
  exact (email_action_throttle
           (λ i s d, output_on_off EmailScenario.db 8 i s d 0%Q 0%Q true)
           1 "on" 0%Q 0%Q EmailScenario.rule (EmailScenario.email_action 1)
           (set_clock 3700 EmailScenario.turned_on) eq_refl).
Defined.

(** * PWM duty cycles *)







(** * Return values *)

(** C7, the code at the failing inputs: a turn-on that switches the output,
    a turn-off that switches it back and a PWM duty-cycle request all
    complete, and each returns [None]; only the in-place update of an
    interval that is already timed returns 0. *)
Theorem successful_requests_return_None :
  let db := BudgetScenario.db "command" "wired" in
  let w0 := BudgetScenario.started "command" "wired" in
  let on1 := output_on_off db 8 1 "on" 0 0 0 true w0 in
  let off1 := output_on_off db 8 1 "off" 0 0 0 true on1.2 in
  let timed2 := output_on_off db 8 2 "on" 30 0 0 true w0 in
  let again :=
    output_on_off (ExpiryScenario.db "wired" (Some 17)) 8 1 "on" 45 0 0 true
      (ExpiryScenario.timed_on "wired" (Some 17)) in
  let pwm :=
    output_on_off PwmScenario.db 8 2 "on" 0 0 50 true PwmScenario.started in
  (on1.1 = Ok None ∧ observed_on on1.2 1 = true)
  ∧ (off1.1 = Ok None ∧ observed_on off1.2 1 = false)
  ∧ (timed2.1 = Ok None ∧ observed_on timed2.2 2 = true)
  ∧ again.1 = Ok (Some 0)
  ∧ (pwm.1 = Ok None
     ∧ calls_of (output_on_off PwmScenario.db 8 2 "on" 0 0 50 true)
         PwmScenario.started
       = [set_PWM_frequency_call (Some 23) 22000;
          set_PWM_dutycycle_call (Some 23) 127;
          write_influxdb_value "pwm" "duty_cycle" 50 None]).
Proof. vm_compute. repeat split. Qed.

(** * Conditional rules *)


(** * Expiration of timed intervals *)

(** C3, the code at the failing inputs.  A wired output on pin 17 is turned
    on for 10 s at time 0; the loop iteration at time 11 turns it off and
    writes two [duration_sec] samples of value 10, one from the loop and one
    from the off path.  At time exactly 10 nothing expires.  A command
    output, which has no pin, is never expired by the loop. *)
Theorem expiry_writes_two_samples :
  ExpiryScenario.samples_at "wired" (Some 17) 11 = [10%Q; 10%Q]
  ∧ observed_on (ExpiryScenario.timed_on "wired" (Some 17)) 1 = true
  ∧ observed_on (ExpiryScenario.after_iteration "wired" (Some 17) 11) 1
    = false
  ∧ ExpiryScenario.samples_at "wired" (Some 17) 10 = []
  ∧ observed_on (ExpiryScenario.after_iteration "wired" (Some 17) 10) 1
    = true
  ∧ calls_of (run_iteration (ExpiryScenario.db "command" None) 8)
      (set_clock 1000 (ExpiryScenario.timed_on "command" None)) = []
  ∧ output_on_duration
      (self (ExpiryScenario.after_iteration "command" None 1000)) !! 1
    = Some true.
Proof. vm_compute. repeat split. Qed.

(** * What [is_on] depends on *)

Lemma is_on_run k w :
  is_on k w
  = (is_on_pure (output_type (self w) !! k) (output_pin (self w) !! k)
       (output_trigger (self w) !! k) (GPIO w)
       (output_time_turned_on (self w) !! k)
       (pwm_time_turned_on (self w) !! k), w).
Proof.
  unfold is_on, is_on_pure.
  destruct (output_type (self w) !! k) as [ty|] eqn:Hty;
    [| now rewrite (bind_Raise _ _ _ _ _ (getitem_None _ _ _ Hty))].
  mrun. destruct (String.eqb ty "wired") eqn:Hw.
  - apply String.eqb_eq in Hw. subst ty. unfold _is_setup. mrun.
    cbn [String.eqb Ascii.eqb Bool.eqb].
    destruct (output_pin (self w) !! k) as [pin|] eqn:Hpin.
    + mrun. destruct (truthy_pin pin) eqn:Hp.
      * mrun.
        destruct (output_trigger (self w) !! k) as [trig|] eqn:Htrig;
          [| now rewrite (bind_Raise _ _ _ _ _ (getitem_None _ _ _ Htrig))].
        mrun. destruct pin as [p|]; [| discriminate].
        unfold GPIO_input. now mrun.
      * cbn. now mrun.
    + rewrite bind_bind.
      now rewrite (bind_Raise _ _ _ _ _ (getitem_None _ _ _ Hpin)).
  - mrun. unfold is_on_tail.
    destruct (str_in ty _).
    + destruct (output_time_turned_on (self w) !! k) eqn:Ht;
        [now mrun
        | now rewrite (bind_Raise _ _ _ _ _ (getitem_None _ _ _ Ht))].
    + destruct (String.eqb ty "pwm"); [| now mrun].
      destruct (pwm_time_turned_on (self w) !! k) eqn:Ht;
        [now mrun
        | now rewrite (bind_Raise _ _ _ _ _ (getitem_None _ _ _ Ht))].
Qed.

Lemma observed_on_pure w k :
  observed_on w k
  = match is_on_pure (output_type (self w) !! k) (output_pin (self w) !! k)
            (output_trigger (self w) !! k) (GPIO w)
            (output_time_turned_on (self w) !! k)
            (pwm_time_turned_on (self w) !! k)
    with Ok true => true | _ => false end.
Proof. unfold observed_on. now rewrite is_on_run. Qed.

(** * Turning an untimed interval into a timed one *)

Lemma entryb_more c k :
  entryb c k = true →
  ∃ uid on_c off_c hz lib,
    output_unique_id c !! k = Some uid
    ∧ output_on_command c !! k = Some on_c
    ∧ output_off_command c !! k = Some off_c
    ∧ pwm_hertz c !! k = Some hz ∧ pwm_library c !! k = Some lib
    ∧ handle_ok c k = true.
Proof.
  unfold entryb. intros H. split_andb.
  repeat match goal with
         | H : has_key _ _ = true |- _ =>
             apply has_key_is_Some in H; destruct H
         end.
  eauto 20.
Qed.

Lemma current_kinds_cases ty :
  str_in ty current_kinds = true →
  ty = "command" ∨ ty = "wired" ∨ ty = "wireless_433MHz_pi_switch".
Proof.
  unfold str_in, current_kinds. cbn [existsb]. intros H.
  repeat (apply orb_prop in H as [H|H]);
    try (apply String.eqb_eq in H; auto).
  discriminate.
Qed.

(** [output_switch(output_id, 'on')] on a registered current-drawing output
    with a valid pin: it cannot raise, it leaves the controller and the clock
    as they are, and only a wired output's own latch is driven. *)
Lemma output_switch_on_current k w ty pin trig :
  entryb (self w) k = true →
  output_type (self w) !! k = Some ty →
  str_in ty current_kinds = true →
  output_pin (self w) !! k = Some pin →
  str_in ty pin_kinds && is_None pin = false →
  output_trigger (self w) !! k = Some trig →
  ∃ w',
    output_switch k "on" None w = (Ok tt, w')
    ∧ self w' = self w ∧ clock w' = clock w
    ∧ GPIO w'
      = (if String.eqb ty "wired"
         then match pin with
              | Some p => <[p:=trig]> (GPIO w)
              | None => GPIO w
              end
         else GPIO w).
Proof.
  intros He Hty Hkind Hpin Hvalid Htrig.
  destruct (entryb_more _ _ He)
    as (uid & on_c & off_c & hz & lib & Huid & Hon & Hoff & _ & _ & Hh).
  unfold output_switch. mrun.
  destruct (current_kinds_cases _ Hkind) as [-> | [-> | ->]];
    cbn [String.eqb Ascii.eqb Bool.eqb]; mrun.
  - destruct (truthy_str on_c); unfold emit; mrun.
    + eexists. split; [reflexivity |]. now cbn.
    + eexists. split; [reflexivity |]. now cbn.
  - destruct pin as [p|]; [| discriminate Hvalid].
    unfold GPIO_output, emit. mrun.
    eexists. split; [reflexivity |]. now cbn.
  - destruct pin as [p|]; [| discriminate Hvalid].
    unfold handle_ok in Hh. rewrite Hty, Hpin in Hh.
    cbn [String.eqb Ascii.eqb Bool.eqb] in Hh.
    apply andb_prop in Hh as [Hh _].
    apply has_key_is_Some in Hh as [sw Hsw].
    unfold emit. mrun.
    eexists. split; [reflexivity |]. now cbn.
Qed.

Lemma has_key_insert_same {V} (m : gmap Z V) k v :
  has_key (<[k:=v]> m) k = true.
Proof. unfold has_key. now rewrite lookup_insert_eq. Qed.




(** * The budget invariant: how a step may change the world *)

Lemma pins_distinct_static w w' :
  static w' = static w → pins_distinct w → pins_distinct w'.
Proof.
  unfold static, pins_distinct. intros Hs H. injection Hs as -> -> _ _.
  exact H.
Qed.

#[global] Instance same_view_preorder : PreOrder same_view.
Proof.
  split.
  - intros w. now repeat split.
  - intros w1 w2 w3 (Hs & Hg & Ht) (Hs' & Hg' & Ht'). repeat split; congruence.
Qed.

#[global] Instance quiet_preorder : PreOrder quiet.
Proof.
  split.
  - intros w. split; [reflexivity | auto].
  - intros w1 w2 w3 [Hs H] [Hs' H']. split; [congruence |].
    intros Hd j Hj. apply H; [assumption |]. apply H'; [| assumption].
    now apply (pins_distinct_static w1).
Qed.

#[global] Instance grow_preorder k : PreOrder (grow k).
Proof.
  split.
  - intros w. split; [reflexivity | auto].
  - intros w1 w2 w3 [Hs H] [Hs' H']. split; [congruence |].
    intros Hd j Hne Hj. apply H; [assumption | assumption |].
    apply H'; [| assumption | assumption].
    now apply (pins_distinct_static w1).
Qed.

Lemma quiet_grow k w w' : quiet w w' → grow k w w'.
Proof. intros [Hs H]. split; [assumption |]. intros Hd j _. now apply H. Qed.

Section Steps.
Context (R : World → World → Prop) `{!PreOrder R}.

Lemma steps_readonly {A} (m : M A) : readonly m → steps R m.
Proof. intros H w. rewrite (H w). reflexivity. Qed.

Lemma steps_bind {A B} (m : M A) (f : A → M B) :
  steps R m → (∀ a, steps R (f a)) → steps R (bind m f).
Proof.
  intros Hm Hf w. unfold bind. specialize (Hm w).
  destruct (m w) as [[a|e] w1]; simpl in *; [| assumption].
  etransitivity; [exact Hm | apply Hf].
Qed.

Lemma steps_if {A} (b : bool) (m1 m2 : M A) :
  steps R m1 → steps R m2 → steps R (if b then m1 else m2).
Proof. now destruct b. Qed.

Lemma steps_Thread_start {A} (m : M A) : steps R m → steps R (Thread_start m).
Proof. intros H w. apply H. Qed.

Lemma steps_try_except (m : M unit) : steps R m → steps R (try_except m).
Proof. intros H w. apply H. Qed.

Lemma steps_for_each {A} (l : list A) (f : A → M unit) :
  (∀ x, steps R (f x)) → steps R (for_each l f).
Proof.
  intros Hf. induction l as [|x l IH]; simpl.
  - intros w. reflexivity.
  - apply steps_bind; [apply Hf | intros _; exact IH].
Qed.

End Steps.

Lemma steps_weaken (R R' : World → World → Prop) {A} (m : M A) :
  (∀ w w', R w w' → R' w w') → steps R m → steps R' m.
Proof. intros H Hm w. apply H, Hm. Qed.

Lemma preserves_bind (P : World → Prop) {A B} (m : M A) (f : A → M B) :
  preserves P m → (∀ a, preserves P (f a)) → preserves P (bind m f).
Proof.
  intros Hm Hf w Hw. unfold bind. specialize (Hm w Hw).
  destruct (m w) as [[a|e] w1]; simpl in *; [| assumption].
  now apply Hf.
Qed.

Lemma preserves_if (P : World → Prop) {A} (b : bool) (m1 m2 : M A) :
  preserves P m1 → preserves P m2 → preserves P (if b then m1 else m2).
Proof. now destruct b. Qed.

Lemma preserves_readonly (P : World → Prop) {A} (m : M A) :
  readonly m → preserves P m.
Proof. intros H w Hw. now rewrite (H w). Qed.

Lemma preserves_for_each (P : World → Prop) {A} (l : list A)
    (f : A → M unit) :
  (∀ x, preserves P (f x)) → preserves P (for_each l f).
Proof.
  intros Hf. induction l as [|x l IH]; simpl.
  - now intros w.
  - apply preserves_bind; [apply Hf | intros _; exact IH].
Qed.

Lemma preserves_Thread_start (P : World → Prop) {A} (m : M A) :
  preserves P m → preserves P (Thread_start m).
Proof. intros H w. apply H. Qed.

(** ** When an output counts against the budget *)

#[local] Arguments str_in : simpl never.

Lemma str_in_current_kinds ty :
  str_in ty current_kinds
  = String.eqb ty "wired"
    || str_in ty ["command"; "wireless_433MHz_pi_switch"].
Proof.
  unfold str_in, current_kinds. cbn [existsb].
  destruct (String.eqb ty "command"), (String.eqb ty "wired"),
    (String.eqb ty "wireless_433MHz_pi_switch"); reflexivity.
Qed.

Lemma drawn_iff w j :
  drawn w j = true ↔
  (∃ p trig,
     output_type (self w) !! j = Some "wired"
     ∧ output_pin (self w) !! j = Some (Some p) ∧ p ≠ 0
     ∧ output_trigger (self w) !! j = Some trig
     ∧ default false (GPIO w !! p) = trig)
  ∨ (∃ ty t,
       output_type (self w) !! j = Some ty
       ∧ str_in ty ["command"; "wireless_433MHz_pi_switch"] = true
       ∧ output_time_turned_on (self w) !! j = Some (Some t)).
Proof.
  unfold drawn, is_current_kind. rewrite observed_on_pure.
  destruct (output_type (self w) !! j) as [ty|] eqn:Hty.
  2:{ cbn. split; [discriminate |].
      intros [(p & trig & H & _) | (ty & t & H & _)]; discriminate. }
  rewrite str_in_current_kinds. unfold is_on_pure.
  destruct (String.eqb ty "wired") eqn:Hw.
  - apply String.eqb_eq in Hw. subst ty. cbn.
    destruct (output_pin (self w) !! j) as [[p|]|] eqn:Hpin; cbn.
    + unfold truthy_int. destruct (Z.eqb_spec p 0) as [-> | Hp]; cbn.
      * split; [discriminate |].
        intros [(p & trig & _ & Hp & Hne & _) | (ty & t & Ht & Hin & _)].
        -- congruence.
        -- injection Ht as <-. discriminate.
      * destruct (output_trigger (self w) !! j) as [trig|] eqn:Htrig.
        -- rewrite andb_true_r. split.
           ++ intros H. left. exists p, trig. repeat split; try assumption.
              destruct (Bool.eqb trig (default false (GPIO w !! p))) eqn:E;
                [| discriminate].
              symmetry. now apply Bool.eqb_prop.
           ++ intros [(p' & trig' & _ & Hp' & _ & Ht' & Hg)
                     | (ty & t & Ht & Hin & _)].
              ** injection Hp' as <-. injection Ht' as <-. rewrite Hg.
                 now rewrite Bool.eqb_reflx.
              ** injection Ht as <-. discriminate.
        -- split; [discriminate |].
           intros [(p' & trig' & _ & _ & _ & Ht' & _)
                  | (ty & t & Ht & Hin & _)]; [discriminate |].
           injection Ht as <-. discriminate.
    + split; [discriminate |].
      intros [(p & trig & _ & Hp & _) | (ty & t & Ht & Hin & _)];
        [discriminate |].
      injection Ht as <-. discriminate.
    + split; [discriminate |].
      intros [(p & trig & _ & Hp & _) | (ty & t & Ht & Hin & _)];
        [discriminate |].
      injection Ht as <-. discriminate.
  - cbn. unfold is_on_tail.
    destruct (str_in ty ["command"; "wireless_433MHz_pi_switch"]) eqn:Hin.
    + destruct (output_time_turned_on (self w) !! j) as [[t|]|] eqn:Ht; cbn.
      * split; [| reflexivity]. intros _. right. now exists ty, t.
      * split; [discriminate |].
        intros [(p & trig & Hty' & _) | (ty' & t & _ & _ & Ht')];
          [| discriminate].
        injection Hty' as ->. discriminate.
      * split; [discriminate |].
        intros [(p & trig & Hty' & _) | (ty' & t & _ & _ & Ht')];
          [| discriminate].
        injection Hty' as ->. discriminate.
    + split.
      * destruct (String.eqb ty "pwm");
          [destruct (pwm_time_turned_on (self w) !! j) as [[?|]|] |];
          cbn; rewrite ?andb_false_r; discriminate.
      * intros [(p & trig & Hty' & _) | (ty' & t & Hty' & Hin' & _)].
        -- injection Hty' as ->. discriminate.
        -- injection Hty' as <-. congruence.
Qed.

Lemma static_lookups w w' :
  static w' = static w →
  output_type (self w') = output_type (self w)
  ∧ output_pin (self w') = output_pin (self w)
  ∧ output_trigger (self w') = output_trigger (self w)
  ∧ output_amps (self w') = output_amps (self w).
Proof. unfold static. intros H. now injection H. Qed.

Lemma same_view_drawn w w' j :
  same_view w w' → drawn w' j = true → drawn w j = true.
Proof.
  intros (Hs & Hg & Ht). apply static_lookups in Hs as (H1 & H2 & H3 & H4).
  rewrite !drawn_iff, H1, H2, H3, Hg, Ht. auto.
Qed.

Lemma same_view_quiet w w' : same_view w w' → quiet w w'.
Proof.
  intros H. split; [apply H |]. intros _ j. now apply same_view_drawn.
Qed.

(** Changing the turn-on time of [k] changes what counts at [k] only. *)
Lemma time_turned_on_grow k v w w' :
  static w' = static w → GPIO w' = GPIO w →
  output_time_turned_on (self w')
  = <[k:=v]> (output_time_turned_on (self w)) →
  grow k w w'.
Proof.
  intros Hs Hg Ht. split; [assumption |]. intros _ j Hne.
  apply static_lookups in Hs as (H1 & H2 & H3 & H4).
  rewrite !drawn_iff, H1, H2, H3, Hg, Ht.
  now rewrite lookup_insert_ne by congruence.
Qed.

Lemma time_turned_on_None_quiet k w w' :
  static w' = static w → GPIO w' = GPIO w →
  output_time_turned_on (self w')
  = <[k:=None]> (output_time_turned_on (self w)) →
  quiet w w'.
Proof.
  intros Hs Hg Ht. split; [assumption |]. intros _ j.
  apply static_lookups in Hs as (H1 & H2 & H3 & H4).
  rewrite !drawn_iff, H1, H2, H3, Hg, Ht.
  intros [H | (ty & t & Hty & Hin & Hton)]; [now left |].
  right. exists ty, t. repeat split; try assumption.
  destruct (decide (k = j)) as [-> | Hne].
  - rewrite lookup_insert_eq in Hton. discriminate.
  - now rewrite lookup_insert_ne in Hton.
Qed.

(** Driving the pin of the wired output [k] changes what counts at [k]
    only, and driving it away from the trigger level makes nothing count
    that did not before. *)
Lemma drive_pin_grow k p level w w' :
  output_type (self w) !! k = Some "wired" →
  output_pin (self w) !! k = Some (Some p) →
  static w' = static w → GPIO w' = <[p:=level]> (GPIO w) →
  output_time_turned_on (self w') = output_time_turned_on (self w) →
  grow k w w'.
Proof.
  intros Hty Hpin Hs Hg Ht. split; [assumption |]. intros Hd j Hne.
  apply static_lookups in Hs as (H1 & H2 & H3 & H4).
  rewrite !drawn_iff, H1, H2, H3, Hg, Ht.
  intros [(p' & trig & Hty' & Hpin' & Hp' & Htrig & Hlvl) | H]; [| now right].
  left. exists p', trig. repeat split; try assumption.
  destruct (decide (p = p')) as [-> | Hpp].
  - exfalso. apply Hne. symmetry. now apply (Hd k j p').
  - now rewrite lookup_insert_ne in Hlvl.
Qed.

Lemma drive_pin_off_quiet k p trig w w' :
  output_type (self w) !! k = Some "wired" →
  output_pin (self w) !! k = Some (Some p) →
  output_trigger (self w) !! k = Some trig →
  static w' = static w → GPIO w' = <[p:=negb trig]> (GPIO w) →
  output_time_turned_on (self w') = output_time_turned_on (self w) →
  quiet w w'.
Proof.
  intros Hty Hpin Htrig Hs Hg Ht.
  destruct (drive_pin_grow k p (negb trig) w w' Hty Hpin Hs Hg Ht) as [_ H].
  split; [assumption |]. intros Hd j Hj.
  destruct (decide (j = k)) as [-> | Hne]; [| now apply H].
  exfalso. apply static_lookups in Hs as (H1 & H2 & H3 & H4).
  rewrite drawn_iff, H1, H2, H3, Hg, Ht in Hj.
  destruct Hj as [(p' & trig' & _ & Hpin' & _ & Htrig' & Hlvl)
                 | (ty & t & Hty' & Hin & _)].
  - rewrite Hpin in Hpin'. injection Hpin' as <-.
    rewrite Htrig in Htrig'. injection Htrig' as <-.
    rewrite lookup_insert_eq in Hlvl. cbn in Hlvl. now destruct trig.
  - rewrite Hty in Hty'. injection Hty' as <-. discriminate.
Qed.

(** ** Sums of rated draws *)

Lemma sum_where_nonneg p items :
  (∀ k a, (k, a) ∈ items → (0 <= a)%Q) → (0 <= sum_where p items)%Q.
Proof.
  induction items as [|[k a] items IH]; intros Hpos; simpl.
  - lra.
  - assert (0 <= a)%Q by (apply (Hpos k); left).
    assert (0 <= sum_where p items)%Q
      by (apply IH; intros k' a' Hin; apply (Hpos k'); now right).
    destruct (p k); lra.
Qed.

Lemma sum_where_mono p p' items :
  (∀ k a, (k, a) ∈ items → (0 <= a)%Q) →
  (∀ k a, (k, a) ∈ items → p' k = true → p k = true) →
  (sum_where p' items <= sum_where p items)%Q.
Proof.
  induction items as [|[k a] items IH]; intros Hpos Hsub; simpl.
  - lra.
  - assert (0 <= a)%Q by (apply (Hpos k); left).
    assert (sum_where p' items <= sum_where p items)%Q.
    { apply IH; intros k' a' Hin; [apply (Hpos k') | apply (Hsub k' a')];
        now right. }
    destruct (p' k) eqn:Hp'.
    + rewrite (Hsub k a); [lra | left | assumption].
    + destruct (p k); lra.
Qed.

(** If only [k] may start to count, the sum grows by at most the draw of
    [k]. *)
Lemma sum_where_grow p p' k a items :
  NoDup items.*1 →
  (k, a) ∈ items →
  (∀ j b, (j, b) ∈ items → (0 <= b)%Q) →
  (∀ j, j ≠ k → p' j = true → p j = true) →
  (sum_where p' items <= sum_where p items + a)%Q.
Proof.
  induction items as [|[j b] items IH]; intros Hnd Hin Hpos Hsub.
  - inversion Hin.
  - simpl in *. apply NoDup_cons in Hnd as [Hj Hnd].
    assert (Hb : (0 <= b)%Q) by (apply (Hpos j); left).
    assert (Hpos' : ∀ j' b', (j', b') ∈ items → (0 <= b')%Q)
      by (intros j' b' H; apply (Hpos j'); now right).
    destruct (decide (j = k)) as [-> | Hne].
    + assert (b = a) as ->.
      { apply elem_of_cons in Hin as [Heq | Hin]; [congruence |].
        exfalso. apply Hj. apply list_elem_of_fmap. now exists (k, a). }
      assert (sum_where p' items <= sum_where p items)%Q.
      { apply sum_where_mono; [assumption |]. intros j' b' Hin' Hp'.
        apply Hsub; [| assumption]. intros ->. apply Hj.
        apply list_elem_of_fmap. now exists (k, b'). }
      destruct (p' k), (p k); lra.
    + apply elem_of_cons in Hin as [Heq | Hin]; [congruence |].
      specialize (IH Hnd Hin Hpos' Hsub).
      destruct (p' j) eqn:Hp'.
      * rewrite (Hsub j Hne Hp'). lra.
      * destruct (p j); lra.
Qed.

Lemma sum_where_none p items :
  (∀ k a, (k, a) ∈ items → p k = false) → (sum_where p items == 0)%Q.
Proof.
  induction items as [|[k a] items IH]; intros Hp; simpl.
  - reflexivity.
  - rewrite (Hp k a) by left.
    assert (sum_where p items == 0)%Q; [| lra].
    apply IH. intros k' a' Hin. apply (Hp k' a'). now right.
Qed.

Lemma sum_on_sum_where w items acc :
  (sum_on w items acc == acc + sum_where (observed_on w) items)%Q.
Proof.
  revert acc. induction items as [|[k a] items IH]; intros acc; simpl.
  - lra.
  - rewrite IH. destruct (observed_on w k); lra.
Qed.

(** The load that the budget check computes is at least the drawn load. *)
Lemma drawn_load_le_amp_load w :
  amps_nonneg w → (drawn_load w <= amp_load w)%Q.
Proof.
  intros Hpos. unfold drawn_load, amp_load. rewrite sum_on_sum_where.
  assert (sum_where (drawn w) (map_to_list (output_amps (self w)))
          <= sum_where (observed_on w) (map_to_list (output_amps (self w))))%Q.
  { apply sum_where_mono.
    - intros k a Hin. apply (Hpos k). now apply elem_of_map_to_list.
    - intros k a _. unfold drawn. intros H. now apply andb_prop in H as [H _]. }
  lra.
Qed.

(** When [current_amp_load] returns, it returns [amp_load]. *)
Lemma amp_load_loop_value items acc w v w' :
  amp_load_loop items acc w = (Ok v, w') → v = sum_on w items acc.
Proof.
  revert acc. induction items as [|[k a] items IH]; intros acc; simpl.
  - unfold ret. intros H. now inversion H.
  - intros H. apply bind_inv in H as [(on & w1 & Hon & H) | (e & _ & He)];
      [| discriminate].
    pose proof (readonly_is_on k w) as Hro. rewrite Hon in Hro.
    simpl in Hro. subst w1. apply IH in H. subst v.
    unfold observed_on. rewrite Hon. simpl. now destruct on.
Qed.

Lemma current_amp_load_value w v w' :
  current_amp_load w = (Ok v, w') → v = amp_load w.
Proof.
  unfold current_amp_load. rewrite bind_gets. apply amp_load_loop_value.
Qed.

(** Keeping the invariant. *)
Lemma static_drawn_load_items w w' :
  static w' = static w →
  map_to_list (output_amps (self w')) = map_to_list (output_amps (self w)).
Proof. intros Hs. apply static_lookups in Hs as (_ & _ & _ & ->). done. Qed.

Lemma amps_nonneg_static w w' :
  static w' = static w → amps_nonneg w → amps_nonneg w'.
Proof.
  intros Hs H. apply static_lookups in Hs as (_ & _ & _ & Ha).
  unfold amps_nonneg. now rewrite Ha.
Qed.

Lemma quiet_budget_inv db w w' :
  quiet w w' → budget_inv db w → budget_inv db w'.
Proof.
  intros [Hs Hq] (Hpos & Hd & Hload).
  split; [now apply (amps_nonneg_static w) |].
  split; [now apply (pins_distinct_static w) |].
  assert (drawn_load w' <= drawn_load w)%Q; [| lra].
  unfold drawn_load. rewrite (static_drawn_load_items w w' Hs).
  apply sum_where_mono.
  - intros k a Hin. apply (Hpos k). now apply elem_of_map_to_list.
  - intros k a _. now apply Hq.
Qed.

Lemma grow_budget_inv db k a w w' :
  grow k w w' →
  output_amps (self w) !! k = Some a →
  (drawn_load w + a <= db_Misc_max_amps db)%Q →
  budget_inv db w → budget_inv db w'.
Proof.
  intros [Hs Hg] Ha Hroom (Hpos & Hd & Hload).
  split; [now apply (amps_nonneg_static w) |].
  split; [now apply (pins_distinct_static w) |].
  assert (drawn_load w' <= drawn_load w + a)%Q; [| lra].
  unfold drawn_load. rewrite (static_drawn_load_items w w' Hs).
  apply (sum_where_grow _ _ k).
  - apply NoDup_fst_map_to_list.
  - now apply elem_of_map_to_list.
  - intros j b Hin. apply (Hpos j). now apply elem_of_map_to_list.
  - now apply Hg.
Qed.

(** ** The steps of the controller's code *)

Create HintDb steps.

Lemma steps_same_view_readonly {A} (m : M A) :
  readonly m → steps same_view m.
Proof. apply steps_readonly. apply same_view_preorder. Qed.

Lemma steps_emit e : steps same_view (emit e).
Proof. intros w. now repeat split. Qed.

Lemma steps_setitem_output_on_until k v :
  steps same_view (setitem output_on_until set_output_on_until k v).
Proof. intros w. now repeat split. Qed.

Lemma steps_setitem_output_last_duration k v :
  steps same_view (setitem output_last_duration set_output_last_duration k v).
Proof. intros w. now repeat split. Qed.

Lemma steps_setitem_output_on_duration k v :
  steps same_view (setitem output_on_duration set_output_on_duration k v).
Proof. intros w. now repeat split. Qed.

Lemma steps_setitem_pwm_state k v :
  steps same_view (setitem pwm_state set_pwm_state k v).
Proof. intros w. now repeat split. Qed.

Lemma steps_setitem_pwm_time_turned_on k v :
  steps same_view (setitem pwm_time_turned_on set_pwm_time_turned_on k v).
Proof. intros w. now repeat split. Qed.

Lemma steps_setitem_wireless_pi_switch k v :
  steps same_view (setitem wireless_pi_switch set_wireless_pi_switch k v).
Proof. intros w. now repeat split. Qed.

Lemma steps_setitem_pwm_output k v :
  steps same_view (setitem pwm_output set_pwm_output k v).
Proof. intros w. now repeat split. Qed.

Lemma steps_setattr_email_count v :
  steps same_view (setattr set_email_count v).
Proof. intros w. now repeat split. Qed.

Lemma steps_setattr_smtp_wait_time v :
  steps same_view (setattr set_smtp_wait_time v).
Proof. intros w. now repeat split. Qed.

Lemma steps_setattr_smtp_max_count v :
  steps same_view (setattr set_smtp_max_count v).
Proof. intros w. now repeat split. Qed.

Lemma steps_setattr_allowed_to_send_notice v :
  steps same_view (setattr set_allowed_to_send_notice v).
Proof. intros w. now repeat split. Qed.

Lemma readonly_py_abs x : readonly (py_abs x).
Proof. destruct x; [apply readonly_ret | apply readonly_raise]. Qed.

Lemma readonly_datetime_sub t x : readonly (datetime_sub t x).
Proof. destruct x; [apply readonly_ret | apply readonly_raise]. Qed.

Lemma readonly_now : readonly now.
Proof. apply readonly_gets. Qed.

Lemma readonly_output_exists k : readonly (output_exists k).
Proof. apply readonly_gets. Qed.

Lemma readonly_registered_ids : readonly registered_ids.
Proof. apply readonly_gets. Qed.

#[local] Hint Resolve readonly_ret readonly_raise readonly_gets
  readonly_getitem readonly_GPIO_input readonly__is_setup readonly_is_on
  readonly_current_amp_load readonly_invalid_pin
  readonly_exceeds_budget_or_min_off readonly_py_abs readonly_datetime_sub
  readonly_now readonly_output_exists readonly_registered_ids : readonly.

#[local] Hint Resolve steps_emit steps_setitem_output_on_until
  steps_setitem_output_last_duration steps_setitem_output_on_duration
  steps_setitem_pwm_state steps_setitem_pwm_time_turned_on
  steps_setitem_wireless_pi_switch steps_setitem_pwm_output
  steps_setattr_email_count steps_setattr_smtp_wait_time
  steps_setattr_smtp_max_count steps_setattr_allowed_to_send_notice : steps.

#[local] Hint Extern 1 (steps same_view _) =>
  apply steps_same_view_readonly; solve [auto with readonly] : steps.

Ltac steps_tac :=
  repeat first
    [ solve [auto with steps]
    | progress cbv zeta
    | match goal with
      | |- steps _ (bind _ _) => apply steps_bind; [exact _ | | intros ?]
      | |- steps _ (Thread_start _) => apply steps_Thread_start
      | |- steps _ (try_except _) => apply steps_try_except
      | |- steps _ (if _ then _ else _) => apply steps_if
      | |- steps _ (match ?x with Some _ => _ | None => _ end) => destruct x
      end ].

(** The parts of [output_switch] for the kinds that have no GPIO latch. *)
Lemma steps_output_switch_not_wired k state duty_cycle ty :
  String.eqb ty "wired" = false →
  ∀ w, output_type (self w) !! k = Some ty →
       same_view w (output_switch k state duty_cycle w).2.
Proof.
  intros Hw w Hty. unfold output_switch. rewrite (bind_getitem _ _ _ _ _ Hty).
  rewrite Hw.
  match goal with
  | |- same_view w (?m w).2 => revert w Hty; cut (steps same_view m);
                                [intros H w _; apply H |]
  end.
  steps_tac.
Qed.

Lemma output_switch_grow k state duty_cycle :
  steps (grow k) (output_switch k state duty_cycle).
Proof.
  intros w. destruct (output_type (self w) !! k) as [ty|] eqn:Hty.
  2:{ unfold output_switch.
      rewrite (bind_Raise _ _ _ _ _ (getitem_None _ _ _ Hty)). reflexivity. }
  destruct (String.eqb ty "wired") eqn:Hw.
  2:{ apply quiet_grow, same_view_quiet.
      now apply steps_output_switch_not_wired with (ty := ty). }
  apply String.eqb_eq in Hw. subst ty.
  unfold output_switch. rewrite (bind_getitem _ _ _ _ _ Hty).
  cbn [String.eqb Ascii.eqb Bool.eqb].
  assert (Hdrive : ∀ f : bool → bool,
    grow k w
      (bind (getitem output_pin k)
         (λ pin, bind (getitem output_trigger k)
                   (λ trig, GPIO_output pin (f trig))) w).2).
  { intros f.
    destruct (output_pin (self w) !! k) as [pin|] eqn:Hpin;
      [| rewrite (bind_Raise _ _ _ _ _ (getitem_None _ _ _ Hpin));
         reflexivity].
    rewrite (bind_getitem _ _ _ _ _ Hpin).
    destruct (output_trigger (self w) !! k) as [trig|] eqn:Htrig;
      [| rewrite (bind_Raise _ _ _ _ _ (getitem_None _ _ _ Htrig));
         reflexivity].
    rewrite (bind_getitem _ _ _ _ _ Htrig).
    destruct pin as [p|]; [| reflexivity].
    now apply (drive_pin_grow k p (f trig)). }
  destruct (String.eqb state "on"); [apply (Hdrive (λ b, b)) |].
  destruct (String.eqb state "off"); [apply (Hdrive negb) | reflexivity].
Qed.

Lemma output_switch_off_quiet k duty_cycle :
  steps quiet (output_switch k "off" duty_cycle).
Proof.
  intros w. destruct (output_type (self w) !! k) as [ty|] eqn:Hty.
  2:{ unfold output_switch.
      rewrite (bind_Raise _ _ _ _ _ (getitem_None _ _ _ Hty)). reflexivity. }
  destruct (String.eqb ty "wired") eqn:Hw.
  2:{ apply same_view_quiet.
      now apply steps_output_switch_not_wired with (ty := ty). }
  apply String.eqb_eq in Hw. subst ty.
  unfold output_switch. rewrite (bind_getitem _ _ _ _ _ Hty).
  cbn [String.eqb Ascii.eqb Bool.eqb].
  destruct (output_pin (self w) !! k) as [pin|] eqn:Hpin;
    [| rewrite (bind_Raise _ _ _ _ _ (getitem_None _ _ _ Hpin)); reflexivity].
  rewrite (bind_getitem _ _ _ _ _ Hpin).
  destruct (output_trigger (self w) !! k) as [trig|] eqn:Htrig;
    [| rewrite (bind_Raise _ _ _ _ _ (getitem_None _ _ _ Htrig));
       reflexivity].
  rewrite (bind_getitem _ _ _ _ _ Htrig).
  destruct pin as [p|]; [| reflexivity].
  now apply (drive_pin_off_quiet k p trig).
Qed.

Lemma steps_setitem_time_turned_on_grow k v :
  steps (grow k)
    (setitem output_time_turned_on set_output_time_turned_on k v).
Proof. intros w. now apply (time_turned_on_grow k v). Qed.

Lemma steps_setitem_time_turned_on_None k :
  steps quiet
    (setitem output_time_turned_on set_output_time_turned_on k None).
Proof. intros w. now apply (time_turned_on_None_quiet k). Qed.

#[local] Hint Extern 3 (steps quiet _) =>
  apply (steps_weaken same_view quiet); [exact same_view_quiet |] : steps.
#[local] Hint Extern 3 (steps (grow _) _) =>
  apply (steps_weaken quiet); [intros ? ?; apply quiet_grow |] : steps.
#[local] Hint Resolve output_switch_grow output_switch_off_quiet
  steps_setitem_time_turned_on_grow steps_setitem_time_turned_on_None : steps.

Lemma turn_off_quiet k duration duty_cycle :
  steps quiet (turn_off k duration duty_cycle).
Proof. unfold turn_off. steps_tac. Qed.

Lemma switch_on_grow k duration duty_cycle :
  steps (grow k) (switch_on k duration duty_cycle).
Proof. unfold switch_on. steps_tac. Qed.

Lemma email_throttle_same_view : steps same_view email_throttle.
Proof. unfold email_throttle. steps_tac. Qed.

(** ** The budget check makes room for the output it lets through *)

Lemma bind_readonly_run {A B} (m : M A) (f : A → M B) w :
  readonly m →
  bind m f w = match (m w).1 with
               | Ok a => f a w
               | Raise e => (Raise e, w)
               end.
Proof.
  intros Hro. unfold bind. rewrite (readonly_run m w Hro). simpl.
  now destruct (m w).1.
Qed.

Lemma exceeds_budget_or_min_off_room db k min_off w :
  (exceeds_budget_or_min_off db k min_off w).1 = Ok false →
  is_current_kind w k = true →
  ∃ a, output_amps (self w) !! k = Some a
       ∧ (amp_load w + a <= db_Misc_max_amps db)%Q.
Proof.
  unfold is_current_kind, exceeds_budget_or_min_off.
  destruct (output_type (self w) !! k) as [ty|] eqn:Hty; [| discriminate].
  intros Hrun Hkind. rewrite (bind_getitem _ _ _ _ _ Hty), Hkind in Hrun.
  rewrite (bind_readonly_run _ _ _ readonly_current_amp_load) in Hrun.
  destruct (current_amp_load w) as [[load|e] w1] eqn:Hload;
    [| discriminate Hrun].
  apply current_amp_load_value in Hload. subst load. cbn [fst] in Hrun.
  cbv zeta in Hrun.
  destruct (output_amps (self w) !! k) as [a|] eqn:Ha.
  2:{ rewrite (bind_Raise _ _ _ _ _ (getitem_None _ _ _ Ha)) in Hrun.
      discriminate Hrun. }
  rewrite (bind_getitem _ _ _ _ _ Ha) in Hrun.
  exists a. split; [reflexivity |]. apply Qgtb_false.
  destruct (Qgtb (amp_load w + a) (db_Misc_max_amps db)); [| reflexivity].
  discriminate Hrun.
Qed.

Lemma grow_not_current k w w' :
  grow k w w' → is_current_kind w k = false → quiet w w'.
Proof.
  intros [Hs Hg] Hkind. split; [assumption |]. intros Hd j Hj.
  destruct (decide (j = k)) as [-> | Hne]; [| now apply Hg].
  exfalso. unfold drawn in Hj. apply andb_prop in Hj as [_ Hj].
  unfold is_current_kind in *.
  apply static_lookups in Hs as (Hty & _). rewrite Hty in Hj. congruence.
Qed.

Lemma turn_on_budget db k duration min_off duty_cycle w :
  let w' := (turn_on db k duration min_off duty_cycle w).2 in
  quiet w w'
  ∨ (grow k w w'
     ∧ ∃ a, output_amps (self w) !! k = Some a
            ∧ (amp_load w + a <= db_Misc_max_amps db)%Q).
Proof.
  cbv zeta. unfold turn_on.
  rewrite (bind_readonly_run _ _ _ (readonly_invalid_pin k)).
  destruct (invalid_pin k w).1 as [[|]|e]; try (left; reflexivity).
  rewrite (bind_readonly_run _ _ _
             (readonly_exceeds_budget_or_min_off db k min_off)).
  destruct (exceeds_budget_or_min_off db k min_off w).1 as [[|]|e] eqn:Hex;
    try (left; reflexivity).
  pose proof (switch_on_grow k duration duty_cycle w) as Hgrow.
  destruct (is_current_kind w k) eqn:Hkind.
  - right. split; [assumption |].
    now apply (exceeds_budget_or_min_off_room db k min_off).
  - left. now apply (grow_not_current k).
Qed.

(** ** Every request keeps the invariant *)

Lemma steps_quiet_preserves db {A} (m : M A) :
  steps quiet m → preserves (budget_inv db) m.
Proof. intros H w Hw. apply (quiet_budget_inv db w); [apply H | exact Hw]. Qed.

Lemma turn_on_preserves db k duration min_off duty_cycle :
  preserves (budget_inv db) (turn_on db k duration min_off duty_cycle).
Proof.
  intros w Hinv.
  destruct (turn_on_budget db k duration min_off duty_cycle w)
    as [Hq | (Hg & a & Ha & Hroom)].
  - now apply (quiet_budget_inv db w).
  - apply (grow_budget_inv db k a w); try assumption.
    pose proof (drawn_load_le_amp_load w (proj1 Hinv)). lra.
Qed.

Create HintDb preserves.

#[local] Hint Extern 1 (preserves _ _) =>
  apply preserves_readonly; solve [auto with readonly] : preserves.
#[local] Hint Extern 2 (preserves (budget_inv _) _) =>
  apply steps_quiet_preserves; solve [auto with steps] : preserves.
#[local] Hint Resolve turn_on_preserves : preserves.

Ltac preserves_tac :=
  repeat first
    [ solve [auto with preserves]
    | assumption
    | progress cbv zeta
    | match goal with
      | |- preserves _ (bind _ _) => apply preserves_bind; [| intros ?]
      | |- preserves _ (Thread_start _) => apply preserves_Thread_start
      | |- preserves _ (for_each _ _) => apply preserves_for_each; intros ?
      | |- preserves _ (if _ then _ else _) => apply preserves_if
      | |- preserves _ (match ?x with Some _ => _ | None => _ end) =>
          destruct x
      | H : ∀ _, _ |- preserves _ (?f _ _ _) => apply H
      end ].

Lemma run_action_preserves db rec k state on_duration duty_cycle cond act :
  (∀ i s d, preserves (budget_inv db) (rec i s d)) →
  preserves (budget_inv db)
    (run_action rec k state on_duration duty_cycle cond act).
Proof.
  intros Hrec. unfold run_action.
  pose proof email_throttle_same_view as Hemail.
  assert (preserves (budget_inv db) email_throttle)
    by (apply steps_quiet_preserves; auto with steps).
  preserves_tac.
Qed.

Lemma check_conditionals_preserves db rec k state on_duration duty_cycle :
  (∀ i s d, preserves (budget_inv db) (rec i s d)) →
  preserves (budget_inv db)
    (check_conditionals db rec k state on_duration duty_cycle).
Proof.
  intros Hrec. unfold check_conditionals.
  apply preserves_bind; [auto with preserves | intros on].
  apply preserves_for_each. intros cond.
  apply preserves_for_each. intros act.
  now apply run_action_preserves.
Qed.

Lemma output_on_off_body_preserves db check k state duration min_off
    duty_cycle trigger :
  (∀ i s d dc, preserves (budget_inv db) (check i s d dc)) →
  preserves (budget_inv db)
    (output_on_off_body db check k state duration min_off duty_cycle trigger).
Proof.
  intros Hcheck. unfold output_on_off_body.
  pose proof (turn_off_quiet k duration duty_cycle) as Hoff.
  apply preserves_bind; [auto with preserves | intros known].
  destruct (negb known); [auto with preserves |].
  apply preserves_bind.
  - destruct (String.eqb state "on"); [auto with preserves |].
    destruct (String.eqb state "off"); [| auto with preserves].
    now apply steps_quiet_preserves.
  - intros [v | d]; [auto with preserves |].
    apply preserves_bind; [| intros ?; auto with preserves].
    destruct trigger; [apply Hcheck | auto with preserves].
Qed.

Lemma output_on_off_preserves db fuel k state duration min_off duty_cycle
    trigger :
  preserves (budget_inv db)
    (output_on_off db fuel k state duration min_off duty_cycle trigger).
Proof.
  revert k state duration min_off duty_cycle trigger.
  induction fuel as [|fuel IH]; intros k state duration min_off duty_cycle
    trigger; simpl.
  - auto with preserves.
  - apply output_on_off_body_preserves. intros i s d dc.
    apply check_conditionals_preserves. intros i' s' d'. apply IH.
Qed.

Lemma run_iteration_preserves db fuel :
  preserves (budget_inv db) (run_iteration db fuel).
Proof.
  unfold run_iteration.
  pose proof (output_on_off_preserves db fuel) as Hreq.
  apply preserves_bind; [auto with preserves | intros t].
  apply preserves_bind; [auto with preserves | intros ids].
  apply preserves_for_each. intros k.
  apply preserves_bind; [auto with preserves | intros on_until].
  apply preserves_bind; [preserves_tac | intros expired].
  destruct expired; [| auto with preserves].
  apply preserves_bind; [apply preserves_Thread_start, Hreq | intros _].
  preserves_tac.
Qed.

Lemma set_clock_preserves db t w :
  budget_inv db w → budget_inv db (set_clock t w).
Proof.
  apply quiet_budget_inv, same_view_quiet. now repeat split.
Qed.

(** * The constructor establishes the invariant *)

Lemma initialize_output_registered o w :
  registered o w (initialize_output o w).2.
Proof.
  unfold initialize_output, now. rewrite bind_gets, bind_modify.
  set (w1 := set_self (store_output o (clock w) (self w)) w).
  assert (Hpin : output_pin (self w1) !! Output.id o = Some (Output.pin o))
    by apply lookup_insert_eq.
  assert (Hty : output_type (self w1) !! Output.id o
                = Some (Output.relay_type o)) by apply lookup_insert_eq.
  assert (Htrig : output_trigger (self w1) !! Output.id o
                  = Some (Output.trigger o)) by apply lookup_insert_eq.
  assert (Hreg1 : ∀ w2, same_view w1 w2 →
            String.eqb (Output.relay_type o) "wired" && is_not_None (Output.pin o)
            = false →
            registered o w w2).
  { intros w2 (Hs & Hg & Ht) Hnw.
    apply static_lookups in Hs as (H1 & H2 & H3 & H4).
    unfold registered. cbv zeta. rewrite H1, H2, H3, H4, Ht, Hg.
    repeat (split; [reflexivity |]).
    destruct (String.eqb (Output.relay_type o) "wired"); [| reflexivity].
    destruct (Output.pin o); [discriminate | reflexivity]. }
  rewrite (bind_getitem _ _ _ _ _ Hpin).
  destruct (Output.pin o) as [p|] eqn:Hp; cbn [is_not_None is_None negb].
  2:{ apply Hreg1; [reflexivity |]. apply andb_false_r. }
  unfold setup_pin. rewrite (bind_getitem _ _ _ _ _ Hty).
  destruct (String.eqb (Output.relay_type o) "wired") eqn:Hw.
  - unfold try_except. rewrite (bind_getitem _ _ _ _ _ Hpin).
    rewrite (bind_getitem _ _ _ _ _ Htrig).
    unfold registered. cbv zeta. rewrite Hw. subst w1.
    repeat (split; [reflexivity |]). rewrite Hp. reflexivity.
  - apply Hreg1; [| reflexivity].
    match goal with
    | |- same_view w1 (?m w1).2 => cut (steps same_view m);
                                    [intros H; apply H |]
    end.
    steps_tac.
Qed.

Lemma configured_empty rows t0 :
  configured rows (Build_World empty_controller ∅ t0 []).
Proof.
  split; [| split].
  - intros k a H. cbn in H. rewrite lookup_empty in H. discriminate.
  - intros k ty pin H. cbn in H. rewrite lookup_empty in H. discriminate.
  - intros k. apply not_true_is_false. rewrite drawn_iff. cbn.
    intros [(p & trig & H & _) | (ty & t & H & _)];
      rewrite lookup_empty in H; discriminate.
Qed.

Lemma configured_same_view rows w w' :
  same_view w w' → configured rows w → configured rows w'.
Proof.
  intros Hv (H1 & H2 & H3). pose proof Hv as (Hs & _ & _).
  apply static_lookups in Hs as (Hty & Hpin & _ & Ha).
  split; [| split].
  - now rewrite Ha.
  - now rewrite Hty, Hpin.
  - intros k. apply not_true_is_false. intros Hd.
    apply (same_view_drawn w w') in Hd; [| assumption]. now rewrite H3 in Hd.
Qed.

Lemma configured_registered db o w w' :
  db_ok db → o ∈ db_Output db →
  registered o w w' →
  configured (db_Output db) w → configured (db_Output db) w'.
Proof.
  intros (_ & _ & Hshare) Ho (Hty & Hpin & Htrig & Ha & Hton & Hg)
    (H1 & H2 & H3).
  split; [| split].
  - intros k a. rewrite Ha.
    destruct (decide (Output.id o = k)) as [<- | Hne].
    + rewrite lookup_insert_eq. intros [= <-]. now exists o.
    + rewrite lookup_insert_ne by assumption. apply H1.
  - intros k ty pin. rewrite Hty, Hpin.
    destruct (decide (Output.id o = k)) as [<- | Hne].
    + rewrite !lookup_insert_eq. intros [= <-] [= <-]. now exists o.
    + rewrite !lookup_insert_ne by assumption. apply H2.
  - intros k. apply not_true_is_false. rewrite drawn_iff.
    rewrite Hty, Hpin, Htrig, Hton, Hg.
    destruct (decide (Output.id o = k)) as [<- | Hne].
    + rewrite !lookup_insert_eq.
      intros [(p & trig & [= Hw] & [= Hp] & Hp0 & [= Ht] & Hlvl)
             | (ty & t & _ & _ & [=])].
      rewrite Hw, Hp in Hlvl. cbn in Hlvl.
      rewrite lookup_insert_eq in Hlvl. cbn in Hlvl.
      rewrite Ht in Hlvl. now destruct trig.
    + rewrite !lookup_insert_ne by assumption. intros Hd.
      assert (Hold : drawn w k = true); [| now rewrite H3 in Hold].
      apply drawn_iff.
      destruct Hd as [(p & trig & Hw & Hp & Hp0 & Ht & Hlvl) | Hd];
        [| now right].
      left. exists p, trig. repeat split; try assumption.
      destruct (String.eqb (Output.relay_type o) "wired") eqn:Hwo;
        [| assumption].
      destruct (Output.pin o) as [po|] eqn:Hpo; [| assumption].
      destruct (decide (po = p)) as [-> | Hpp];
        [| now rewrite lookup_insert_ne in Hlvl].
      exfalso. apply Hne.
      destruct (H2 k "wired" (Some p) Hw Hp) as (o' & Ho' & <- & Hw' & Hp').
      apply String.eqb_eq in Hwo.
      now apply (Hshare o o' p).
Qed.

Lemma all_outputs_initialize_configured db l w :
  db_ok db → (∀ o, o ∈ l → o ∈ db_Output db) →
  configured (db_Output db) w →
  configured (db_Output db) (all_outputs_initialize l w).2.
Proof.
  intros Hdb. unfold all_outputs_initialize.
  revert w. induction l as [|o l IH]; intros w Hl Hw; simpl.
  - exact Hw.
  - assert (Ho : configured (db_Output db) (initialize_output o w).2).
    { apply (configured_registered db o w); try assumption.
      - apply Hl. left.
      - apply initialize_output_registered. }
    unfold bind. destruct (initialize_output o w) as [[[]|e] w1];
      simpl in *; [| exact Ho].
    apply IH; [| exact Ho]. intros o' Ho'. apply Hl. now right.
Qed.

Lemma configured_budget_inv db w :
  db_ok db → configured (db_Output db) w → budget_inv db w.
Proof.
  intros (Hmax & Hpos & Hshare) (H1 & H2 & H3). split; [| split].
  - intros k a Ha. destruct (H1 k a Ha) as (o & Ho & <-). now apply Hpos.
  - intros k1 k2 p Hw1 Hw2 Hp1 Hp2 Hp0.
    destruct (H2 k1 _ _ Hw1 Hp1) as (o1 & Ho1 & <- & Hty1 & Hpin1).
    destruct (H2 k2 _ _ Hw2 Hp2) as (o2 & Ho2 & <- & Hty2 & Hpin2).
    now apply (Hshare o1 o2 p).
  - unfold drawn_load. rewrite sum_where_none; [assumption |].
    intros k a _. apply H3.
Qed.

Lemma all_outputs_off_preserves db fuel :
  preserves (budget_inv db) (all_outputs_off db fuel).
Proof.
  unfold all_outputs_off.
  pose proof (output_on_off_preserves db fuel) as Hreq.
  preserves_tac; apply Hreq.
Qed.

Lemma all_outputs_on_preserves db fuel :
  preserves (budget_inv db) (all_outputs_on db fuel).
Proof.
  unfold all_outputs_on.
  pose proof (output_on_off_preserves db fuel) as Hreq.
  preserves_tac; apply Hreq.
Qed.

Lemma init_budget_inv db fuel t0 : db_ok db → budget_inv db (init db fuel t0).
Proof.
  intros Hdb. unfold init, try_except. cbn [snd].
  set (w0 := Build_World empty_controller ∅ t0 []).
  assert (H0 : configured (db_Output db) w0) by apply configured_empty.
  set (cfg := configured (db_Output db)).
  assert (Hsv : ∀ {A} (m : M A) w, steps same_view m → cfg w → cfg (m w).2).
  { intros A m w Hm Hw. apply (configured_same_view _ w); [apply Hm | exact Hw]. }
  (* the four assignments keep the registry as it is *)
  unfold now.
  repeat match goal with
         | |- context [bind (setattr ?s ?v) ?f ?w] =>
             let H := fresh "H" in
             assert (H : cfg (setattr s v w).2)
               by (apply Hsv; [auto with steps | assumption]);
             change (bind (setattr s v) f w) with (f tt (setattr s v w).2);
             cbv beta
         | |- context [bind (gets ?g) ?f ?w] =>
             rewrite (bind_gets g f w); cbv beta
         end.
  match goal with
  | H : cfg ?w1 |- context [bind (all_outputs_initialize _) _ ?w1] =>
      pose proof (all_outputs_initialize_configured db (db_Output db) w1 Hdb
                    (λ o Ho, Ho) H) as Hinit
  end.
  apply (configured_budget_inv db) in Hinit; [| assumption].
  unfold bind at 1.
  destruct (all_outputs_initialize _ _) as [[[]|e] w2]; cbn [snd] in *;
    [| exact Hinit].
  apply (preserves_bind (budget_inv db));
    [apply all_outputs_off_preserves
    | intros _; apply all_outputs_on_preserves | exact Hinit].
Qed.

(** * The budget invariant over the reachable worlds *)

Lemma reachable_budget_inv db w :
  db_ok db → reachable db w → budget_inv db w.
Proof.
  intros Hdb Hreach. induction Hreach.
  - now apply init_budget_inv.
  - now apply output_on_off_preserves.
  - now apply run_iteration_preserves.
  - now apply set_clock_preserves.
Qed.



Lemma budget_scenario_db_ok kx ky : db_ok (BudgetScenario.db kx ky).
Proof.
  split; [| split].
  - vm_compute. discriminate.
  - intros o Ho. cbn in Ho.
    apply elem_of_cons in Ho as [-> | Ho];
      [| apply list_elem_of_singleton in Ho; subst o];
      vm_compute; discriminate.
  - intros o1 o2 p Ho1 Ho2 _ _ Hp1 Hp2 _. cbn in Ho1, Ho2.
    apply elem_of_cons in Ho1 as [-> | Ho1];
      [| apply list_elem_of_singleton in Ho1; subst o1];
      (apply elem_of_cons in Ho2 as [-> | Ho2];
       [| apply list_elem_of_singleton in Ho2; subst o2]);
      cbn in *; congruence.
Qed.


(** * Reachable worlds are well formed *)

Lemma sub_keys_refl {V} (m : gmap Z V) : sub_keys m m.
Proof. now intros j. Qed.

Lemma sub_keys_insert {V} (m : gmap Z V) k v : sub_keys m (<[k:=v]> m).
Proof.
  intros j. unfold has_key. destruct (decide (k = j)) as [-> | Hne].
  - now rewrite lookup_insert_eq.
  - now rewrite lookup_insert_ne.
Qed.

#[global] Instance keeps_registry_preorder : PreOrder keeps_registry.
Proof.
  split.
  - intros w. unfold keeps_registry, registry_le.
    repeat split; try reflexivity; apply sub_keys_refl.
  - intros w1 w2 w3. unfold keeps_registry, registry_le, sub_keys.
    intros H H'.
    decompose [and] H; decompose [and] H'; clear H H'.
    repeat split; try congruence; auto.
Qed.

Lemma registry_le_entryb c c' j :
  registry_le c c' → entryb c j = true → entryb c' j = true.
Proof.
  unfold registry_le. intros H.
  decompose [and] H; clear H.
  unfold entryb, handle_ok.
  repeat match goal with H : _ c' = _ c |- _ => rewrite H; clear H end.
  intros He. split_andb.
  repeat (apply andb_true_intro; split); auto.
  destruct (output_type c !! j) as [ty|]; [| reflexivity].
  destruct (output_pin c !! j) as [[p|]|]; try reflexivity.
  split_andb. apply andb_true_intro.
  split; [destruct (String.eqb ty "wireless_433MHz_pi_switch")
         | destruct (String.eqb ty "pwm")]; auto.
Qed.

Lemma keeps_registry_well_formed w w' :
  keeps_registry w w' → well_formed w → well_formed w'.
Proof.
  intros Hk Hwf j Hj. apply (registry_le_entryb (self w)); [exact Hk |].
  apply Hwf. destruct Hk as (Hid & _ & _ & _ & Ha & _).
  now rewrite Hid, Ha in Hj.
Qed.

Create HintDb registry.

Ltac registry_prim :=
  intros w; unfold keeps_registry, registry_le; cbn;
  repeat split; try reflexivity;
  first [apply sub_keys_refl | apply sub_keys_insert].

Lemma registry_readonly {A} (m : M A) : readonly m → steps keeps_registry m.
Proof. apply steps_readonly. apply keeps_registry_preorder. Qed.

Lemma registry_emit e : steps keeps_registry (emit e).
Proof. registry_prim. Qed.

Lemma registry_GPIO_output pin level :
  steps keeps_registry (GPIO_output pin level).
Proof. destruct pin; registry_prim. Qed.

Lemma registry_setitem_output_on_until k v :
  steps keeps_registry (setitem output_on_until set_output_on_until k v).
Proof. registry_prim. Qed.

Lemma registry_setitem_output_last_duration k v :
  steps keeps_registry
    (setitem output_last_duration set_output_last_duration k v).
Proof. registry_prim. Qed.

Lemma registry_setitem_output_on_duration k v :
  steps keeps_registry
    (setitem output_on_duration set_output_on_duration k v).
Proof. registry_prim. Qed.

Lemma registry_setitem_pwm_state k v :
  steps keeps_registry (setitem pwm_state set_pwm_state k v).
Proof. registry_prim. Qed.

Lemma registry_setitem_pwm_time_turned_on k v :
  steps keeps_registry
    (setitem pwm_time_turned_on set_pwm_time_turned_on k v).
Proof. registry_prim. Qed.

Lemma registry_setitem_output_time_turned_on k v :
  steps keeps_registry
    (setitem output_time_turned_on set_output_time_turned_on k v).
Proof. registry_prim. Qed.

Lemma registry_setitem_wireless_pi_switch k v :
  steps keeps_registry
    (setitem wireless_pi_switch set_wireless_pi_switch k v).
Proof. registry_prim. Qed.

Lemma registry_setitem_pwm_output k v :
  steps keeps_registry (setitem pwm_output set_pwm_output k v).
Proof. registry_prim. Qed.

Lemma registry_setattr_email_count v :
  steps keeps_registry (setattr set_email_count v).
Proof. registry_prim. Qed.

Lemma registry_setattr_smtp_wait_time v :
  steps keeps_registry (setattr set_smtp_wait_time v).
Proof. registry_prim. Qed.

Lemma registry_setattr_smtp_max_count v :
  steps keeps_registry (setattr set_smtp_max_count v).
Proof. registry_prim. Qed.

Lemma registry_setattr_allowed_to_send_notice v :
  steps keeps_registry (setattr set_allowed_to_send_notice v).
Proof. registry_prim. Qed.

#[local] Hint Resolve registry_emit registry_GPIO_output
  registry_setitem_output_on_until registry_setitem_output_last_duration
  registry_setitem_output_on_duration registry_setitem_pwm_state
  registry_setitem_pwm_time_turned_on registry_setitem_output_time_turned_on
  registry_setitem_wireless_pi_switch registry_setitem_pwm_output
  registry_setattr_email_count registry_setattr_smtp_wait_time
  registry_setattr_smtp_max_count registry_setattr_allowed_to_send_notice
  : registry.
#[local] Hint Extern 1 (steps keeps_registry _) =>
  apply registry_readonly; solve [auto with readonly] : registry.

Ltac registry_tac :=
  repeat first
    [ solve [auto with registry]
    | assumption
    | progress cbv zeta
    | match goal with
      | |- steps _ (bind _ _) => apply steps_bind; [exact _ | | intros ?]
      | |- steps _ (Thread_start _) => apply steps_Thread_start
      | |- steps _ (try_except _) => apply steps_try_except
      | |- steps _ (for_each _ _) =>
          apply steps_for_each; [exact _ | intros ?]
      | |- steps _ (if _ then _ else _) => apply steps_if
      | |- steps _ (match ?x with Some _ => _ | None => _ end) => destruct x
      | H : ∀ _, _ |- steps _ (?f _ _ _) => apply H
      end ].

Lemma registry_output_switch k state duty_cycle :
  steps keeps_registry (output_switch k state duty_cycle).
Proof. unfold output_switch. registry_tac. Qed.
#[local] Hint Resolve registry_output_switch : registry.

Lemma registry_turn_on db k duration min_off duty_cycle :
  steps keeps_registry (turn_on db k duration min_off duty_cycle).
Proof. unfold turn_on, switch_on. registry_tac. Qed.

Lemma registry_turn_off k duration duty_cycle :
  steps keeps_registry (turn_off k duration duty_cycle).
Proof. unfold turn_off. registry_tac. Qed.

Lemma registry_email_throttle : steps keeps_registry email_throttle.
Proof. unfold email_throttle. registry_tac. Qed.
#[local] Hint Resolve registry_turn_on registry_turn_off
  registry_email_throttle : registry.

Lemma registry_check_conditionals db rec k state on_duration duty_cycle :
  (∀ i s d, steps keeps_registry (rec i s d)) →
  steps keeps_registry
    (check_conditionals db rec k state on_duration duty_cycle).
Proof.
  intros Hrec. unfold check_conditionals, run_action. registry_tac.
Qed.

Lemma registry_output_on_off db fuel k state duration min_off duty_cycle
    trigger :
  steps keeps_registry
    (output_on_off db fuel k state duration min_off duty_cycle trigger).
Proof.
  revert k state duration min_off duty_cycle trigger.
  induction fuel as [|fuel IH]; intros k state duration min_off duty_cycle
    trigger; simpl.
  - auto with registry.
  - unfold output_on_off_body.
    assert (Hcheck : ∀ i s d dc,
              steps keeps_registry
                (check_conditionals db
                   (λ i s d, output_on_off db fuel i s d 0%Q 0%Q true)
                   i s d dc)).
    { intros i s d dc. apply registry_check_conditionals.
      intros i' s' d'. apply IH. }
    apply steps_bind; [exact _ | auto with registry | intros known].
    apply steps_if; [auto with registry |].
    apply steps_bind; [exact _ | registry_tac |].
    intros [v | d]; [auto with registry |].
    apply steps_bind; [exact _ | | intros ?; auto with registry].
    apply steps_if; [apply Hcheck | auto with registry].
Qed.

Lemma registry_run_iteration db fuel :
  steps keeps_registry (run_iteration db fuel).
Proof.
  unfold run_iteration.
  pose proof (registry_output_on_off db fuel) as Hreq.
  apply steps_bind; [exact _ | auto with registry | intros t].
  apply steps_bind; [exact _ | auto with registry | intros ids].
  apply steps_for_each; [exact _ | intros k].
  apply steps_bind; [exact _ | auto with registry | intros on_until].
  apply steps_bind; [exact _ | registry_tac | intros expired].
  apply steps_if; [| auto with registry].
  apply steps_bind; [exact _ | apply steps_Thread_start, Hreq | intros _].
  registry_tac.
Qed.

Lemma registry_all_outputs_off db fuel :
  steps keeps_registry (all_outputs_off db fuel).
Proof.
  unfold all_outputs_off.
  pose proof (registry_output_on_off db fuel) as Hreq.
  registry_tac; apply Hreq.
Qed.

Lemma registry_all_outputs_on db fuel :
  steps keeps_registry (all_outputs_on db fuel).
Proof.
  unfold all_outputs_on.
  pose proof (registry_output_on_off db fuel) as Hreq.
  registry_tac; apply Hreq.
Qed.

Lemma registry_setup_pin k : steps keeps_registry (setup_pin k).
Proof. unfold setup_pin. registry_tac. Qed.

Lemma has_key_insert_other {V} (m : gmap Z V) k j v :
  k ≠ j → has_key (<[k:=v]> m) j = has_key m j.
Proof. intros H. unfold has_key. now rewrite lookup_insert_ne. Qed.

Lemma store_output_entry_other o t c j :
  Output.id o ≠ j → entryb c j = true → entryb (store_output o t c) j = true.
Proof.
  intros Hne. unfold entryb, handle_ok, store_output. cbn.
  rewrite !has_key_insert_other by assumption.
  now rewrite !lookup_insert_ne by assumption.
Qed.

Lemma store_output_entry o t c :
  Output.pin o = None
  ∨ (String.eqb (Output.relay_type o) "wireless_433MHz_pi_switch" = false
     ∧ String.eqb (Output.relay_type o) "pwm" = false) →
  entryb (store_output o t c) (Output.id o) = true.
Proof.
  intros H. unfold entryb, handle_ok, store_output. cbn.
  rewrite !has_key_insert_same, !lookup_insert_eq. cbn.
  destruct H as [-> | [-> ->]]; [reflexivity |].
  now destruct (Output.pin o).
Qed.

Lemma store_output_entry_wireless o t c sw :
  String.eqb (Output.relay_type o) "pwm" = false →
  entryb
    (set_wireless_pi_switch
       (<[Output.id o:=sw]> (wireless_pi_switch (store_output o t c)))
       (store_output o t c)) (Output.id o) = true.
Proof.
  intros H. unfold entryb, handle_ok, store_output. cbn.
  rewrite !has_key_insert_same, !lookup_insert_eq. cbn. rewrite H.
  destruct (Output.pin o); [| reflexivity].
  now destruct (String.eqb (Output.relay_type o) "wireless_433MHz_pi_switch").
Qed.

Lemma store_output_entry_pwm o t c h :
  String.eqb (Output.relay_type o) "wireless_433MHz_pi_switch" = false →
  entryb
    (set_pwm_output (<[Output.id o:=h]> (pwm_output (store_output o t c)))
       (store_output o t c)) (Output.id o) = true.
Proof.
  intros H. unfold entryb, handle_ok, store_output. cbn.
  rewrite !has_key_insert_same, !lookup_insert_eq. cbn. rewrite H.
  destruct (Output.pin o); [| reflexivity].
  now destruct (String.eqb (Output.relay_type o) "pwm").
Qed.

Lemma initialize_output_well_formed o w :
  well_formed w → well_formed (initialize_output o w).2.
Proof.
  intros Hwf. unfold initialize_output, now. rewrite bind_gets, bind_modify.
  set (c1 := store_output o (clock w) (self w)).
  set (w1 := set_self c1 w).
  set (rest := bind (getitem output_pin (Output.id o))
                 (λ pin, if is_not_None pin then setup_pin (Output.id o)
                         else ret tt)).
  change (well_formed (rest w1).2).
  assert (Hkeep : keeps_registry w1 (rest w1).2).
  { cut (steps keeps_registry rest); [intros H; apply H |].
    pose proof (registry_setup_pin (Output.id o)). unfold rest.
    registry_tac. }
  assert (Hentry : entryb (self (rest w1).2) (Output.id o) = true).
  { assert (Hpin : output_pin (self w1) !! Output.id o = Some (Output.pin o))
      by apply lookup_insert_eq.
    assert (Hty : output_type (self w1) !! Output.id o
                  = Some (Output.relay_type o)) by apply lookup_insert_eq.
    destruct (Output.pin o) as [p|] eqn:Hp.
    2:{ apply (registry_le_entryb c1); [exact Hkeep |].
        apply store_output_entry. now left. }
    destruct (String.eqb (Output.relay_type o) "wireless_433MHz_pi_switch")
      eqn:Hwl.
    - (* wireless: the transmitter is created *)
      apply String.eqb_eq in Hwl.
      unfold rest. rewrite (bind_getitem _ _ _ _ _ Hpin).
      cbn [is_not_None is_None negb]. unfold setup_pin.
      rewrite (bind_getitem _ _ _ _ _ Hty). rewrite Hwl.
      cbn [String.eqb Ascii.eqb Bool.eqb].
      rewrite (bind_getitem _ _ _ _ _ Hpin).
      erewrite (bind_getitem output_protocol) by apply lookup_insert_eq.
      erewrite (bind_getitem output_pulse_length) by apply lookup_insert_eq.
      erewrite (bind_getitem output_bit_length) by apply lookup_insert_eq.
      apply store_output_entry_wireless. now rewrite Hwl.
    - destruct (String.eqb (Output.relay_type o) "pwm") eqn:Hpwm.
      + (* pwm: the handle is stored first *)
        apply String.eqb_eq in Hpwm.
        unfold rest. rewrite (bind_getitem _ _ _ _ _ Hpin).
        cbn [is_not_None is_None negb]. unfold setup_pin.
        rewrite (bind_getitem _ _ _ _ _ Hty). rewrite Hpwm.
        cbn [String.eqb Ascii.eqb Bool.eqb].
        unfold try_except. cbn [snd]. unfold setitem at 1.
        rewrite bind_modify.
        match goal with
        | |- entryb (self (?m ?w1').2) _ = true =>
            apply (registry_le_entryb (self w1'));
              [ cut (steps keeps_registry m); [intros H; apply H |];
                registry_tac
              | apply store_output_entry_pwm; now rewrite Hpwm ]
        end.
      + apply (registry_le_entryb c1); [exact Hkeep |].
        apply store_output_entry. now right.
  }
  intros j Hj. pose proof Hkeep as (Hid & _ & _ & _ & Ha & _).
  rewrite Hid, Ha in Hj.
  destruct (decide (Output.id o = j)) as [<- | Hne]; [exact Hentry |].
  apply (registry_le_entryb c1); [exact Hkeep |].
  apply store_output_entry_other; [assumption |]. apply Hwf.
  cbn in Hj. now rewrite !has_key_insert_other in Hj by assumption.
Qed.

Lemma all_outputs_initialize_well_formed l w :
  well_formed w → well_formed (all_outputs_initialize l w).2.
Proof.
  unfold all_outputs_initialize. revert w.
  induction l as [|o l IH]; intros w Hw; simpl; [exact Hw |].
  pose proof (initialize_output_well_formed o w Hw) as Ho.
  unfold bind. destruct (initialize_output o w) as [[[]|e] w1];
    simpl in *; [now apply IH | exact Ho].
Qed.

Lemma init_well_formed db fuel t0 : well_formed (init db fuel t0).
Proof.
  unfold init, try_except. cbn [snd].
  set (w0 := Build_World empty_controller ∅ t0 []).
  assert (H0 : well_formed w0).
  { intros k Hk. cbn in Hk. unfold has_key in Hk.
    rewrite !lookup_empty in Hk. discriminate. }
  unfold now.
  repeat match goal with
         | |- context [bind (setattr ?s ?v) ?f ?w] =>
             let H := fresh "H" in
             assert (H : well_formed (setattr s v w).2)
               by (apply (keeps_registry_well_formed w);
                   [cut (steps keeps_registry (setattr s v));
                      [intros Hs; apply Hs | auto with registry]
                   | assumption]);
             change (bind (setattr s v) f w) with (f tt (setattr s v w).2);
             cbv beta
         | |- context [bind (gets ?g) ?f ?w] =>
             rewrite (bind_gets g f w); cbv beta
         end.
  match goal with
  | H : well_formed ?w1 |- context [bind (all_outputs_initialize _) _ ?w1] =>
      pose proof (all_outputs_initialize_well_formed (db_Output db) w1 H)
        as Hinit
  end.
  unfold bind at 1.
  destruct (all_outputs_initialize _ _) as [[[]|e] w2]; cbn [snd] in *;
    [| exact Hinit].
  apply (keeps_registry_well_formed w2); [| exact Hinit].
  cut (steps keeps_registry
         (bind (all_outputs_off db fuel) (λ _, all_outputs_on db fuel)));
    [intros Hs; apply Hs |].
  apply steps_bind;
    [exact _ | apply registry_all_outputs_off
    | intros _; apply registry_all_outputs_on].
Qed.

(** Every reachable world is well formed: the theorems stated for
    well-formed worlds apply to all of them. *)
Lemma reachable_well_formed db w : reachable db w → well_formed w.
Proof.
  intros Hreach. induction Hreach.
  - apply init_well_formed.
  - eapply keeps_registry_well_formed; [| eassumption].
    apply registry_output_on_off.
  - eapply keeps_registry_well_formed; [| eassumption].
    apply registry_run_iteration.
  - exact IHHreach.
Qed.

(** * Further properties of the controller's code *)

Ltac by_compute :=
  first [ apply well_formedb_sound; vm_compute; reflexivity
        | vm_compute; reflexivity
        | vm_compute; discriminate
        | vm_compute; intros H; discriminate H
        | intros _; discriminate ].

(** * The observed state as [output_state] reports it *)

Lemma readonly_output_state k : readonly (output_state k).
Proof. unfold output_state. readonly_tac. Qed.

Lemma readonly_output_sec_currently_on k :
  readonly (output_sec_currently_on k).
Proof. unfold output_sec_currently_on. readonly_tac. Qed.

Lemma has_key_lookup {V} (m : gmap Z V) k v :
  m !! k = Some v → has_key m k = true.
Proof. intros H. unfold has_key. now rewrite H. Qed.

Lemma has_key_None {V} (m : gmap Z V) k :
  m !! k = None → has_key m k = false.
Proof. intros H. unfold has_key. now rewrite H. Qed.

(** [output_state] of a wired output with a pin compares the latch with the
    trigger level; of a command or wireless output it looks at the turn-on
    time. *)
Lemma output_state_wired k w pin trig :
  output_type (self w) !! k = Some "wired" →
  output_pin (self w) !! k = Some pin →
  output_trigger (self w) !! k = Some trig →
  output_state k w
  = (Ok (inl (match pin with
              | Some p =>
                  if Bool.eqb trig (default false (GPIO w !! p))
                  then "on" else "off"
              | None => "off"
              end)), w).
Proof.
  intros Hty Hpin Htrig. unfold output_state. mrun.
  rewrite (has_key_lookup _ _ _ Hty). mrun. cbn [String.eqb Ascii.eqb Bool.eqb].
  mrun. destruct pin as [p|]; cbn [is_not_None is_None negb].
  - mrun. unfold GPIO_input. mrun. now destruct (Bool.eqb trig _).
  - now mrun.
Qed.

Lemma output_state_timed k w ty t_on :
  output_type (self w) !! k = Some ty →
  str_in ty ["command"; "wireless_433MHz_pi_switch"] = true →
  output_time_turned_on (self w) !! k = Some t_on →
  output_state k w
  = (Ok (inl (if is_not_None t_on then "on" else "off")), w).
Proof.
  intros Hty Hkind Hon. unfold output_state. mrun.
  rewrite (has_key_lookup _ _ _ Hty). mrun.
  assert (Hw : String.eqb ty "wired" = false).
  { unfold str_in in Hkind. cbn in Hkind.
    apply orb_true_iff in Hkind as [H | H];
      [| apply orb_true_iff in H as [H | H]; [| discriminate]];
      apply String.eqb_eq in H; now subst ty. }
  rewrite Hw. mrun. rewrite Hkind. mrun. now destruct (is_not_None t_on).
Qed.

(** X1: for every registered output of a current-drawing kind (a wired
    output on a pin other than 0, a command output or a wireless output),
    [output_state] and [is_on] agree: neither raises nor changes anything,
    and [output_state] returns ['on'] exactly when [is_on] returns [True]. *)
Theorem output_state_agrees_with_is_on k w ty pin :
  entryb (self w) k = true →
  output_type (self w) !! k = Some ty →
  str_in ty current_kinds = true →
  output_pin (self w) !! k = Some pin →
  (ty = "wired" → pin ≠ Some 0) →
  ∃ on : bool,
    is_on k w = (Ok on, w)
    ∧ output_state k w = (Ok (inl (if on then "on" else "off")), w).
Proof.
  intros He Hty Hkind Hpin Hp0.
  exists (observed_on w k). split; [now apply is_on_well_formed |].
  destruct (entryb_lookups _ _ He)
    as (ty' & pin' & a & trig & until & last & timed & pwm_t & t_on
        & Hty' & Hpin' & _ & Htrig & _ & _ & _ & _ & Hton).
  assert (ty' = ty) by congruence. assert (pin' = pin) by congruence.
  subst ty' pin'. clear Hty' Hpin'.
  rewrite observed_on_pure, Hty, Hpin, Htrig, Hton. unfold is_on_pure.
  rewrite str_in_current_kinds in Hkind.
  destruct (String.eqb ty "wired") eqn:Hw.
  - apply String.eqb_eq in Hw. subst ty.
    rewrite (output_state_wired _ _ _ _ Hty Hpin Htrig).
    destruct pin as [p|]; [| reflexivity].
    assert (p ≠ 0) by (intros ->; now apply Hp0).
    cbn [truthy_pin]. unfold truthy_int.
    destruct (Z.eqb_spec p 0); [contradiction |]. cbn [negb].
    now destruct (Bool.eqb trig _).
  - cbn [orb] in Hkind.
    rewrite (output_state_timed _ _ _ _ Hty Hkind Hton).
    unfold is_on_tail. rewrite Hkind. now destruct (is_not_None t_on).
Qed.

Lemma output_state_agrees_with_is_on_witness :
  let w := BudgetScenario.x_on "wired" "command" in
  entryb (self w) 1 = true
  ∧ output_type (self w) !! 1 = Some "wired"
  ∧ str_in "wired" current_kinds = true
  ∧ output_pin (self w) !! 1 = Some (Some 17)
  ∧ ("wired" = "wired" → Some 17 ≠ Some 0)
  ∧ ∃ on : bool,
      is_on 1 w = (Ok on, w)
      ∧ output_state 1 w = (Ok (inl (if on then "on" else "off")), w).
Proof.
  cbv zeta.
  do 5 (refine (conj _ _); [by_compute |]).
  apply (output_state_agrees_with_is_on 1 _ "wired" (Some 17)); by_compute.
Defined.

(** * Requests that do not cascade *)

Lemma bind_ext {A B} (m : M A) (f g : A → M B) w :
  (∀ a w', f a w' = g a w') → bind m f w = bind m g w.
Proof. intros H. unfold bind. destruct (m w) as [[a|e] w']; auto. Qed.

(** With [trigger_conditionals=False] a request on a registered output is
    its ['on'] or ['off'] block and nothing else. *)
Lemma output_on_off_no_cascade db fuel k state duration min_off duty_cycle w :
  output_id (self w) !! k ≠ None →
  output_on_off db (S fuel) k state duration min_off duty_cycle false w
  = bind
      (if String.eqb state "on" then
         turn_on db k duration min_off duty_cycle
       else if String.eqb state "off" then turn_off k duration duty_cycle
       else ret (Fallthrough duration))
      (λ fl, match fl with
             | Returned v => ret v
             | Fallthrough _ => ret None
             end) w.
Proof.
  intros Hk. simpl. unfold output_on_off_body.
  rewrite (bind_Ok _ _ _ _ _ (output_exists_known _ _ Hk)). cbn [negb].
  apply bind_ext. intros [v|d] w'; reflexivity.
Qed.

(** [output_switch] on a PWM output with its handle: the duty cycle is sent
    and its magnitude is stored in [pwm_state]. *)
Lemma output_switch_pwm_on k w lib handle pin hz duty_cycle :
  output_type (self w) !! k = Some "pwm" →
  pwm_library (self w) !! k = Some lib →
  pwm_output (self w) !! k = Some handle →
  output_pin (self w) !! k = Some pin →
  pwm_hertz (self w) !! k = Some hz →
  ∃ w',
    output_switch k "on" (Some duty_cycle) w = (Ok tt, w')
    ∧ self w'
      = set_pwm_state (<[k:=Some (Qabs duty_cycle)]> (pwm_state (self w)))
          (self w)
    ∧ GPIO w' = GPIO w ∧ clock w' = clock w.
Proof.
  intros Hty Hlib Hh Hpin Hhz. unfold output_switch. mrun.
  cbn [String.eqb Ascii.eqb Bool.eqb]. mrun.
  destruct (String.eqb lib "pigpio_hardware").
  - mrun. cbn [py_abs]. unfold emit, setitem. mrun.
    eexists; split; [reflexivity |]. now cbn.
  - mrun. destruct (String.eqb lib "pigpio_any").
    + mrun. unfold emit. mrun. cbn [py_abs]. mrun.
      change (self (set_trace ?l ?w)) with (self w) in *.
      cbn [self set_trace]. mrun. unfold setitem. mrun.
      eexists; split; [reflexivity |]. now cbn.
    + mrun. cbn [py_abs]. unfold setitem. mrun.
      eexists; split; [reflexivity |]. now cbn.
Qed.

Lemma Qeq_bool_Qabs_0 x : Qeq_bool (Qabs x) 0 = Qeq_bool x 0.
Proof.
  destruct (Qeq_bool x 0) eqn:H.
  - apply Qeq_bool_iff in H. apply Qeq_bool_iff. now rewrite H.
  - apply not_true_iff_false. intros H'. apply Qeq_bool_iff in H'.
    apply not_true_iff_false in H. apply H. apply Qeq_bool_iff.
    revert H'. apply Qabs_case; intros; lra.
Qed.

Lemma handle_ok_pwm c k p :
  handle_ok c k = true →
  output_type c !! k = Some "pwm" → output_pin c !! k = Some (Some p) →
  ∃ handle, pwm_output c !! k = Some handle.
Proof.
  unfold handle_ok. intros H Hty Hpin. rewrite Hty, Hpin in H. cbn in H.
  unfold has_key in H.
  destruct (pwm_output c !! k); [eauto | discriminate].
Qed.

Lemma handle_ok_wireless c k p :
  handle_ok c k = true →
  output_type c !! k = Some "wireless_433MHz_pi_switch" →
  output_pin c !! k = Some (Some p) →
  ∃ sw, wireless_pi_switch c !! k = Some sw.
Proof.
  unfold handle_ok. intros H Hty Hpin. rewrite Hty, Hpin in H. cbn in H.
  unfold has_key in H.
  destruct (wireless_pi_switch c !! k); [eauto | discriminate].
Qed.

(** X2: a PWM output with a pin and a positive frequency, asked to turn on
    with duty cycle [dc], is switched: the request returns [None], [is_on]
    then returns [True], and [output_state] reads back the magnitude of the
    duty cycle, except at duty cycle 0, where it says ['off'] of an output
    that [is_on] reports on. *)
Theorem pwm_on_state_read_back db fuel k w pin hz duration min_off
    duty_cycle :
  well_formed w →
  output_id (self w) !! k ≠ None →
  output_type (self w) !! k = Some "pwm" →
  output_pin (self w) !! k = Some (Some pin) →
  pwm_hertz (self w) !! k = Some hz →
  0 < hz →
  ∃ w',
    output_on_off db (S fuel) k "on" duration min_off duty_cycle false w
    = (Ok None, w')
    ∧ is_on k w' = (Ok true, w')
    ∧ output_state k w'
      = (Ok (if Qeq_bool duty_cycle 0 then inl "off"
             else inr (Some (Qabs duty_cycle))), w').
Proof.
  intros Hwf Hk Hty Hpin Hhz Hpos.
  pose proof (well_formed_entry _ _ Hwf Hk) as He.
  destruct (entryb_more _ _ He)
    as (uid & on_c & off_c & hz' & lib & Huid & _ & _ & _ & Hlib & Hh).
  destruct (handle_ok_pwm _ _ _ Hh Hty Hpin) as (handle & Hhandle).
  rewrite (output_on_off_no_cascade _ _ _ _ _ _ _ _ Hk).
  cbn [String.eqb Ascii.eqb Bool.eqb]. unfold turn_on. rewrite bind_bind.
  rewrite (bind_Ok _ _ _ _ _ (invalid_pin_well_formed _ _ _ _ Hty Hpin)).
  change (str_in "pwm" pin_kinds && is_None (Some pin)) with false.
  cbv iota. unfold exceeds_budget_or_min_off. mrun.
  change (str_in "pwm" current_kinds) with false. cbv iota. mrun.
  unfold switch_on. mrun.
  change (str_in "pwm" current_kinds) with false.
  cbn [andb String.eqb Ascii.eqb Bool.eqb]. mrun.
  destruct (Z.leb_spec hz 0) as [Hle | _]; [lia |].
  unfold now. mrun. unfold setitem at 1. mrun.
  match goal with
  | |- context [bind (output_switch k "on" (Some duty_cycle)) _ ?w0] =>
      set (w1 := w0)
  end.
  destruct (output_switch_pwm_on k w1 lib handle (Some pin) hz duty_cycle)
    as (w2 & Hsw & Hself & Hgpio & Hclock); try assumption.
  rewrite (bind_Ok _ _ _ _ _ Hsw).
  assert (Huid2 : output_unique_id (self w2) !! k = Some uid)
    by now rewrite Hself.
  mrun. unfold Thread_start, emit. mrun. cbn [snd modify].
  eexists; split; [reflexivity |].
  match goal with |- is_on k ?w0 = _ ∧ _ => set (w3 := w0) end.
  assert (Hty3 : output_type (self w3) !! k = Some "pwm")
    by (unfold w3; cbn [self set_trace]; now rewrite Hself).
  assert (Hst3 : pwm_state (self w3) !! k = Some (Some (Qabs duty_cycle)))
    by (unfold w3; cbn [self set_trace]; rewrite Hself; cbn;
        apply lookup_insert_eq).
  assert (Hpt3 : pwm_time_turned_on (self w3) !! k = Some (Some (clock w)))
    by (unfold w3; cbn [self set_trace]; rewrite Hself; cbn;
        apply lookup_insert_eq).
  clearbody w3. split.
  - rewrite is_on_run, Hty3, Hpt3. reflexivity.
  - unfold output_state. mrun. rewrite (has_key_lookup _ _ _ Hty3).
    mrun. cbn [String.eqb Ascii.eqb Bool.eqb]. mrun.
    change (str_in "pwm" _) with false. cbv iota. mrun.
    cbn [String.eqb Ascii.eqb Bool.eqb]. mrun.
    rewrite (has_key_lookup _ _ _ Hst3). mrun.
    cbn [truthy_duty]. unfold truthy_float.
    rewrite Qeq_bool_Qabs_0.
    destruct (Qeq_bool duty_cycle 0); cbn [negb]; now mrun.
Qed.

Lemma pwm_on_state_read_back_witness :
  let w := PwmScenario.started in
  well_formed w
  ∧ output_id (self w) !! 2 ≠ None
  ∧ output_type (self w) !! 2 = Some "pwm"
  ∧ output_pin (self w) !! 2 = Some (Some 23)
  ∧ pwm_hertz (self w) !! 2 = Some 22000
  ∧ 0 < 22000
  ∧ ∃ w',
      output_on_off PwmScenario.db 8 2 "on" 0 0 50 false w = (Ok None, w')
      ∧ is_on 2 w' = (Ok true, w')
      ∧ output_state 2 w'
        = (Ok (if Qeq_bool 50 0 then inl "off" else inr (Some (Qabs 50))),
           w').
Proof.
  cbv zeta.
  do 6 (refine (conj _ _); [by_compute |]).
  apply (pwm_on_state_read_back PwmScenario.db 7 2 _ 23 22000 0 0 50);
    by_compute.
Defined.

(** * An off request leaves the output off *)

Lemma _is_setup_run k w ty pin :
  output_type (self w) !! k = Some ty →
  output_pin (self w) !! k = Some pin →
  _is_setup k w
  = (Ok (if String.eqb ty "wired" && truthy_pin pin then true
         else if str_in ty ["command"; "wireless_433MHz_pi_switch"] then true
         else if String.eqb ty "pwm" then has_key (pwm_output (self w)) k
         else false), w).
Proof.
  intros Hty Hpin. unfold _is_setup. mrun.
  destruct (String.eqb ty "wired"); mrun; cbn [andb].
  - destruct (truthy_pin pin); [reflexivity |].
    destruct (str_in ty _); [reflexivity |].
    destruct (String.eqb ty "pwm"); now mrun.
  - destruct (str_in ty _); [reflexivity |].
    destruct (String.eqb ty "pwm"); now mrun.
Qed.

(** [output_switch(output_id, 'off')] on a registered output that has a pin
    when its kind needs one: it cannot raise, a wired output's own latch is
    driven away from the trigger level, and a PWM output's state is
    cleared. *)
Lemma output_switch_off_run k w ty pin trig :
  entryb (self w) k = true →
  output_type (self w) !! k = Some ty →
  output_pin (self w) !! k = Some pin →
  output_trigger (self w) !! k = Some trig →
  str_in ty pin_kinds && is_None pin = false →
  ∃ w',
    output_switch k "off" None w = (Ok tt, w')
    ∧ clock w' = clock w
    ∧ self w'
      = (if String.eqb ty "pwm"
         then set_pwm_state (<[k:=None]> (pwm_state (self w))) (self w)
         else self w)
    ∧ GPIO w'
      = (if String.eqb ty "wired"
         then match pin with
              | Some p => <[p:=negb trig]> (GPIO w)
              | None => GPIO w
              end
         else GPIO w).
Proof.
  intros He Hty Hpin Htrig Hvalid.
  destruct (entryb_more _ _ He)
    as (uid & on_c & off_c & hz & lib & Huid & Hon & Hoff & Hhz & Hlib & Hh).
  unfold output_switch. mrun.
  destruct (String.eqb ty "wired") eqn:Hw.
  { apply String.eqb_eq in Hw. subst ty.
    cbn [String.eqb Ascii.eqb Bool.eqb]. mrun.
    destruct pin as [p|]; [| discriminate Hvalid].
    unfold GPIO_output, emit. mrun.
    eexists. split; [reflexivity |]. now cbn. }
  destruct (String.eqb ty "wireless_433MHz_pi_switch") eqn:Hwl.
  { apply String.eqb_eq in Hwl. subst ty.
    cbn [String.eqb Ascii.eqb Bool.eqb]. mrun.
    destruct pin as [p|]; [| discriminate Hvalid].
    destruct (handle_ok_wireless _ _ _ Hh Hty Hpin) as (sw & Hsw).
    unfold emit. mrun.
    eexists. split; [reflexivity |]. now cbn. }
  destruct (String.eqb ty "command") eqn:Hc.
  { apply String.eqb_eq in Hc. subst ty.
    cbn [String.eqb Ascii.eqb Bool.eqb]. mrun.
    destruct (truthy_str off_c); unfold emit; mrun;
      (eexists; split; [reflexivity |]; now cbn). }
  destruct (String.eqb ty "pwm") eqn:Hp.
  { apply String.eqb_eq in Hp. subst ty.
    cbn [String.eqb Ascii.eqb Bool.eqb]. mrun.
    destruct pin as [p|]; [| discriminate Hvalid].
    destruct (handle_ok_pwm _ _ _ Hh Hty Hpin) as (handle & Hhandle).
    destruct (String.eqb lib "pigpio_hardware").
    - mrun. unfold emit, setitem. mrun.
      eexists; split; [reflexivity |]. now cbn.
    - mrun. destruct (String.eqb lib "pigpio_any").
      + mrun. unfold emit. mrun. cbn [self set_trace]. mrun.
        unfold setitem. mrun.
        eexists; split; [reflexivity |]. now cbn.
      + mrun. unfold setitem. mrun.
        eexists; split; [reflexivity |]. now cbn. }
  mrun. eexists. split; [reflexivity |]. now cbn.
Qed.

Lemma is_on_pure_off ty pin trig gpio t_on pwm_t :
  (ty = "wired" → ∀ p, pin = Some p → p ≠ 0 →
   gpio !! p = Some (negb trig)) →
  (str_in ty ["command"; "wireless_433MHz_pi_switch"] = true →
   t_on = None) →
  (ty = "pwm" → pwm_t = None) →
  is_on_pure (Some ty) (Some pin) (Some trig) gpio (Some t_on) (Some pwm_t)
  = Ok false.
Proof.
  intros Hw Hc Hp. unfold is_on_pure.
  assert (Htail : is_on_tail ty (Some t_on) (Some pwm_t) = Ok false).
  { unfold is_on_tail. destruct (str_in ty _).
    - now rewrite Hc.
    - destruct (String.eqb ty "pwm") eqn:E; [| reflexivity].
      apply String.eqb_eq in E. now rewrite Hp. }
  destruct (String.eqb ty "wired") eqn:E; [| exact Htail].
  apply String.eqb_eq in E.
  destruct pin as [p|]; cbn [truthy_pin]; [| exact Htail].
  unfold truthy_int. destruct (Z.eqb_spec p 0); cbn [negb]; [exact Htail |].
  rewrite (Hw E p eq_refl n). cbn. now destruct trig.
Qed.

Ltac off_done :=
  eexists; split; [reflexivity |];
  rewrite is_on_run;
  cbn [self GPIO set_self set_trace set_pwm_time_turned_on
       set_output_time_turned_on set_output_on_duration set_output_on_until
       output_type output_pin output_trigger output_time_turned_on
       pwm_time_turned_on];
  rewrite ?lookup_insert_eq;
  repeat match goal with
         | H : _ !! _ = Some _ |- _ => rewrite H
         end;
  f_equal; apply is_on_pure_off;
  solve [ assumption | reflexivity | intros; exfalso; eauto
        | intros E; rewrite E in *; discriminate | discriminate ].

Ltac mrun_deep :=
  repeat (mrun; cbn [is_not_None is_None negb datetime_sub]; cbv iota;
          unfold now, setitem).

Ltac tail_off t_on timed :=
  destruct t_on as [?t0|]; destruct timed; mrun_deep;
  try (match goal with
       | |- context [Qgtb ?a ?b] => destruct (Qgtb a b)
       end; mrun_deep);
  unfold Thread_start, emit, modify; cbn [snd]; mrun;
  off_done.

(** X3: an off request (without cascade) for a registered output that has
    a pin when its kind needs one returns [None] and leaves the output
    observed off, whatever state it was in.  Wireless outputs are left out:
    their off command goes through [int()] before it is transmitted. *)
Theorem off_request_turns_off db fuel k w ty pin duration min_off
    duty_cycle :
  well_formed w →
  output_id (self w) !! k ≠ None →
  output_type (self w) !! k = Some ty →
  ty ≠ "wireless_433MHz_pi_switch" →
  output_pin (self w) !! k = Some pin →
  str_in ty pin_kinds && is_None pin = false →
  ∃ w',
    output_on_off db (S fuel) k "off" duration min_off duty_cycle false w
    = (Ok None, w')
    ∧ is_on k w' = (Ok false, w').
Proof.
  intros Hwf Hk Hty _ Hpin Hvalid.
  pose proof (well_formed_entry _ _ Hwf Hk) as He.
  destruct (entryb_lookups _ _ He)
    as (ty' & pin' & a & trig & until & last & timed & pwm_t & t_on
        & Hty' & Hpin' & _ & Htrig & Huntil & Hlast & Htimed & Hpwm & Hton).
  assert (ty' = ty) by congruence. assert (pin' = pin) by congruence.
  subst ty' pin'. clear Hty' Hpin'.
  destruct (entryb_more _ _ He)
    as (uid & on_c & off_c & hz & lib & Huid & _ & _ & _ & _ & Hh).
  rewrite (output_on_off_no_cascade _ _ _ _ _ _ _ _ Hk).
  cbn [String.eqb Ascii.eqb Bool.eqb]. unfold turn_off. rewrite bind_bind.
  rewrite (bind_Ok _ _ _ _ _ (_is_setup_run _ _ _ _ Hty Hpin)).
  match goal with
  | |- context [negb ?b] => destruct b eqn:Hsetup
  end; cbn [negb]; cbv iota.
  2:{ (* not set up: nothing is switched, and the output is not on *)
      mrun. eexists; split; [reflexivity |].
      rewrite is_on_run, Hty, Hpin, Htrig, Hton, Hpwm. f_equal.
      revert Hsetup.
      destruct (String.eqb ty "wired" && truthy_pin pin) eqn:E1;
        [intros H; cbv iota in H; discriminate H |].
      destruct (str_in ty ["command"; "wireless_433MHz_pi_switch"]) eqn:E2;
        [intros H; cbv iota in H; discriminate H |].
      intros Hsetup.
      unfold is_on_pure, is_on_tail. rewrite E2.
      assert (Hnp : String.eqb ty "pwm" = false).
      { destruct (String.eqb ty "pwm") eqn:E3; [| reflexivity].
        apply String.eqb_eq in E3. subst ty.
        destruct pin as [p|]; [| discriminate Hvalid].
        destruct (handle_ok_pwm _ _ _ Hh Hty Hpin) as (handle & Hhandle).
        rewrite (has_key_lookup _ _ _ Hhandle) in Hsetup. discriminate. }
      rewrite Hnp.
      destruct (String.eqb ty "wired"); [| reflexivity].
      cbn [andb] in E1. now rewrite E1. }
  mrun.
  match goal with
  | |- context [bind (if str_in ty pin_kinds then ?m else ret false) ?f w] =>
      assert (Hg : bind (if str_in ty pin_kinds then m else ret false) f w
                   = f false w);
        [ destruct (str_in ty pin_kinds) eqn:Hpk;
          [ rewrite (bind_bind (getitem output_pin k)),
              (bind_getitem _ _ _ _ _ Hpin), bind_ret;
            try rewrite Hpk in Hvalid; cbn [andb] in Hvalid;
            rewrite Hvalid; reflexivity
          | rewrite bind_ret; reflexivity ]
        | rewrite Hg; clear Hg; cbv beta iota ]
  end.
  destruct (output_switch_off_run k w ty pin trig He Hty Hpin Htrig Hvalid)
    as (w1 & Hsw & Hclock & Hself & Hgpio).
  rewrite bind_bind, (bind_Ok _ _ _ _ _ Hsw).
  assert (Hty1 : output_type (self w1) !! k = Some ty)
    by (rewrite Hself; destruct (String.eqb ty "pwm"); assumption).
  assert (Hpin1 : output_pin (self w1) !! k = Some pin)
    by (rewrite Hself; destruct (String.eqb ty "pwm"); assumption).
  assert (Htrig1 : output_trigger (self w1) !! k = Some trig)
    by (rewrite Hself; destruct (String.eqb ty "pwm"); assumption).
  assert (Huntil1 : output_on_until (self w1) !! k = Some until)
    by (rewrite Hself; destruct (String.eqb ty "pwm"); assumption).
  assert (Hlast1 : output_last_duration (self w1) !! k = Some last)
    by (rewrite Hself; destruct (String.eqb ty "pwm"); assumption).
  assert (Htimed1 : output_on_duration (self w1) !! k = Some timed)
    by (rewrite Hself; destruct (String.eqb ty "pwm"); assumption).
  assert (Hpwm1 : pwm_time_turned_on (self w1) !! k = Some pwm_t)
    by (rewrite Hself; destruct (String.eqb ty "pwm"); assumption).
  assert (Hton1 : output_time_turned_on (self w1) !! k = Some t_on)
    by (rewrite Hself; destruct (String.eqb ty "pwm"); assumption).
  assert (Huid1 : output_unique_id (self w1) !! k = Some uid)
    by (rewrite Hself; destruct (String.eqb ty "pwm"); assumption).
  assert (Hlatch : ty = "wired" → ∀ p, pin = Some p → p ≠ 0 →
                   GPIO w1 !! p = Some (negb trig))
    by (intros -> p -> _; rewrite Hgpio; cbn; apply lookup_insert_eq).
  clear Hself Hgpio Hsw Hsetup.
  assert (Hnw : ty = "pwm" → ty = "wired" → False) by (intros ->; discriminate).
  assert (Hnc : ty = "pwm" →
                str_in ty ["command"; "wireless_433MHz_pi_switch"] = true →
                False) by (intros ->; discriminate).
  mrun.
  destruct (String.eqb ty "pwm") eqn:Hp; mrun.
  - apply String.eqb_eq in Hp.
    destruct pwm_t as [t|]; cbn [is_not_None is_None negb]; cbv iota.
    + unfold now. mrun. cbn [datetime_sub]. mrun. unfold setitem. mrun.
      unfold Thread_start, emit, modify. cbn [snd]. mrun.
      off_done.
    + tail_off t_on timed.
  - tail_off t_on timed.
Qed.

Lemma off_request_turns_off_witness :
  let w := BudgetScenario.x_on "wired" "command" in
  well_formed w
  ∧ output_id (self w) !! 1 ≠ None
  ∧ output_type (self w) !! 1 = Some "wired"
  ∧ "wired" ≠ "wireless_433MHz_pi_switch"
  ∧ output_pin (self w) !! 1 = Some (Some 17)
  ∧ str_in "wired" pin_kinds && is_None (Some 17) = false
  ∧ ∃ w',
      output_on_off (BudgetScenario.db "wired" "command") 8 1 "off" 0 0 0
        false w = (Ok None, w')
      ∧ is_on 1 w' = (Ok false, w').
Proof.
  cbv zeta.
  do 6 (refine (conj _ _); [by_compute |]).
  apply (off_request_turns_off (BudgetScenario.db "wired" "command") 7 1 _
           "wired" (Some 17) 0 0 0); by_compute.
Defined.

(** * An on request that goes through *)

(** A turn-on request that is not answered with 1 has passed the pin check
    and the budget check, and is then what [switch_on] does. *)
Lemma on_request_passed db fuel k w ty pin a duration min_off duty_cycle
    w' :
  well_formed w →
  output_id (self w) !! k ≠ None →
  output_type (self w) !! k = Some ty →
  output_pin (self w) !! k = Some pin →
  output_amps (self w) !! k = Some a →
  output_on_off db (S fuel) k "on" duration min_off duty_cycle false w
  = (Ok None, w') →
  str_in ty pin_kinds && is_None pin = false
  ∧ (str_in ty current_kinds = true →
     (amp_load w + a <= db_Misc_max_amps db)%Q)
  ∧ ∃ fl, switch_on k duration duty_cycle w = (Ok fl, w')
          ∧ fl ≠ Returned (Some 0) ∧ fl ≠ Returned (Some 1).
Proof.
  intros Hwf Hk Hty Hpin Ha.
  rewrite (output_on_off_no_cascade _ _ _ _ _ _ _ _ Hk).
  cbn [String.eqb Ascii.eqb Bool.eqb]. unfold turn_on. rewrite bind_bind.
  rewrite (bind_Ok _ _ _ _ _ (invalid_pin_well_formed _ _ _ _ Hty Hpin)).
  destruct (str_in ty pin_kinds && is_None pin) eqn:Hvalid.
  { mrun. intros H. discriminate H. }
  destruct (exceeds_budget_or_min_off_well_formed db k min_off w ty a
              Hwf Hk Hty Ha) as (denied & Hrun & _ & Hroom & _).
  rewrite bind_bind, (bind_Ok _ _ _ _ _ Hrun).
  destruct denied; [mrun; intros H; discriminate H |].
  intros H. split; [reflexivity |]. split.
  - intros Hkind. apply Qgtb_false. now apply Hroom.
  - unfold bind in H.
    destruct (switch_on k duration duty_cycle w) as [[[v|d]|e] w1];
      cbn in H; try discriminate H.
    + injection H as -> ->. exists (Returned None). now repeat split.
    + injection H as <-. exists (Fallthrough d). now repeat split.
Qed.

Lemma entryb_set_time_turned_on c k v :
  entryb c k = true →
  entryb
    (set_output_time_turned_on (<[k:=v]> (output_time_turned_on c)) c) k
  = true.
Proof.
  apply registry_le_entryb. unfold registry_le. cbn.
  repeat split; try reflexivity;
    first [apply sub_keys_refl | apply sub_keys_insert].
Qed.

(** The "just turn output on" branch of lines 310-330. *)
Lemma untimed_switch_on k w ty pin trig duration duty_cycle fl w' :
  entryb (self w) k = true →
  output_type (self w) !! k = Some ty →
  str_in ty current_kinds = true →
  output_pin (self w) !! k = Some pin →
  str_in ty pin_kinds && is_None pin = false →
  output_trigger (self w) !! k = Some trig →
  (duration == 0)%Q →
  switch_on k duration duty_cycle w = (Ok fl, w') →
  fl ≠ Returned (Some 1) →
  observed_on w k = false
  ∧ clock w' = clock w
  ∧ self w'
    = set_output_time_turned_on
        (<[k:=Some (clock w)]> (output_time_turned_on (self w))) (self w)
  ∧ GPIO w'
    = (if String.eqb ty "wired"
       then match pin with
            | Some p => <[p:=trig]> (GPIO w)
            | None => GPIO w
            end
       else GPIO w).
Proof.
  intros He Hty Hkind Hpin Hvalid Htrig Hd.
  assert (Htruthy : truthy_float duration = false).
  { unfold truthy_float. apply negb_false_iff. now apply Qeq_bool_iff. }
  unfold switch_on. mrun. rewrite Hkind, Htruthy. cbn [andb]. cbv iota.
  rewrite (bind_Ok _ _ _ _ _ (is_on_well_formed k w He)).
  destruct (observed_on w k).
  { mrun. intros H Hfl. injection H as <- _. now elim Hfl. }
  unfold now. mrun. unfold setitem at 1. mrun.
  match goal with
  | |- context [bind (output_switch k "on" None) _ ?w0] => set (w1 := w0)
  end.
  destruct (output_switch_on_current k w1 ty pin trig)
    as (w2 & Hsw & Hself & Hclock & Hgpio);
    [ apply entryb_set_time_turned_on, He | exact Hty | exact Hkind
    | exact Hpin | exact Hvalid | exact Htrig | ].
  rewrite (bind_Ok _ _ _ _ _ Hsw). mrun.
  intros H _. injection H as _ <-.
  split; [reflexivity |]. split; [exact Hclock |].
  split; [exact Hself | exact Hgpio].
Qed.

Lemma is_on_pure_on ty pin trig gpio t_on pwm_t :
  str_in ty current_kinds = true →
  (ty = "wired" → ∃ p, pin = Some p ∧ p ≠ 0 ∧ gpio !! p = Some trig) →
  (str_in ty ["command"; "wireless_433MHz_pi_switch"] = true →
   ∃ t, t_on = Some t) →
  is_on_pure (Some ty) (Some pin) (Some trig) gpio (Some t_on) (Some pwm_t)
  = Ok true.
Proof.
  intros Hkind Hw Hc. rewrite str_in_current_kinds in Hkind.
  unfold is_on_pure. destruct (String.eqb ty "wired") eqn:E.
  - apply String.eqb_eq in E. destruct (Hw E) as (p & -> & Hp & Hg).
    cbn [truthy_pin]. unfold truthy_int.
    destruct (Z.eqb_spec p 0); [contradiction |]. cbn [negb].
    rewrite Hg. cbn. now rewrite Bool.eqb_reflx.
  - cbn [orb] in Hkind. unfold is_on_tail. rewrite Hkind.
    destruct (Hc Hkind) as (t & ->). reflexivity.
Qed.

(** X4: an untimed on request (duration 0, no cascade) that returns [None]
    for a registered current-drawing output (a wired output on a pin other
    than 0, a command output or a wireless output) has switched it: the
    output was observed off, it is now observed on, and its turn-on time is
    the time of the request. *)
Theorem untimed_on_request_turns_on db fuel k w ty pin duration min_off
    duty_cycle w' :
  well_formed w →
  output_id (self w) !! k ≠ None →
  output_type (self w) !! k = Some ty →
  str_in ty current_kinds = true →
  output_pin (self w) !! k = Some pin →
  (ty = "wired" → pin ≠ Some 0) →
  (duration == 0)%Q →
  output_on_off db (S fuel) k "on" duration min_off duty_cycle false w
  = (Ok None, w') →
  is_on k w = (Ok false, w)
  ∧ is_on k w' = (Ok true, w')
  ∧ output_time_turned_on (self w') !! k = Some (Some (clock w)).
Proof.
  intros Hwf Hk Hty Hkind Hpin Hp0 Hd Hrun.
  pose proof (well_formed_entry _ _ Hwf Hk) as He.
  destruct (entryb_lookups _ _ He)
    as (ty' & pin' & a & trig & until & last & timed & pwm_t & t_on
        & Hty' & Hpin' & Ha & Htrig & _ & _ & _ & Hpwm & Hton).
  assert (ty' = ty) by congruence. assert (pin' = pin) by congruence.
  subst ty' pin'. clear Hty' Hpin'.
  destruct (on_request_passed _ _ _ _ _ _ _ _ _ _ _ Hwf Hk Hty Hpin Ha Hrun)
    as (Hvalid & _ & fl & Hsw & _ & Hfl).
  destruct (untimed_switch_on _ _ _ _ _ _ _ _ _ He Hty Hkind Hpin Hvalid
              Htrig Hd Hsw Hfl) as (Hoff & Hclock & Hself & Hgpio).
  split; [rewrite (is_on_well_formed k w He); now rewrite Hoff |].
  split.
  - rewrite is_on_run, Hself, Hgpio. cbn.
    rewrite Hty, Hpin, Htrig, Hpwm, lookup_insert_eq. f_equal.
    apply is_on_pure_on; [exact Hkind | | eauto].
    intros ->. destruct pin as [p|]; [| discriminate Hvalid].
    exists p. split; [reflexivity |]. split; [| apply lookup_insert_eq].
    intros ->. now apply Hp0.
  - rewrite Hself. cbn. apply lookup_insert_eq.
Qed.

Lemma untimed_on_request_turns_on_witness :
  let db := BudgetScenario.db "wired" "command" in
  let w := BudgetScenario.started "wired" "command" in
  let w' := (output_on_off db 8 1 "on" 0 0 0 false w).2 in
  well_formed w
  ∧ output_id (self w) !! 1 ≠ None
  ∧ output_type (self w) !! 1 = Some "wired"
  ∧ str_in "wired" current_kinds = true
  ∧ output_pin (self w) !! 1 = Some (Some 17)
  ∧ ("wired" = "wired" → Some 17 ≠ Some 0)
  ∧ (0 == 0)%Q
  ∧ output_on_off db 8 1 "on" 0 0 0 false w = (Ok None, w')
  ∧ is_on 1 w = (Ok false, w)
  ∧ is_on 1 w' = (Ok true, w')
  ∧ output_time_turned_on (self w') !! 1 = Some (Some (clock w)).
Proof.
  cbv zeta.
  do 8 (refine (conj _ _); [by_compute |]).
  apply (untimed_on_request_turns_on (BudgetScenario.db "wired" "command") 7
           1 _ "wired" (Some 17) 0 0 0); by_compute.
Defined.

(** X5: after such an untimed on request for an output that has no timed
    interval pending, [output_sec_currently_on] asked at a later clock
    reading [t] answers the time elapsed since the request. *)
Theorem untimed_on_then_seconds_on db fuel k w ty pin duration min_off
    duty_cycle w' t :
  well_formed w →
  output_id (self w) !! k ≠ None →
  output_type (self w) !! k = Some ty →
  str_in ty current_kinds = true →
  output_pin (self w) !! k = Some pin →
  (ty = "wired" → pin ≠ Some 0) →
  output_on_duration (self w) !! k = Some false →
  (duration == 0)%Q →
  output_on_off db (S fuel) k "on" duration min_off duty_cycle false w
  = (Ok None, w') →
  output_sec_currently_on k (set_clock t w')
  = (Ok (t - clock w)%Q, set_clock t w').
Proof.
  intros Hwf Hk Hty Hkind Hpin Hp0 Htimed Hd Hrun.
  pose proof (well_formed_entry _ _ Hwf Hk) as He.
  destruct (entryb_lookups _ _ He)
    as (ty' & pin' & a & trig & until & last & timed & pwm_t & t_on
        & Hty' & Hpin' & Ha & Htrig & _ & _ & _ & Hpwm & Hton).
  assert (ty' = ty) by congruence. assert (pin' = pin) by congruence.
  subst ty' pin'. clear Hty' Hpin'.
  destruct (on_request_passed _ _ _ _ _ _ _ _ _ _ _ Hwf Hk Hty Hpin Ha Hrun)
    as (Hvalid & _ & fl & Hsw & _ & Hfl).
  destruct (untimed_switch_on _ _ _ _ _ _ _ _ _ He Hty Hkind Hpin Hvalid
              Htrig Hd Hsw Hfl) as (Hoff & Hclock & Hself & Hgpio).
  set (w2 := set_clock t w').
  assert (Hon2 : is_on k w2 = (Ok true, w2)).
  { rewrite is_on_run. unfold w2. cbn [self GPIO set_clock].
    rewrite Hself, Hgpio. cbn.
    rewrite Hty, Hpin, Htrig, Hpwm, lookup_insert_eq. f_equal.
    apply is_on_pure_on; [exact Hkind | | eauto].
    intros ->. destruct pin as [p|]; [| discriminate Hvalid].
    exists p. split; [reflexivity |]. split; [| apply lookup_insert_eq].
    intros ->. now apply Hp0. }
  assert (Htimed2 : output_on_duration (self w2) !! k = Some false)
    by (unfold w2; cbn [self set_clock]; now rewrite Hself).
  assert (Hton2 : output_time_turned_on (self w2) !! k
                  = Some (Some (clock w)))
    by (unfold w2; cbn [self set_clock]; rewrite Hself; cbn;
        apply lookup_insert_eq).
  assert (Hclock2 : clock w2 = t) by reflexivity.
  clearbody w2.
  unfold output_sec_currently_on. rewrite (bind_Ok _ _ _ _ _ Hon2).
  cbn [negb]. mrun_deep. now rewrite Hclock2.
Qed.

Lemma untimed_on_then_seconds_on_witness :
  let db := BudgetScenario.db "wired" "command" in
  let w := BudgetScenario.started "wired" "command" in
  let w' := (output_on_off db 8 2 "on" 0 0 0 false w).2 in
  well_formed w
  ∧ output_id (self w) !! 2 ≠ None
  ∧ output_type (self w) !! 2 = Some "command"
  ∧ str_in "command" current_kinds = true
  ∧ output_pin (self w) !! 2 = Some (Some 27)
  ∧ ("command" = "wired" → Some 27 ≠ Some 0)
  ∧ output_on_duration (self w) !! 2 = Some false
  ∧ (0 == 0)%Q
  ∧ output_on_off db 8 2 "on" 0 0 0 false w = (Ok None, w')
  ∧ output_sec_currently_on 2 (set_clock 20 w')
    = (Ok (20 - clock w)%Q, set_clock 20 w').
Proof.
  cbv zeta.
  do 9 (refine (conj _ _); [by_compute |]).
  apply (untimed_on_then_seconds_on (BudgetScenario.db "wired" "command") 7
           2 _ "command" (Some 27) 0 0 0); by_compute.
Defined.




(** * Requests that are turned down *)

(** X7: a turn-on request for an output whose kind needs a pin (PWM, wired,
    wireless) and that has none is answered with 1 and changes nothing,
    whatever the budget, the duration and the duty cycle. *)
Theorem turn_on_without_pin_denied db fuel k w ty duration min_off
    duty_cycle trigger_conditionals :
  output_id (self w) !! k ≠ None →
  output_type (self w) !! k = Some ty →
  str_in ty pin_kinds = true →
  output_pin (self w) !! k = Some None →
  output_on_off db (S fuel) k "on" duration min_off duty_cycle
    trigger_conditionals w = (Ok (Some 1), w).
Proof.
  intros Hk Hty Hkind Hpin. simpl. unfold output_on_off_body.
  rewrite (bind_Ok _ _ _ _ _ (output_exists_known _ _ Hk)). cbn [negb].
  cbn [String.eqb Ascii.eqb Bool.eqb]. unfold turn_on. rewrite !bind_bind.
  rewrite (bind_Ok _ _ _ _ _ (invalid_pin_well_formed _ _ _ _ Hty Hpin)).
  rewrite Hkind. cbn [andb is_None]. now mrun.
Qed.

Lemma turn_on_without_pin_denied_witness :
  let db := ExpiryScenario.db "wired" None in
  let w := init db 8 0 in
  output_id (self w) !! 1 ≠ None
  ∧ output_type (self w) !! 1 = Some "wired"
  ∧ str_in "wired" pin_kinds = true
  ∧ output_pin (self w) !! 1 = Some None
  ∧ output_on_off db 8 1 "on" 30 0 0 true w = (Ok (Some 1), w).
Proof.
  cbv zeta.
  do 4 (refine (conj _ _); [by_compute |]).
  apply (turn_on_without_pin_denied (ExpiryScenario.db "wired" None) 7 1 _
           "wired" 30 0 0 true); by_compute.
Defined.

(** X8: a turn-on request for a PWM output whose frequency is not positive
    is answered with 1 and changes nothing: no duty cycle is sent and no
    turn-on time is recorded. *)
Theorem pwm_without_frequency_denied db fuel k w pin hz duration min_off
    duty_cycle trigger_conditionals :
  output_id (self w) !! k ≠ None →
  output_type (self w) !! k = Some "pwm" →
  output_pin (self w) !! k = Some (Some pin) →
  pwm_hertz (self w) !! k = Some hz →
  hz ≤ 0 →
  output_on_off db (S fuel) k "on" duration min_off duty_cycle
    trigger_conditionals w = (Ok (Some 1), w).
Proof.
  intros Hk Hty Hpin Hhz Hle. simpl. unfold output_on_off_body.
  rewrite (bind_Ok _ _ _ _ _ (output_exists_known _ _ Hk)). cbn [negb].
  cbn [String.eqb Ascii.eqb Bool.eqb]. unfold turn_on. rewrite !bind_bind.
  rewrite (bind_Ok _ _ _ _ _ (invalid_pin_well_formed _ _ _ _ Hty Hpin)).
  change (str_in "pwm" pin_kinds && is_None (Some pin)) with false.
  cbv iota. unfold exceeds_budget_or_min_off. mrun.
  change (str_in "pwm" current_kinds) with false. cbv iota. mrun.
  unfold switch_on. mrun.
  change (str_in "pwm" current_kinds) with false.
  cbn [andb String.eqb Ascii.eqb Bool.eqb]. mrun.
  destruct (Z.leb_spec hz 0) as [_ | Hgt]; [| lia]. now mrun.
Qed.

Lemma pwm_without_frequency_denied_witness :
  let db := MaintenanceScenario.stalled_db in
  let w := init db 8 0 in
  output_id (self w) !! 1 ≠ None
  ∧ output_type (self w) !! 1 = Some "pwm"
  ∧ output_pin (self w) !! 1 = Some (Some 18)
  ∧ pwm_hertz (self w) !! 1 = Some 0
  ∧ 0 ≤ 0
  ∧ output_on_off db 8 1 "on" 0 0 50 true w = (Ok (Some 1), w).
Proof.
  cbv zeta.
  do 5 (refine (conj _ _); [by_compute |]).
  apply (pwm_without_frequency_denied MaintenanceScenario.stalled_db 7 1 _
           18 0 0 0 50 true); by_compute.
Defined.

(** X9: a turn-on request with a minimum off period [min_off] for a
    current-drawing output that is off, fits the budget, and was switched
    off less than [min_off] seconds ago is answered with 1 and changes
    nothing; once [min_off] seconds have passed the guard of lines 209-243
    lets it through. *)
Theorem min_off_period_enforced db fuel k w ty pin a until duration min_off
    duty_cycle trigger_conditionals :
  well_formed w →
  output_id (self w) !! k ≠ None →
  output_type (self w) !! k = Some ty →
  str_in ty current_kinds = true →
  output_pin (self w) !! k = Some pin →
  str_in ty pin_kinds && is_None pin = false →
  output_amps (self w) !! k = Some a →
  (amp_load w + a <= db_Misc_max_amps db)%Q →
  observed_on w k = false →
  output_on_until (self w) !! k = Some until →
  (until < clock w)%Q →
  ¬ (min_off == 0)%Q →
  ((clock w - until < min_off)%Q →
   output_on_off db (S fuel) k "on" duration min_off duty_cycle
     trigger_conditionals w = (Ok (Some 1), w))
  ∧ ((min_off <= clock w - until)%Q →
     exceeds_budget_or_min_off db k min_off w = (Ok false, w)).
Proof.
  intros Hwf Hk Hty Hkind Hpin Hvalid Ha Hroom Hoff Huntil Hpast Hmin.
  pose proof (well_formed_entry _ _ Hwf Hk) as He.
  assert (Htruthy : truthy_float min_off = true).
  { unfold truthy_float. apply negb_true_iff. apply not_true_is_false.
    intros H. apply Hmin. now apply Qeq_bool_eq. }
  assert (Hguard : exceeds_budget_or_min_off db k min_off w
                   = (Ok (Qltb (clock w - until) min_off), w)).
  { unfold exceeds_budget_or_min_off. mrun. rewrite Hkind.
    rewrite (bind_Ok _ _ _ _ _ (current_amp_load_well_formed _ Hwf)).
    cbv zeta. mrun.
    apply Qgtb_false in Hroom. rewrite Hroom. unfold now. mrun.
    rewrite Htruthy.
    rewrite bind_bind, (bind_Ok _ _ _ _ _ (is_on_well_formed k w He)), Hoff.
    cbn [negb]. mrun.
    apply Qgtb_true in Hpast. rewrite Hpast. now mrun. }
  split.
  - intros Hshort. simpl. unfold output_on_off_body.
    rewrite (bind_Ok _ _ _ _ _ (output_exists_known _ _ Hk)). cbn [negb].
    cbn [String.eqb Ascii.eqb Bool.eqb]. unfold turn_on. rewrite !bind_bind.
    rewrite (bind_Ok _ _ _ _ _ (invalid_pin_well_formed _ _ _ _ Hty Hpin)).
    rewrite Hvalid. cbv iota.
    rewrite bind_bind, (bind_Ok _ _ _ _ _ Hguard).
    apply Qltb_true in Hshort. rewrite Hshort. now mrun.
  - intros Hlong. rewrite Hguard. apply Qltb_false in Hlong.
    now rewrite Hlong.
Qed.

Lemma min_off_period_enforced_witness :
  let db := BudgetScenario.db "wired" "command" in
  let w := set_clock 30 (BudgetScenario.started "wired" "command") in
  well_formed w
  ∧ output_id (self w) !! 2 ≠ None
  ∧ output_type (self w) !! 2 = Some "command"
  ∧ str_in "command" current_kinds = true
  ∧ output_pin (self w) !! 2 = Some (Some 27)
  ∧ str_in "command" pin_kinds && is_None (Some 27) = false
  ∧ output_amps (self w) !! 2 = Some 6%Q
  ∧ (amp_load w + 6 <= db_Misc_max_amps db)%Q
  ∧ observed_on w 2 = false
  ∧ output_on_until (self w) !! 2 = Some 0%Q
  ∧ (0 < clock w)%Q
  ∧ ¬ (60 == 0)%Q
  ∧ ((clock w - 0 < 60)%Q →
     output_on_off db 8 2 "on" 0 60 0 true w = (Ok (Some 1), w))
  ∧ ((60 <= clock w - 0)%Q →
     exceeds_budget_or_min_off db 2 60 w = (Ok false, w)).
Proof.
  cbv zeta.
  do 12 (refine (conj _ _); [by_compute |]).
  apply (min_off_period_enforced (BudgetScenario.db "wired" "command") 7 2 _
           "command" (Some 27) 6 0 0 60 0 true); by_compute.
Defined.

(** * The scheduler loop with nothing to do *)

(** X10: when no registered output has a timed interval that is past its
    scheduled-off time (its [output_on_until] is not before the clock, or it
    has no timed interval, or it has no pin), an iteration of the scheduler
    loop changes nothing and calls nothing. *)
Theorem run_iteration_idle db fuel w :
  well_formed w →
  (∀ k until,
     output_id (self w) !! k ≠ None →
     output_on_until (self w) !! k = Some until →
     (until < clock w)%Q →
     output_on_duration (self w) !! k = Some false
     ∨ output_pin (self w) !! k = Some None) →
  run_iteration db fuel w = (Ok tt, w).
Proof.
  intros Hwf Hidle. unfold run_iteration, now, registered_ids. mrun.
  assert (Hids : ∀ k, k ∈ (map_to_list (output_id (self w))).*1 →
                      output_id (self w) !! k ≠ None).
  { intros k Hin. apply list_elem_of_fmap in Hin as ([k' v] & -> & Hin).
    apply elem_of_map_to_list in Hin. cbn. congruence. }
  induction ((map_to_list (output_id (self w))).*1) as [|k l IH];
    [reflexivity |].
  cbn [for_each].
  assert (Hk : output_id (self w) !! k ≠ None)
    by (apply Hids; now left).
  pose proof (well_formed_entry _ _ Hwf Hk) as He.
  destruct (entryb_lookups _ _ He)
    as (ty & pin & a & trig & until & last & timed & pwm_t & t_on
        & _ & Hpin & _ & _ & Huntil & _ & Htimed & _ & _).
  mrun.
  assert (Hnot : (if Qltb until (clock w)
                  then if timed then is_not_None pin else false
                  else false) = false).
  { destruct (Qltb until (clock w)) eqn:Hlt; [| reflexivity].
    apply Qltb_true in Hlt.
    destruct (Hidle k until Hk Huntil Hlt) as [H | H].
    - assert (timed = false) by congruence. now subst.
    - assert (pin = None) by congruence. subst. now destruct timed. }
  destruct (Qltb until (clock w)); mrun;
    [destruct timed; mrun |]; rewrite ?Hnot; cbv iota; mrun;
    apply IH; intros k' Hin; apply Hids; now right.
Qed.

Lemma run_iteration_idle_witness :
  let db := BudgetScenario.db "wired" "command" in
  let w := set_clock 60 (BudgetScenario.x_on "wired" "command") in
  well_formed w
  ∧ (∀ k until,
       output_id (self w) !! k ≠ None →
       output_on_until (self w) !! k = Some until →
       (until < clock w)%Q →
       output_on_duration (self w) !! k = Some false
       ∨ output_pin (self w) !! k = Some None)
  ∧ run_iteration db 8 w = (Ok tt, w).
Proof.
  cbv zeta.
  set (w := set_clock 60 (BudgetScenario.x_on "wired" "command")).
  assert (Hwf : well_formed w) by by_compute.
  assert (Hidle : ∀ k until,
            output_id (self w) !! k ≠ None →
            output_on_until (self w) !! k = Some until →
            (until < clock w)%Q →
            output_on_duration (self w) !! k = Some false
            ∨ output_pin (self w) !! k = Some None).
  { intros k until Hk _ _. left.
    destruct (entryb_lookups _ _ (well_formed_entry _ _ Hwf Hk))
      as (ty & pin & a & trig & until' & last & timed & pwm_t & t_on
          & _ & _ & _ & _ & _ & _ & Htimed & _).
    assert (Hall : map_Forall (λ _ v, v = false)
                     (output_on_duration (self w))).
    { apply (bool_decide_unpack _). vm_compute. exact I. }
    rewrite Htimed. f_equal. exact (Hall _ _ Htimed). }
  refine (conj Hwf (conj Hidle _)).
  exact (run_iteration_idle (BudgetScenario.db "wired" "command") 8 w Hwf
           Hidle).
Defined.

(** * Reads of a registered output *)

Lemma output_state_entry k w :
  entryb (self w) k = true → ∃ s, output_state k w = (Ok s, w).
Proof.
  intros He.
  destruct (entryb_lookups _ _ He)
    as (ty & pin & a & trig & until & last & timed & pwm_t & t_on
        & Hty & Hpin & _ & Htrig & _ & _ & _ & _ & Hton).
  destruct (String.eqb ty "wired") eqn:Hw.
  { apply String.eqb_eq in Hw. subst ty.
    rewrite (output_state_wired _ _ _ _ Hty Hpin Htrig). eauto. }
  destruct (str_in ty ["command"; "wireless_433MHz_pi_switch"]) eqn:Hc.
  { rewrite (output_state_timed _ _ _ _ Hty Hc Hton). eauto. }
  unfold output_state. mrun. rewrite (has_key_lookup _ _ _ Hty). mrun.
  rewrite Hw. mrun. rewrite Hc. mrun.
  destruct (String.eqb ty "pwm"); mrun; [| eauto].
  unfold has_key.
  destruct (pwm_state (self w) !! k) as [s|] eqn:Hs; mrun; [| eauto].
  destruct (truthy_duty s); mrun; eauto.
Qed.

Lemma output_sec_currently_on_entry k w :
  entryb (self w) k = true →
  ∃ sec, output_sec_currently_on k w = (Ok sec, w).
Proof.
  intros He.
  destruct (entryb_lookups _ _ He)
    as (ty & pin & a & trig & until & last & timed & pwm_t & t_on
        & _ & _ & _ & _ & Huntil & Hlast & Htimed & _ & Hton).
  unfold output_sec_currently_on.
  rewrite (bind_Ok _ _ _ _ _ (is_on_well_formed k w He)).
  destruct (observed_on w k); cbn [negb]; mrun; [| eauto].
  unfold now. mrun. destruct timed; mrun.
  - destruct (Qgtb until (clock w)); mrun; eauto.
  - destruct t_on as [t|]; cbn [is_not_None is_None negb datetime_sub];
      mrun; cbn [datetime_sub]; mrun; eauto.
Qed.

(** X11: in every world the controller can reach from its constructor by
    requests, scheduler iterations and the passing of time, the reads of a
    registered output return: [is_on], [output_state],
    [output_sec_currently_on] and [current_amp_load] raise nothing and
    change nothing. *)
Theorem reachable_reads_return db w k :
  reachable db w →
  output_id (self w) !! k ≠ None →
  (∃ on, is_on k w = (Ok on, w))
  ∧ (∃ state, output_state k w = (Ok state, w))
  ∧ (∃ sec, output_sec_currently_on k w = (Ok sec, w))
  ∧ (∃ load, current_amp_load w = (Ok load, w)).
Proof.
  intros Hreach Hk.
  pose proof (reachable_well_formed _ _ Hreach) as Hwf.
  pose proof (well_formed_entry _ _ Hwf Hk) as He.
  split; [eexists; now apply is_on_well_formed |].
  split; [now apply output_state_entry |].
  split; [now apply output_sec_currently_on_entry |].
  eexists. now apply current_amp_load_well_formed.
Qed.

Lemma reachable_reads_return_witness :
  let db := BudgetScenario.db "wired" "command" in
  let w := BudgetScenario.x_on "wired" "command" in
  reachable db w
  ∧ output_id (self w) !! 1 ≠ None
  ∧ (∃ on, is_on 1 w = (Ok on, w))
  ∧ (∃ state, output_state 1 w = (Ok state, w))
  ∧ (∃ sec, output_sec_currently_on 1 w = (Ok sec, w))
  ∧ (∃ load, current_amp_load w = (Ok load, w)).
Proof.
  cbv zeta.
  assert (Hreach : reachable (BudgetScenario.db "wired" "command")
                     (BudgetScenario.x_on "wired" "command")).
  { unfold BudgetScenario.x_on, BudgetScenario.on. apply reach_request.
    unfold BudgetScenario.started. apply reach_init. }
  assert (Hk : output_id (self (BudgetScenario.x_on "wired" "command")) !! 1
               ≠ None) by by_compute.
  refine (conj Hreach (conj Hk _)).
  exact (reachable_reads_return _ _ 1 Hreach Hk).
Defined.

(** X12: no request and no scheduler iteration changes the configuration
    of any output: whatever the arguments, the cascade, and whether or not
    it raises, [output_on_off] and the loop body of [run] leave the ids,
    kinds, pins, rated draws, trigger levels, commands and PWM settings as
    they were. *)
Theorem requests_keep_configuration db fuel k state duration min_off
    duty_cycle trigger_conditionals w :
  same_configuration (self w)
    (self (output_on_off db fuel k state duration min_off duty_cycle
             trigger_conditionals w).2)
  ∧ same_configuration (self w) (self (run_iteration db fuel w).2).
Proof.
  assert (H : ∀ c c', registry_le c c' → same_configuration c c').
  { intros c c' (H1 & H2 & H3 & H4 & H5 & H6 & H7 & H8 & H9 & H10 & _).
    unfold same_configuration. now repeat split. }
  split; apply H; [apply registry_output_on_off | apply registry_run_iteration].
Qed.

(** * Maintenance: adding, modifying and deleting outputs *)

Lemma db_retrieve_Output_id db k o :
  db_retrieve_Output db k = Some o → Output.id o = k.
Proof.
  unfold db_retrieve_Output. intros H. apply find_some in H as [_ H].
  now apply Z.eqb_eq in H.
Qed.



(** A successful [add_mod_output]: the pin was turned off without an
    exception, the row was stored, and the pin was set up. *)
Lemma add_mod_output_success db k w o w' :
  db_retrieve_Output db k = Some o →
  add_mod_output db k w = (Ok (0, success), w') →
  ∃ w2,
    let w3 := set_self (store_modified_output k o (clock w2) (self w2)) w2 in
    (if truthy_pin (Output.pin o) then setup_pin k w3 else (Ok tt, w3))
    = (Ok tt, w').
Proof.
  intros Hrow. pose proof (db_retrieve_Output_id _ _ _ Hrow) as Hid.
  unfold add_mod_output. rewrite Hrow, Hid. unfold try_catch.
  match goal with
  | |- context [match ?m w with _ => _ end] =>
      destruct (m w) as [[r|e] wb] eqn:Hbody
  end; [| intros H; discriminate H].
  intros H. injection H as -> ->.
  unfold setitem at 1 in Hbody. rewrite bind_modify in Hbody.
  apply bind_inv in Hbody as [(a & w2 & _ & Hbody) | (e & _ & He)];
    [| discriminate He].
  exists w2. cbv zeta.
  unfold now in Hbody. rewrite bind_gets, bind_modify in Hbody.
  erewrite bind_getitem in Hbody by apply lookup_insert_eq.
  apply bind_inv in Hbody as [([] & w4 & Hsetup & Hbody) | (e & _ & He)];
    [| discriminate He].
  assert (w4 = w') as ->.
  { unfold output_id_of, bind, getitem, ret in Hbody.
    destruct (output_id (self w4) !! k); [| discriminate Hbody].
    destruct (output_name (self w4) !! k); [| discriminate Hbody].
    now injection Hbody. }
  destruct (truthy_pin (Output.pin o)); exact Hsetup.
Qed.



(** * Adding a PWM output while the controller runs *)

#[global] Instance pwm_time_frame_preorder : PreOrder pwm_time_frame.
Proof.
  split.
  - intros w. now split.
  - intros w1 w2 w3 [H1 H2] [H1' H2']. split; congruence.
Qed.

Create HintDb frame.

Lemma frame_readonly {A} (m : M A) : readonly m → steps pwm_time_frame m.
Proof. apply steps_readonly. apply pwm_time_frame_preorder. Qed.

Lemma frame_emit e : steps pwm_time_frame (emit e).
Proof. intros w. now split. Qed.

Lemma frame_GPIO_output pin level : steps pwm_time_frame (GPIO_output pin level).
Proof. intros w. destruct pin; now split. Qed.

Lemma frame_setitem_pwm_state k v :
  steps pwm_time_frame (setitem pwm_state set_pwm_state k v).
Proof. intros w. now split. Qed.

Lemma frame_setitem_wireless_pi_switch k v :
  steps pwm_time_frame (setitem wireless_pi_switch set_wireless_pi_switch k v).
Proof. intros w. now split. Qed.

Lemma frame_setitem_pwm_output k v :
  steps pwm_time_frame (setitem pwm_output set_pwm_output k v).
Proof. intros w. now split. Qed.

#[local] Hint Resolve frame_emit frame_GPIO_output frame_setitem_pwm_state
  frame_setitem_wireless_pi_switch frame_setitem_pwm_output : frame.
#[local] Hint Extern 1 (steps pwm_time_frame _) =>
  apply frame_readonly; solve [auto with readonly] : frame.

Ltac frame_tac :=
  repeat first
    [ solve [auto with frame]
    | assumption
    | progress cbv zeta
    | match goal with
      | |- steps _ (bind _ _) => apply steps_bind; [exact _ | | intros ?]
      | |- steps _ (try_except _) => apply steps_try_except
      | |- steps _ (if _ then _ else _) => apply steps_if
      end ].

Lemma frame_output_switch k state duty_cycle :
  steps pwm_time_frame (output_switch k state duty_cycle).
Proof. unfold output_switch. frame_tac. Qed.

Lemma frame_setup_pin k : steps pwm_time_frame (setup_pin k).
Proof. unfold setup_pin. frame_tac. Qed.

#[local] Hint Resolve readonly_output_state : readonly.
#[local] Hint Resolve frame_output_switch frame_setup_pin : frame.

Lemma frame_turn_current_pin_off k :
  steps pwm_time_frame (turn_current_pin_off k).
Proof. unfold turn_current_pin_off. frame_tac. Qed.
#[local] Hint Resolve frame_turn_current_pin_off : frame.

Lemma steps_try_catch (R : World → World → Prop) `{!PreOrder R} {A}
    (m : M A) (h : exn → M A) :
  steps R m → (∀ e, steps R (h e)) → steps R (try_catch m h).
Proof.
  intros Hm Hh w. unfold try_catch. specialize (Hm w).
  destruct (m w) as [[a|e] w1]; [exact Hm |].
  etransitivity; [exact Hm | apply Hh].
Qed.

(** [is_on] raises nothing but [KeyError]. *)
Lemma is_on_raises_KeyError k w e w' :
  is_on k w = (Raise e, w') → e = KeyError.
Proof.
  rewrite is_on_run. intros H. injection H as H _. revert H.
  assert (Htail : ∀ ty t_on pwm_t,
            is_on_tail ty t_on pwm_t = Raise e → e = KeyError).
  { intros ty t_on pwm_t. unfold is_on_tail.
    destruct (str_in ty _); [destruct t_on; congruence |].
    destruct (String.eqb ty "pwm"); [destruct pwm_t |]; congruence. }
  unfold is_on_pure.
  destruct (output_type (self w) !! k) as [ty|]; [| congruence].
  destruct (String.eqb ty "wired"); [| apply Htail].
  destruct (output_pin (self w) !! k) as [[p|]|]; cbn [truthy_pin];
    [| apply Htail | congruence].
  destruct (truthy_int p); [| apply Htail].
  destruct (output_trigger (self w) !! k); congruence.
Qed.

Lemma amp_load_loop_KeyError k a items acc w :
  (k, a) ∈ items →
  is_on k w = (Raise KeyError, w) →
  amp_load_loop items acc w = (Raise KeyError, w).
Proof.
  intros Hin Hk. revert acc.
  induction items as [|[j b] items IH]; intros acc.
  - inversion Hin.
  - cbn [amp_load_loop].
    apply elem_of_cons in Hin as [E | Hin].
    + injection E as <- <-. now rewrite (bind_Raise _ _ _ _ _ Hk).
    + pose proof (readonly_run _ w (readonly_is_on j)) as Hj.
      destruct (is_on j w).1 as [on|e] eqn:Hr.
      * rewrite (bind_Ok _ _ _ _ _ Hj). now apply IH.
      * rewrite (bind_Raise _ _ _ _ _ Hj).
        now rewrite (is_on_raises_KeyError _ _ _ _ Hj).
Qed.

Lemma try_catch_world {A} (m : M A) (h : exn → M A) w :
  (∀ e w1, (h e w1).2 = w1) → (try_catch m h w).2 = (m w).2.
Proof.
  intros Hh. unfold try_catch. destruct (m w) as [[a|e] w1]; [reflexivity |].
  apply Hh.
Qed.

Lemma frame_preserves (P : World → Prop) {A} (m : M A) :
  (∀ w w', pwm_time_frame w w' → P w → P w') →
  steps pwm_time_frame m → preserves P m.
Proof. intros HP Hm w Hw. exact (HP _ _ (Hm w) Hw). Qed.

(** However [add_mod_output] ends for a PWM row, the output is left with
    the PWM kind and without a PWM turn-on time if it had none. *)
Lemma add_mod_output_pwm_entry db k w o :
  db_retrieve_Output db k = Some o →
  Output.relay_type o = "pwm" →
  pwm_time_turned_on (self w) !! k = None →
  let w' := (add_mod_output db k w).2 in
  output_type (self w') !! k = Some "pwm"
  ∧ pwm_time_turned_on (self w') !! k = None.
Proof.
  intros Hrow Hpwm Hnone. cbv zeta.
  pose proof (db_retrieve_Output_id _ _ _ Hrow) as Hid.
  unfold add_mod_output. rewrite Hrow, Hid, Hpwm.
  rewrite try_catch_world by reflexivity.
  unfold setitem at 1. rewrite bind_modify.
  set (P := λ w0 : World, output_type (self w0) !! k = Some "pwm"
                          ∧ pwm_time_turned_on (self w0) !! k = None).
  match goal with
  | |- context [(?m ?w1).2] => change (P (m w1).2); cut (preserves P m);
      [ intros H; apply H; split; [apply lookup_insert_eq | exact Hnone] |]
  end.
  assert (HP : ∀ w0 w1, pwm_time_frame w0 w1 → P w0 → P w1).
  { intros w0 w1 [H1 H2] [H3 H4]. split; congruence. }
  apply preserves_bind;
    [apply (frame_preserves P _ HP), frame_turn_current_pin_off | intros _].
  apply preserves_bind; [apply preserves_readonly, readonly_now | intros t].
  apply preserves_bind.
  { intros w0 [H1 H2]. split; [| exact H2]. cbn. rewrite lookup_insert_eq.
    now rewrite Hpwm. }
  intros _.
  apply preserves_bind;
    [apply preserves_readonly, readonly_getitem | intros pin].
  apply preserves_bind.
  { apply preserves_if; [| apply preserves_readonly, readonly_ret].
    apply (frame_preserves P _ HP), frame_setup_pin. }
  intros _. apply preserves_readonly. unfold output_id_of. readonly_tac.
Qed.

(** X14: [add_mod_output] never records a PWM turn-on time.  After it has
    run for a PWM row whose id had none (an output added while the
    controller runs), [is_on] raises [KeyError] for that output; and if the
    call reported success, [current_amp_load] raises [KeyError] as well, so
    that every later turn-on request for a current-drawing output raises
    instead of switching. *)
Theorem added_pwm_output_breaks_reads db k w o :
  db_retrieve_Output db k = Some o →
  Output.relay_type o = "pwm" →
  pwm_time_turned_on (self w) !! k = None →
  let w' := (add_mod_output db k w).2 in
  is_on k w' = (Raise KeyError, w')
  ∧ ((add_mod_output db k w).1 = Ok (0, success) →
     current_amp_load w' = (Raise KeyError, w')
     ∧ ∀ fuel j ty pin duration min_off duty_cycle trigger_conditionals,
         output_id (self w') !! j ≠ None →
         output_type (self w') !! j = Some ty →
         str_in ty current_kinds = true →
         output_pin (self w') !! j = Some pin →
         str_in ty pin_kinds && is_None pin = false →
         output_on_off db (S fuel) j "on" duration min_off duty_cycle
           trigger_conditionals w' = (Raise KeyError, w')).
Proof.
  intros Hrow Hpwm Hnone.
  destruct (add_mod_output_pwm_entry _ _ _ _ Hrow Hpwm Hnone) as [Hty' Ht'].
  cbv zeta.
  destruct (add_mod_output db k w) as [r w'] eqn:Hrun. cbn [fst snd] in *.
  assert (Hon : is_on k w' = (Raise KeyError, w')).
  { rewrite is_on_run, Hty', Ht'. reflexivity. }
  split; [exact Hon |]. intros ->.
  destruct (add_mod_output_success _ _ _ _ _ Hrow Hrun) as (w2 & Hsetup).
  cbv zeta in Hsetup.
  set (w3 := set_self (store_modified_output k o (clock w2) (self w2)) w2)
    in Hsetup.
  assert (Ha3 : output_amps (self w3) !! k = Some (Output.amps o))
    by apply lookup_insert_eq.
  clearbody w3.
  assert (Hle : registry_le (self w3) (self w')).
  { destruct (truthy_pin (Output.pin o)).
    - pose proof (registry_setup_pin k w3) as H. now rewrite Hsetup in H.
    - injection Hsetup as <-. apply keeps_registry_preorder. }
  pose proof Hle as (_ & _ & _ & _ & Ha' & _).
  assert (Hload : current_amp_load w' = (Raise KeyError, w')).
  { unfold current_amp_load. rewrite bind_gets.
    apply (amp_load_loop_KeyError k (Output.amps o)); [| exact Hon].
    apply elem_of_map_to_list. now rewrite Ha'. }
  split; [exact Hload |].
  intros fuel j ty pin duration min_off duty_cycle trig Hj Hty Hkind Hpin
    Hvalid.
  simpl. unfold output_on_off_body.
  rewrite (bind_Ok _ _ _ _ _ (output_exists_known _ _ Hj)). cbn [negb].
  cbn [String.eqb Ascii.eqb Bool.eqb].
  apply bind_Raise. unfold turn_on.
  rewrite (bind_Ok _ _ _ _ _ (invalid_pin_well_formed _ _ _ _ Hty Hpin)).
  rewrite Hvalid. apply bind_Raise.
  unfold exceeds_budget_or_min_off. rewrite (bind_getitem _ _ _ _ _ Hty).
  rewrite Hkind. now apply bind_Raise.
Qed.

Lemma added_pwm_output_breaks_reads_witness :
  let db := MaintenanceScenario.hotplug_db in
  let w := MaintenanceScenario.running in
  let o := PwmScenario.pwm_output_row 3 "pigpio_any" 12 in
  let w' := (add_mod_output db 3 w).2 in
  db_retrieve_Output db 3 = Some o
  ∧ Output.relay_type o = "pwm"
  ∧ pwm_time_turned_on (self w) !! 3 = None
  ∧ (add_mod_output db 3 w).1 = Ok (0, success)
  ∧ is_on 3 w' = (Raise KeyError, w')
  ∧ ((add_mod_output db 3 w).1 = Ok (0, success) →
     current_amp_load w' = (Raise KeyError, w')
     ∧ ∀ fuel j ty pin duration min_off duty_cycle trigger_conditionals,
         output_id (self w') !! j ≠ None →
         output_type (self w') !! j = Some ty →
         str_in ty current_kinds = true →
         output_pin (self w') !! j = Some pin →
         str_in ty pin_kinds && is_None pin = false →
         output_on_off db (S fuel) j "on" duration min_off duty_cycle
           trigger_conditionals w' = (Raise KeyError, w')).
Proof.
  cbv zeta.
  do 4 (refine (conj _ _); [by_compute |]).
  apply (added_pwm_output_breaks_reads MaintenanceScenario.hotplug_db 3
           MaintenanceScenario.running
           (PwmScenario.pwm_output_row 3 "pigpio_any" 12)); by_compute.
Defined.

(** * Deleting an output *)

Lemma registry_turn_current_pin_off k :
  steps keeps_registry (turn_current_pin_off k).
Proof. unfold turn_current_pin_off. registry_tac. Qed.

Lemma has_key_delete_same {V} (m : gmap Z V) k :
  has_key (delete k m) k = false.
Proof. unfold has_key. now rewrite lookup_delete_eq. Qed.

Lemma has_key_delete_other {V} (m : gmap Z V) k j :
  k ≠ j → has_key (delete k m) j = has_key m j.
Proof. intros H. unfold has_key. now rewrite lookup_delete_ne. Qed.

Lemma remove_output_entry_other c k j :
  k ≠ j → entryb c j = true → entryb (remove_output k c) j = true.
Proof.
  intros Hne. unfold entryb, handle_ok, remove_output. cbn.
  rewrite !has_key_delete_other by assumption.
  now rewrite !lookup_delete_ne by assumption.
Qed.

Lemma well_formed_remove_output k w :
  well_formed w → well_formed (set_self (remove_output k (self w)) w).
Proof.
  intros Hwf j Hj. cbn in Hj |- *.
  destruct (decide (k = j)) as [<- | Hne].
  - now rewrite !has_key_delete_same in Hj.
  - rewrite !has_key_delete_other in Hj by assumption.
    apply remove_output_entry_other; [assumption |]. now apply Hwf.
Qed.

(** Whatever [del_output] does, and whether or not it raises, the registry
    stays well formed. *)
Lemma del_output_well_formed k w :
  well_formed w → well_formed (del_output k w).2.
Proof.
  intros Hwf. unfold del_output.
  pose proof (keeps_registry_well_formed _ _
                (registry_turn_current_pin_off k w) Hwf) as Hwf1.
  unfold bind at 1.
  destruct (turn_current_pin_off k w) as [[[]|e] w1]; cbn [snd] in *;
    [| exact Hwf1].
  unfold try_catch, output_id_of, bind, getitem, modify, ret.
  destruct (output_id (self w1) !! k); [| exact Hwf1].
  destruct (output_name (self w1) !! k); [| exact Hwf1].
  cbn [snd]. now apply well_formed_remove_output.
Qed.

(** "Turn current pin off" on a registered output that has a pin when its
    kind needs one: it cannot raise, it keeps the registry, and a wired
    output's latch ends away from the trigger level. *)
Lemma turn_current_pin_off_run k w ty pin trig :
  entryb (self w) k = true →
  output_type (self w) !! k = Some ty →
  output_pin (self w) !! k = Some pin →
  output_trigger (self w) !! k = Some trig →
  str_in ty pin_kinds && is_None pin = false →
  ∃ w1,
    turn_current_pin_off k w = (Ok tt, w1)
    ∧ keeps_registry w w1
    ∧ output_name (self w1) = output_name (self w)
    ∧ (ty = "wired" → ∀ p, pin = Some p →
       default false (GPIO w1 !! p) = negb trig).
Proof.
  intros He Hty Hpin Htrig Hvalid. unfold turn_current_pin_off.
  rewrite bind_gets, (has_key_lookup _ _ _ Hpin).
  destruct (output_switch_off_run k w ty pin trig He Hty Hpin Htrig Hvalid)
    as (w1 & Hsw & _ & Hself & Hgpio).
  assert (Hname : output_name (self w1) = output_name (self w))
    by (rewrite Hself; now destruct (String.eqb ty "pwm")).
  assert (Hkeep : keeps_registry w w1).
  { pose proof (registry_output_switch k "off" None w) as H.
    now rewrite Hsw in H. }
  destruct (String.eqb ty "wired") eqn:Hw.
  - apply String.eqb_eq in Hw. subst ty.
    rewrite bind_bind, (bind_Ok _ _ _ _ _
                          (output_state_wired _ _ _ _ Hty Hpin Htrig)).
    rewrite bind_ret.
    destruct pin as [p|]; [| discriminate Hvalid].
    destruct (Bool.eqb trig (default false (GPIO w !! p))) eqn:Hlatch;
      cbn [not_off String.eqb Ascii.eqb Bool.eqb negb].
    + rewrite Hsw. exists w1. repeat (split; [assumption || reflexivity |]).
      intros _ p' [= <-]. now rewrite Hgpio, lookup_insert_eq.
    + rewrite run_ret. exists w.
      split; [reflexivity |]. split; [reflexivity |].
      split; [reflexivity |].
      intros _ p' [= <-]. apply Bool.eqb_false_iff in Hlatch.
      destruct trig; destruct (default false (GPIO w !! p)) eqn:E; cbn;
        congruence.
  - destruct (output_state_entry k w He) as (s & Hs).
    rewrite bind_bind, (bind_Ok _ _ _ _ _ Hs), bind_ret.
    destruct (not_off s).
    + rewrite Hsw. exists w1. repeat (split; [assumption || reflexivity |]).
      intros ->. discriminate Hw.
    + rewrite run_ret. exists w.
      split; [reflexivity |]. split; [reflexivity |].
      split; [reflexivity |]. intros ->. discriminate Hw.
Qed.

(** X15: deleting a registered output that has a pin when its kind needs
    one succeeds: its pin is turned off first (a wired output's latch ends
    away from the trigger level), the id leaves the registry, the other
    outputs keep their entries, and from then on every request for the id
    is answered with 1 and changes nothing.  Wireless outputs are left out:
    their off command goes through [int()] before it is transmitted. *)
Theorem del_output_removes k w ty pin trig name :
  well_formed w →
  output_id (self w) !! k ≠ None →
  output_name (self w) !! k = Some name →
  output_type (self w) !! k = Some ty →
  ty ≠ "wireless_433MHz_pi_switch" →
  output_pin (self w) !! k = Some pin →
  output_trigger (self w) !! k = Some trig →
  str_in ty pin_kinds && is_None pin = false →
  ∃ w',
    del_output k w = (Ok (0, success), w')
    ∧ output_id (self w') !! k = None
    ∧ output_amps (self w') !! k = None
    ∧ (ty = "wired" → ∀ p, pin = Some p →
       default false (GPIO w' !! p) = negb trig)
    ∧ (∀ j, j ≠ k →
         output_id (self w') !! j = output_id (self w) !! j
         ∧ output_type (self w') !! j = output_type (self w) !! j
         ∧ output_pin (self w') !! j = output_pin (self w) !! j
         ∧ output_amps (self w') !! j = output_amps (self w) !! j)
    ∧ well_formed w'
    ∧ (∀ db fuel state duration min_off duty_cycle trigger_conditionals,
         output_on_off db (S fuel) k state duration min_off duty_cycle
           trigger_conditionals w' = (Ok (Some 1), w')).
Proof.
  intros Hwf Hk Hname Hty _ Hpin Htrig Hvalid.
  pose proof (well_formed_entry _ _ Hwf Hk) as He.
  destruct (turn_current_pin_off_run k w ty pin trig He Hty Hpin Htrig
              Hvalid) as (w1 & Hoff & Hkeep & Hname1 & Hlatch).
  pose proof (del_output_well_formed k w Hwf) as Hwf'.
  unfold del_output in *. rewrite (bind_Ok _ _ _ _ _ Hoff) in *.
  pose proof Hkeep as (Hid1 & _ & Hty1 & Hpin1 & Ha1 & _).
  destruct (output_id (self w) !! k) as [i|] eqn:Hi; [| congruence].
  unfold try_catch, output_id_of in *.
  rewrite <- Hid1 in Hi. rewrite <- Hname1 in Hname.
  rewrite (bind_getitem _ _ _ _ _ Hi), (bind_getitem _ _ _ _ _ Hname) in *.
  rewrite bind_modify, run_ret in *. cbn [snd] in Hwf'.
  eexists. split; [reflexivity |].
  cbn [self set_self remove_output output_id output_amps output_type
       output_pin GPIO].
  split; [apply lookup_delete_eq |]. split; [apply lookup_delete_eq |].
  split; [exact Hlatch |].
  split.
  { intros j Hne. rewrite !lookup_delete_ne by congruence.
    now rewrite Hid1, Hty1, Hpin1, Ha1. }
  split; [exact Hwf' |].
  intros db fuel state duration min_off duty_cycle trig'.
  simpl. unfold output_on_off_body, output_exists.
  rewrite bind_gets. cbn [self set_self remove_output output_id].
  now rewrite has_key_delete_same.
Qed.

Lemma del_output_removes_witness :
  let w := BudgetScenario.x_on "wired" "command" in
  well_formed w
  ∧ output_id (self w) !! 1 ≠ None
  ∧ output_name (self w) !! 1 = Some "output"
  ∧ output_type (self w) !! 1 = Some "wired"
  ∧ "wired" ≠ "wireless_433MHz_pi_switch"
  ∧ output_pin (self w) !! 1 = Some (Some 17)
  ∧ output_trigger (self w) !! 1 = Some true
  ∧ str_in "wired" pin_kinds && is_None (Some 17) = false
  ∧ ∃ w',
      del_output 1 w = (Ok (0, success), w')
      ∧ output_id (self w') !! 1 = None
      ∧ output_amps (self w') !! 1 = None
      ∧ ("wired" = "wired" → ∀ p, Some 17 = Some p →
         default false (GPIO w' !! p) = negb true)
      ∧ (∀ j, j ≠ 1 →
           output_id (self w') !! j = output_id (self w) !! j
           ∧ output_type (self w') !! j = output_type (self w) !! j
           ∧ output_pin (self w') !! j = output_pin (self w) !! j
           ∧ output_amps (self w') !! j = output_amps (self w) !! j)
      ∧ well_formed w'
      ∧ (∀ db fuel state duration min_off duty_cycle trigger_conditionals,
           output_on_off db (S fuel) 1 state duration min_off duty_cycle
             trigger_conditionals w' = (Ok (Some 1), w')).
Proof.
  cbv zeta.
  do 8 (refine (conj _ _); [by_compute |]).
  apply (del_output_removes 1 (BudgetScenario.x_on "wired" "command") "wired"
           (Some 17) true "output"); by_compute.
Defined.

(** X16: the maintenance entry point turns bad input down without raising
    and without changing anything: adding or modifying an id that has no row
    in the store and deleting an id that is not registered answer status 1
    with the exception that was caught, and an action other than ['Add'],
    ['Modify'] and ['Delete'] answers status 1 as well. *)
Theorem output_setup_rejects db k w :
  (db_retrieve_Output db k = None →
   ∀ action, str_in action ["Add"; "Modify"] = true →
     output_setup db action k w
     = (Ok (1, Add_Mod_Output_Error k AttributeError_None), w))
  ∧ (output_pin (self w) !! k = None →
     output_id (self w) !! k = None →
     output_setup db "Delete" k w
     = (Ok (1, Del_Output_Error k (Caught KeyError)), w))
  ∧ (∀ action, str_in action ["Add"; "Modify"; "Delete"] = false →
       output_setup db action k w = (Ok (1, Invalid_output_setup_action), w)).
Proof.
  split; [| split].
  - intros Hrow action Ha. unfold output_setup, add_mod_output.
    now rewrite Ha, Hrow.
  - intros Hpin Hid. unfold output_setup.
    change (str_in "Delete" ["Add"; "Modify"]) with false. cbv iota.
    cbn [String.eqb Ascii.eqb Bool.eqb].
    unfold del_output, turn_current_pin_off.
    rewrite bind_bind, bind_gets, (has_key_None _ _ Hpin).
    rewrite bind_bind, bind_ret. cbv iota. rewrite bind_ret.
    unfold try_catch, output_id_of.
    now rewrite (bind_Raise _ _ _ _ _ (getitem_None _ _ _ Hid)).
  - intros action Ha. unfold output_setup.
    unfold str_in in *. cbn [existsb] in *.
    apply orb_false_iff in Ha as [H1 Ha].
    apply orb_false_iff in Ha as [H2 Ha].
    apply orb_false_iff in Ha as [H3 _].
    now rewrite H1, H2, H3.
Qed.

Lemma output_setup_rejects_witness :
  let db := BudgetScenario.db "wired" "command" in
  let w := BudgetScenario.x_on "wired" "command" in
  output_setup db "Add" 99 w
  = (Ok (1, Add_Mod_Output_Error 99 AttributeError_None), w)
  ∧ output_setup db "Delete" 99 w
    = (Ok (1, Del_Output_Error 99 (Caught KeyError)), w)
  ∧ output_setup db "Remove" 1 w = (Ok (1, Invalid_output_setup_action), w).
Proof.
  cbv zeta.
  destruct (output_setup_rejects (BudgetScenario.db "wired" "command") 99
              (BudgetScenario.x_on "wired" "command")) as (Hadd & Hdel & _).
  destruct (output_setup_rejects (BudgetScenario.db "wired" "command") 1
              (BudgetScenario.x_on "wired" "command")) as (_ & _ & Hbad).
  refine (conj (Hadd _ "Add" _) (conj (Hdel _ _) (Hbad "Remove" _)));
    vm_compute; reflexivity.
Defined.

(** * Requests without cascade make no conditional call *)

#[global] Instance same_cascade_preorder : PreOrder same_cascade.
Proof.
  split.
  - intros w. reflexivity.
  - intros w1 w2 w3 H H'. unfold same_cascade in *. congruence.
Qed.

Create HintDb cascade.

Lemma cascade_readonly {A} (m : M A) : readonly m → steps same_cascade m.
Proof. apply steps_readonly. apply same_cascade_preorder. Qed.

Lemma cascade_emit e : is_cascade_event e = false → steps same_cascade (emit e).
Proof.
  intros He w. unfold same_cascade, cascade_events. cbn.
  rewrite List.filter_app. cbn. rewrite He. apply app_nil_r.
Qed.

Lemma cascade_setitem {V} (d : OutputController → gmap Z V) set_d k v :
  steps same_cascade (setitem d set_d k v).
Proof. intros w. reflexivity. Qed.

Lemma cascade_setattr {V} (set_a : V → OutputController → OutputController)
    v :
  steps same_cascade (setattr set_a v).
Proof. intros w. reflexivity. Qed.

Lemma cascade_GPIO_output pin level :
  steps same_cascade (GPIO_output pin level).
Proof.
  destruct pin as [p|]; [| apply cascade_readonly, readonly_raise].
  intros w. unfold same_cascade, cascade_events. cbn.
  rewrite List.filter_app. cbn. apply app_nil_r.
Qed.

#[local] Hint Resolve cascade_setitem cascade_setattr cascade_GPIO_output
  : cascade.
#[local] Hint Extern 1 (steps same_cascade (emit _)) =>
  apply cascade_emit; reflexivity : cascade.
#[local] Hint Extern 1 (steps same_cascade _) =>
  apply cascade_readonly; solve [auto with readonly] : cascade.

Ltac cascade_tac :=
  repeat first
    [ solve [auto with cascade]
    | assumption
    | progress cbv zeta
    | match goal with
      | |- steps _ (bind _ _) => apply steps_bind; [exact _ | | intros ?]
      | |- steps _ (Thread_start _) => apply steps_Thread_start
      | |- steps _ (try_except _) => apply steps_try_except
      | |- steps _ (for_each _ _) =>
          apply steps_for_each; [exact _ | intros ?]
      | |- steps _ (if _ then _ else _) => apply steps_if
      | |- steps _ (match ?x with Some _ => _ | None => _ end) => destruct x
      end ].

Lemma cascade_output_switch k state duty_cycle :
  steps same_cascade (output_switch k state duty_cycle).
Proof. unfold output_switch. cascade_tac. Qed.
#[local] Hint Resolve cascade_output_switch : cascade.

Lemma cascade_turn_on db k duration min_off duty_cycle :
  steps same_cascade (turn_on db k duration min_off duty_cycle).
Proof. unfold turn_on, switch_on. cascade_tac. Qed.

Lemma cascade_turn_off k duration duty_cycle :
  steps same_cascade (turn_off k duration duty_cycle).
Proof. unfold turn_off. cascade_tac. Qed.
#[local] Hint Resolve cascade_turn_on cascade_turn_off : cascade.

Lemma cascade_output_on_off db fuel k state duration min_off duty_cycle :
  steps same_cascade
    (output_on_off db fuel k state duration min_off duty_cycle false).
Proof.
  destruct fuel as [|fuel]; simpl; [auto with cascade |].
  unfold output_on_off_body.
  apply steps_bind; [exact _ | auto with cascade | intros known].
  apply steps_if; [auto with cascade |].
  apply steps_bind; [exact _ | cascade_tac |].
  intros [v | d]; cascade_tac.
Qed.

Lemma cascade_setup_pin k : steps same_cascade (setup_pin k).
Proof. unfold setup_pin. cascade_tac. Qed.

Lemma cascade_init db fuel t0 : cascade_events (trace (init db fuel t0)) = [].
Proof.
  unfold init.
  match goal with
  | |- cascade_events (trace (try_except ?m ?w0).2) = [] =>
      change (same_cascade w0 (try_except m w0).2);
      cut (steps same_cascade (try_except m)); [intros H; apply H |]
  end.
  pose proof (cascade_output_on_off db fuel) as Hreq.
  pose proof cascade_setup_pin as Hsetup.
  apply steps_try_except.
  unfold all_outputs_initialize, initialize_output, all_outputs_off,
    all_outputs_on.
  assert (Hstore : ∀ o t,
            steps same_cascade
              (modify (λ w, set_self (store_output o t (self w)) w)))
    by (intros o t w; reflexivity).
  repeat first
    [ solve [auto with cascade]
    | apply Hreq | apply Hsetup | apply Hstore
    | progress cbv zeta
    | match goal with
      | |- steps _ (bind _ _) => apply steps_bind; [exact _ | | intros ?]
      | |- steps _ (for_each _ _) =>
          apply steps_for_each; [exact _ | intros ?]
      | |- steps _ (if _ then _ else _) => apply steps_if
      end ].
Qed.

(** X17: a request made with [trigger_conditionals=False] performs no
    conditional action, whatever it switches and whether or not it raises:
    no conditional command is run, no e-mail is sent, no display is flashed
    and no audit line is logged.  The constructor, which initialises the
    outputs and turns them off and on this way, performs none either. *)
Theorem no_cascade_without_trigger db fuel k state duration min_off
    duty_cycle w t0 :
  cascade_events
    (trace (output_on_off db fuel k state duration min_off duty_cycle false
              w).2)
  = cascade_events (trace w)
  ∧ cascade_events (trace (init db fuel t0)) = [].
Proof. split; [apply cascade_output_on_off | apply cascade_init]. Qed.

(** * Rules that are never evaluated *)

Lemma select_conditionals_nil db k on on_duration :
  (∀ c, c ∈ db_Conditional db → Conditional.if_relay_id c = k →
        Conditional.is_activated c = false) →
  select_conditionals db k on on_duration = [].
Proof.
  intros Hnone. unfold select_conditionals. cbv zeta.
  assert (Hnil : filter (λ c, Conditional.is_activated c = true)
                   (filter (λ c, Conditional.if_relay_id c = k)
                      (db_Conditional db)) = []).
  { induction (db_Conditional db) as [|c l IH]; [reflexivity |].
    destruct (decide (Conditional.if_relay_id c = k)) as [E | E].
    - rewrite (filter_cons_True (λ c, Conditional.if_relay_id c = k))
        by exact E.
      rewrite filter_cons_False.
      + apply IH. intros c' Hin. apply Hnone. now right.
      + rewrite (Hnone c); [discriminate | now left | exact E].
    - rewrite (filter_cons_False (λ c, Conditional.if_relay_id c = k))
        by exact E.
      apply IH. intros c' Hin. apply Hnone. now right. }
  rewrite Hnil. now destruct on.
Qed.

Lemma bind_ext_run {A B} (m : M A) (f g : A → M B) w :
  (∀ a w1, m w = (Ok a, w1) → f a w1 = g a w1) → bind m f w = bind m g w.
Proof. intros H. unfold bind. destruct (m w) as [[a|e] w1]; auto. Qed.

(** X18: the rules bound to other outputs and the rules that are not
    activated are never evaluated: for a registered output that no
    activated rule watches, a request made with [trigger_conditionals=True]
    does exactly what the same request does without. *)
Theorem unwatched_output_has_no_cascade db fuel k state duration min_off
    duty_cycle w :
  well_formed w →
  (∀ c, c ∈ db_Conditional db → Conditional.if_relay_id c = k →
        Conditional.is_activated c = false) →
  output_on_off db (S fuel) k state duration min_off duty_cycle true w
  = output_on_off db (S fuel) k state duration min_off duty_cycle false w.
Proof.
  intros Hwf Hnone. simpl. unfold output_on_off_body.
  unfold output_exists. rewrite !bind_gets.
  destruct (has_key (output_id (self w)) k) eqn:Hk; cbn [negb];
    [| reflexivity].
  assert (Hk' : output_id (self w) !! k ≠ None).
  { unfold has_key in Hk. destruct (output_id (self w) !! k); congruence. }
  set (m := if String.eqb state "on"
            then turn_on db k duration min_off duty_cycle
            else if String.eqb state "off"
                 then turn_off k duration duty_cycle
                 else ret (Fallthrough duration)).
  assert (Hkeep : keeps_registry w (m w).2).
  { cut (steps keeps_registry m); [intros H; apply H |].
    unfold m. registry_tac. }
  apply bind_ext_run. intros [v | d] w1 Hm; [reflexivity |].
  rewrite Hm in Hkeep. cbn [snd] in Hkeep.
  assert (He : entryb (self w1) k = true).
  { apply (registry_le_entryb (self w)); [exact Hkeep |].
    now apply well_formed_entry. }
  unfold check_conditionals.
  rewrite bind_bind, (bind_Ok _ _ _ _ _ (is_on_well_formed k w1 He)).
  now rewrite (select_conditionals_nil _ _ _ _ Hnone).
Qed.

Lemma unwatched_output_has_no_cascade_witness :
  let db := MaintenanceScenario.watched_db in
  let w := init db 8 0 in
  well_formed w
  ∧ (∀ c, c ∈ db_Conditional db → Conditional.if_relay_id c = 2 →
          Conditional.is_activated c = false)
  ∧ output_on_off db 8 2 "on" 0 0 0 true w
    = output_on_off db 8 2 "on" 0 0 0 false w.
Proof.
  cbv zeta.
  assert (Hwf : well_formed (init MaintenanceScenario.watched_db 8 0))
    by by_compute.
  assert (Hnone : ∀ c, c ∈ db_Conditional MaintenanceScenario.watched_db →
                       Conditional.if_relay_id c = 2 →
                       Conditional.is_activated c = false).
  { intros c Hin Hid. cbn in Hin.
    repeat (apply elem_of_cons in Hin as [-> | Hin];
            [cbn in Hid; discriminate Hid |]).
    inversion Hin. }
  refine (conj Hwf (conj Hnone _)).
  exact (unwatched_output_has_no_cascade MaintenanceScenario.watched_db 7 2
           "on" 0 0 0 _ Hwf Hnone).
Defined.

(** * Observations of an id that is not registered *)

(** X19: for an id that is not registered, [output_state] answers ['off']
    where [is_on] and [output_sec_currently_on] raise [KeyError]; none of
    them changes anything. *)
Theorem reads_of_unknown_id k w :
  output_type (self w) !! k = None →
  output_state k w = (Ok (inl "off"), w)
  ∧ is_on k w = (Raise KeyError, w)
  ∧ output_sec_currently_on k w = (Raise KeyError, w).
Proof.
  intros Hty.
  assert (Hon : is_on k w = (Raise KeyError, w))
    by (rewrite is_on_run, Hty; reflexivity).
  split; [| split; [exact Hon |]].
  - unfold output_state. rewrite bind_gets, (has_key_None _ _ Hty).
    reflexivity.
  - unfold output_sec_currently_on. now rewrite (bind_Raise _ _ _ _ _ Hon).
Qed.

Lemma reads_of_unknown_id_witness :
  let w := BudgetScenario.x_on "wired" "command" in
  output_type (self w) !! 99 = None
  ∧ output_state 99 w = (Ok (inl "off"), w)
  ∧ is_on 99 w = (Raise KeyError, w)
  ∧ output_sec_currently_on 99 w = (Raise KeyError, w).
Proof.
  cbv zeta.
  do 1 (refine (conj _ _); [by_compute |]).
  apply (reads_of_unknown_id 99 (BudgetScenario.x_on "wired" "command"));
    by_compute.
Defined.

(** * Turning off never adds load *)

(** X20: an off request (without cascade) never adds to the current drawn
    by the outputs that are observed on: with rated draws that are not
    negative and wired outputs on pins of their own, the drawn load after
    the request is at most what it was before. *)
Theorem off_request_never_adds_load db fuel k duration min_off duty_cycle w :
  amps_nonneg w →
  pins_distinct w →
  (drawn_load
     (output_on_off db fuel k "off" duration min_off duty_cycle false w).2
   <= drawn_load w)%Q.
Proof.
  intros Hpos Hd.
  assert (Hq : steps quiet
                 (output_on_off db fuel k "off" duration min_off duty_cycle
                    false)).
  { destruct fuel as [|fuel]; simpl; [auto with steps |].
    unfold output_on_off_body.
    pose proof (turn_off_quiet k duration duty_cycle) as Hoff.
    apply steps_bind; [exact _ | auto with steps | intros known].
    apply steps_if; [auto with steps |].
    cbn [String.eqb Ascii.eqb Bool.eqb].
    apply steps_bind; [exact _ | exact Hoff |].
    intros [v | d]; steps_tac. }
  destruct (Hq w) as [Hs Hquiet].
  unfold drawn_load. rewrite (static_drawn_load_items _ _ Hs).
  apply sum_where_mono.
  - intros j a Hin. apply (Hpos j). now apply elem_of_map_to_list.
  - intros j a _. now apply Hquiet.
Qed.

Lemma off_request_never_adds_load_witness :
  let db := BudgetScenario.db "wired" "command" in
  let w := BudgetScenario.x_on "wired" "command" in
  amps_nonneg w
  ∧ pins_distinct w
  ∧ (drawn_load (output_on_off db 8 1 "off" 0 0 0 false w).2
     <= drawn_load w)%Q.
Proof.
  cbv zeta.
  assert (Hreach : reachable (BudgetScenario.db "wired" "command")
                     (BudgetScenario.x_on "wired" "command")).
  { unfold BudgetScenario.x_on, BudgetScenario.on. apply reach_request.
    unfold BudgetScenario.started. apply reach_init. }
  destruct (reachable_budget_inv _ _ (budget_scenario_db_ok "wired" "command")
              Hreach) as (Hpos & Hd & _).
  refine (conj Hpos (conj Hd _)).
  exact (off_request_never_adds_load (BudgetScenario.db "wired" "command") 8
           1 0 0 0 _ Hpos Hd).
Defined.

(** * Re-arming a timed interval *)



(** * Start-up switches on only what is configured on at start *)

#[global] Instance at_start_frame_preorder : PreOrder at_start_frame.
Proof.
  split.
  - intros w. reflexivity.
  - intros w1 w2 w3 H H'. unfold at_start_frame in *. congruence.
Qed.

Create HintDb at_start.

Lemma at_start_readonly {A} (m : M A) : readonly m → steps at_start_frame m.
Proof. apply steps_readonly. apply at_start_frame_preorder. Qed.

Lemma at_start_emit e : steps at_start_frame (emit e).
Proof. intros w. reflexivity. Qed.

Lemma at_start_GPIO_output pin level :
  steps at_start_frame (GPIO_output pin level).
Proof. intros w. now destruct pin. Qed.

#[local] Hint Resolve at_start_emit at_start_GPIO_output : at_start.
#[local] Hint Extern 1 (steps at_start_frame (setitem _ _ _ _)) =>
  intros ?; reflexivity : at_start.
#[local] Hint Extern 1 (steps at_start_frame _) =>
  apply at_start_readonly; solve [auto with readonly] : at_start.

Ltac at_start_tac :=
  repeat first
    [ solve [auto with at_start]
    | progress cbv zeta
    | match goal with
      | |- steps _ (bind _ _) => apply steps_bind; [exact _ | | intros ?]
      | |- steps _ (Thread_start _) => apply steps_Thread_start
      | |- steps _ (if _ then _ else _) => apply steps_if
      | |- steps _ (match ?x with Some _ => _ | None => _ end) => destruct x
      end ].

Lemma at_start_output_switch k state duty_cycle :
  steps at_start_frame (output_switch k state duty_cycle).
Proof. unfold output_switch. at_start_tac. Qed.
#[local] Hint Resolve at_start_output_switch : at_start.

Lemma at_start_turn_on db k duration min_off duty_cycle :
  steps at_start_frame (turn_on db k duration min_off duty_cycle).
Proof. unfold turn_on, switch_on. at_start_tac. Qed.

Lemma at_start_turn_off k duration duty_cycle :
  steps at_start_frame (turn_off k duration duty_cycle).
Proof. unfold turn_off. at_start_tac. Qed.
#[local] Hint Resolve at_start_turn_on at_start_turn_off : at_start.

Lemma at_start_output_on_off db fuel k state duration min_off duty_cycle :
  steps at_start_frame
    (output_on_off db fuel k state duration min_off duty_cycle false).
Proof.
  destruct fuel as [|fuel]; simpl; [auto with at_start |].
  unfold output_on_off_body.
  apply steps_bind; [exact _ | auto with at_start | intros known].
  apply steps_if; [auto with at_start |].
  apply steps_bind; [exact _ | at_start_tac |].
  intros [v | d]; at_start_tac.
Qed.

(** Without cascade a request changes the drawing state of no output but
    its own, and an off request starts no output. *)
Lemma output_on_off_grow db fuel k state duration min_off duty_cycle :
  steps (grow k)
    (output_on_off db fuel k state duration min_off duty_cycle false).
Proof.
  destruct fuel as [|fuel]; simpl; [auto with steps |].
  unfold output_on_off_body.
  pose proof (turn_off_quiet k duration duty_cycle) as Hoff.
  assert (Hon : steps (grow k) (turn_on db k duration min_off duty_cycle)).
  { intros w. destruct (turn_on_budget db k duration min_off duty_cycle w)
      as [H | [H _]]; [now apply quiet_grow | exact H]. }
  apply steps_bind; [exact _ | auto with steps | intros known].
  apply steps_if; [auto with steps |].
  apply steps_bind; [exact _ | |].
  - apply steps_if; [exact Hon |].
    apply steps_if; [| auto with steps].
    apply (steps_weaken quiet); [intros ? ?; apply quiet_grow | exact Hoff].
  - intros [v | d]; steps_tac.
Qed.

Lemma output_on_off_off_quiet db fuel k duration min_off duty_cycle :
  steps quiet (output_on_off db fuel k "off" duration min_off duty_cycle false).
Proof.
  destruct fuel as [|fuel]; simpl; [auto with steps |].
  unfold output_on_off_body.
  pose proof (turn_off_quiet k duration duty_cycle) as Hoff.
  apply steps_bind; [exact _ | auto with steps | intros known].
  apply steps_if; [auto with steps |].
  cbn [String.eqb Ascii.eqb Bool.eqb].
  apply steps_bind; [exact _ | exact Hoff |].
  intros [v | d]; steps_tac.
Qed.

Lemma bind_ret_world {A B} (m : M A) (b : B) w :
  (bind m (λ _, ret b) w).2 = (m w).2.
Proof. unfold bind. now destruct (m w) as [[a|e] w1]. Qed.

Lemma startup_off db fuel j w :
  only_at_start_drawn w →
  only_at_start_drawn (output_on_off db fuel j "off" 0 0 0 false w).2.
Proof.
  intros [Hd Hq].
  destruct (output_on_off_off_quiet db fuel j 0 0 0 w) as [Hs Hquiet].
  pose proof (at_start_output_on_off db fuel j "off" 0 0 0 w) as Hat.
  split; [now apply (pins_distinct_static w) |].
  intros k Hk. rewrite Hat. apply Hq. now apply Hquiet.
Qed.

Lemma startup_on db fuel j w :
  only_at_start_drawn w →
  output_on_at_start (self w) !! j = Some (Some true) →
  only_at_start_drawn (output_on_off db fuel j "on" 0 0 0 false w).2.
Proof.
  intros [Hd Hq] Hj.
  destruct (output_on_off_grow db fuel j "on" 0 0 0 w) as [Hs Hgrow].
  pose proof (at_start_output_on_off db fuel j "on" 0 0 0 w) as Hat.
  split; [now apply (pins_distinct_static w) |].
  intros k Hk. rewrite Hat.
  destruct (decide (k = j)) as [-> | Hne]; [exact Hj |].
  apply Hq. now apply Hgrow.
Qed.

Lemma all_outputs_off_startup db fuel :
  preserves only_at_start_drawn (all_outputs_off db fuel).
Proof.
  unfold all_outputs_off.
  apply preserves_bind;
    [apply preserves_readonly, readonly_registered_ids | intros ids].
  apply preserves_for_each. intros j.
  apply preserves_bind;
    [apply preserves_readonly, readonly_getitem | intros at_start].
  apply preserves_bind; [apply preserves_readonly; readonly_tac | intros skip].
  apply preserves_if; [apply preserves_readonly, readonly_ret |].
  apply preserves_bind; [| intros ?; apply preserves_readonly, readonly_ret].
  intros w. apply startup_off.
Qed.

Lemma all_outputs_on_startup db fuel :
  preserves only_at_start_drawn (all_outputs_on db fuel).
Proof.
  unfold all_outputs_on.
  apply preserves_bind;
    [apply preserves_readonly, readonly_registered_ids | intros ids].
  apply preserves_for_each. intros j.
  apply preserves_bind;
    [apply preserves_readonly, readonly_getitem | intros at_start].
  apply preserves_bind; [apply preserves_readonly; readonly_tac | intros skip].
  apply preserves_if; [apply preserves_readonly, readonly_ret |].
  intros w Hw. unfold bind at 1, getitem.
  destruct (output_on_at_start (self w) !! j) as [at_start'|] eqn:Hj;
    [| exact Hw].
  destruct (bool_decide_reflect (at_start' = Some true)) as [-> | _];
    rewrite bind_ret_world; [now apply startup_on | now apply startup_off].
Qed.

Lemma configured_startup db w :
  db_ok db → configured (db_Output db) w → only_at_start_drawn w.
Proof.
  intros Hdb Hc. pose proof (configured_budget_inv db w Hdb Hc) as (_ & Hd & _).
  split; [exact Hd |]. intros k Hk. destruct Hc as (_ & _ & Hnone).
  rewrite Hnone in Hk. discriminate.
Qed.

Lemma init_startup db fuel t0 :
  db_ok db → only_at_start_drawn (init db fuel t0).
Proof.
  intros Hdb. unfold init, try_except. cbn [snd].
  set (w0 := Build_World empty_controller ∅ t0 []).
  assert (H0 : configured (db_Output db) w0) by apply configured_empty.
  set (cfg := configured (db_Output db)).
  assert (Hsv : ∀ {A} (m : M A) w, steps same_view m → cfg w → cfg (m w).2).
  { intros A m w Hm Hw. apply (configured_same_view _ w); [apply Hm | exact Hw]. }
  unfold now.
  repeat match goal with
         | |- context [bind (setattr ?s ?v) ?f ?w] =>
             let H := fresh "H" in
             assert (H : cfg (setattr s v w).2)
               by (apply Hsv; [auto with steps | assumption]);
             change (bind (setattr s v) f w) with (f tt (setattr s v w).2);
             cbv beta
         | |- context [bind (gets ?g) ?f ?w] =>
             rewrite (bind_gets g f w); cbv beta
         end.
  match goal with
  | H : cfg ?w1 |- context [bind (all_outputs_initialize _) _ ?w1] =>
      pose proof (all_outputs_initialize_configured db (db_Output db) w1 Hdb
                    (λ o Ho, Ho) H) as Hinit
  end.
  apply (configured_startup db) in Hinit; [| assumption].
  unfold bind at 1.
  destruct (all_outputs_initialize _ _) as [[[]|e] w2]; cbn [snd] in *;
    [| exact Hinit].
  apply (preserves_bind only_at_start_drawn);
    [apply all_outputs_off_startup
    | intros _; apply all_outputs_on_startup | exact Hinit].
Qed.

(** X22: when the constructor returns, the only current-drawing outputs
    that are observed on are outputs configured to be on at start: start-up
    turns on nothing else, whatever the order of the rows and whatever was
    denied on the way (the store being sane: no negative rated draw, and
    wired rows sharing a usable pin being rows of one output). *)
Theorem start_up_turns_on_only_at_start_outputs db fuel t0 k :
  db_ok db →
  drawn (init db fuel t0) k = true →
  output_on_at_start (self (init db fuel t0)) !! k = Some (Some true).
Proof. intros Hdb. apply (init_startup db fuel t0 Hdb). Qed.

Lemma startup_db_ok : db_ok MaintenanceScenario.startup_db.
Proof.
  split; [| split].
  - vm_compute. discriminate.
  - intros o Ho. cbn in Ho.
    apply elem_of_cons in Ho as [-> | Ho];
      [| apply list_elem_of_singleton in Ho; subst o];
      vm_compute; discriminate.
  - intros o1 o2 p Ho1 Ho2 Hty1 Hty2 Hp1 Hp2 _. cbn in Ho1, Ho2.
    apply elem_of_cons in Ho1 as [-> | Ho1];
      [| apply list_elem_of_singleton in Ho1; subst o1];
      (apply elem_of_cons in Ho2 as [-> | Ho2];
       [| apply list_elem_of_singleton in Ho2; subst o2]);
      cbn in *; congruence.
Qed.

Lemma start_up_turns_on_only_at_start_outputs_witness :
  let db := MaintenanceScenario.startup_db in
  db_ok db
  ∧ drawn (init db 8 0) 1 = true
  ∧ output_on_at_start (self (init db 8 0)) !! 1 = Some (Some true).
Proof.
  cbv zeta.
  assert (Hd : drawn (init MaintenanceScenario.startup_db 8 0) 1 = true)
    by by_compute.
  refine (conj startup_db_ok (conj Hd _)).
  exact (start_up_turns_on_only_at_start_outputs
           MaintenanceScenario.startup_db 8 0 1 startup_db_ok Hd).
Defined.

(** * The sample written for an untimed interval *)

#[global] Instance same_samples_preorder : PreOrder same_samples.
Proof.
  split.
  - intros w. reflexivity.
  - intros w1 w2 w3 H H'. unfold same_samples in *. congruence.
Qed.

Create HintDb samples.

Lemma samples_readonly {A} (m : M A) : readonly m → steps same_samples m.
Proof. apply steps_readonly. apply same_samples_preorder. Qed.

Lemma duration_samples_app l l' :
  duration_samples (l ++ l') = (duration_samples l ++ duration_samples l')%list.
Proof. apply omap_app. Qed.

Lemma samples_emit e : duration_sample e = None → steps same_samples (emit e).
Proof.
  intros He w. unfold same_samples. cbn. rewrite duration_samples_app.
  cbn. rewrite He. apply app_nil_r.
Qed.

Lemma samples_setitem {V} (d : OutputController → gmap Z V) set_d k v :
  steps same_samples (setitem d set_d k v).
Proof. intros w. reflexivity. Qed.

Lemma samples_GPIO_output pin level :
  steps same_samples (GPIO_output pin level).
Proof.
  destruct pin as [p|]; [| apply samples_readonly, readonly_raise].
  intros w. unfold same_samples. cbn. rewrite duration_samples_app.
  cbn. apply app_nil_r.
Qed.

#[local] Hint Resolve samples_setitem samples_GPIO_output : samples.
#[local] Hint Extern 1 (steps same_samples (emit _)) =>
  apply samples_emit; reflexivity : samples.
#[local] Hint Extern 1 (steps same_samples _) =>
  apply samples_readonly; solve [auto with readonly] : samples.

Ltac samples_tac :=
  repeat first
    [ solve [auto with samples]
    | assumption
    | progress cbv zeta
    | match goal with
      | |- steps _ (bind _ _) => apply steps_bind; [exact _ | | intros ?]
      | |- steps _ (Thread_start _) => apply steps_Thread_start
      | |- steps _ (if _ then _ else _) => apply steps_if
      | |- steps _ (match ?x with Some _ => _ | None => _ end) => destruct x
      end ].

Lemma samples_output_switch k state duty_cycle :
  steps same_samples (output_switch k state duty_cycle).
Proof. unfold output_switch. samples_tac. Qed.
#[local] Hint Resolve samples_output_switch : samples.

(** An untimed on request writes no [duration_sec] sample. *)
Lemma samples_untimed_switch_on k duration duty_cycle :
  (duration == 0)%Q →
  steps same_samples (switch_on k duration duty_cycle).
Proof.
  intros Hd.
  assert (Htruthy : truthy_float duration = false).
  { unfold truthy_float. apply negb_false_iff. now apply Qeq_bool_iff. }
  unfold switch_on. rewrite Htruthy.
  apply steps_bind; [exact _ | auto with samples | intros ty].
  rewrite andb_false_r. samples_tac.
Qed.

(** X23: an untimed interval leaves exactly one sample.  For a wired (pin
    other than 0) or command output, an untimed on request that returns
    [None] writes no [duration_sec] sample; the off request that follows at
    clock reading [t1] returns [None], leaves the output observed off, and
    writes exactly one, whose value is the time elapsed since the on request
    and whose timestamp is [t1] minus that value. *)
Theorem untimed_interval_writes_one_sample db fuel k w ty pin uid min_off
    duty_cycle w1 t1 :
  well_formed w →
  output_id (self w) !! k ≠ None →
  output_type (self w) !! k = Some ty →
  ty = "wired" ∨ ty = "command" →
  output_pin (self w) !! k = Some pin →
  (ty = "wired" → pin ≠ Some 0) →
  output_unique_id (self w) !! k = Some uid →
  output_on_off db (S fuel) k "on" 0 min_off duty_cycle false w
  = (Ok None, w1) →
  duration_samples (trace w1) = duration_samples (trace w)
  ∧ ∃ w2,
      output_on_off db (S fuel) k "off" 0 0 0 false (set_clock t1 w1)
      = (Ok None, w2)
      ∧ is_on k w2 = (Ok false, w2)
      ∧ duration_samples (trace w2)
        = (duration_samples (trace w)
           ++ [((t1 - clock w)%Q, Some (t1 - (t1 - clock w))%Q)])%list.
Proof.
  intros Hwf Hk Hty Hkinds Hpin Hp0 Huid Hrun.
  assert (Hkind : str_in ty current_kinds = true)
    by (destruct Hkinds as [-> | ->]; reflexivity).
  pose proof (well_formed_entry _ _ Hwf Hk) as He.
  destruct (entryb_lookups _ _ He)
    as (ty' & pin' & a & trig & until & last & timed & pwm_t & t_on
        & Hty' & Hpin' & Ha & Htrig & Huntil & Hlast & Htimed & Hpwm & Hton).
  assert (ty' = ty) by congruence. assert (pin' = pin) by congruence.
  subst ty' pin'. clear Hty' Hpin'.
  destruct (on_request_passed _ _ _ _ _ _ _ _ _ _ _ Hwf Hk Hty Hpin Ha Hrun)
    as (Hvalid & _ & fl & Hsw & _ & Hfl).
  destruct (untimed_switch_on _ _ _ _ _ _ _ _ _ He Hty Hkind Hpin Hvalid
              Htrig (Qeq_refl 0) Hsw Hfl) as (Hoff & Hclock & Hself & Hgpio).
  assert (Hs1 : same_samples w w1).
  { pose proof (samples_untimed_switch_on k 0 duty_cycle (Qeq_refl 0) w) as H.
    now rewrite Hsw in H. }
  split; [exact Hs1 |].
  (* the off request *)
  set (w1' := set_clock t1 w1).
  assert (Hself' : self w1' = self w1) by reflexivity.
  assert (Hk1 : output_id (self w1') !! k ≠ None)
    by (rewrite Hself', Hself; exact Hk).
  assert (Hwf1 : entryb (self w1') k = true).
  { rewrite Hself', Hself. now apply entryb_set_time_turned_on. }
  assert (Hty1 : output_type (self w1') !! k = Some ty)
    by (rewrite Hself', Hself; exact Hty).
  assert (Hpin1 : output_pin (self w1') !! k = Some pin)
    by (rewrite Hself', Hself; exact Hpin).
  assert (Htrig1 : output_trigger (self w1') !! k = Some trig)
    by (rewrite Hself', Hself; exact Htrig).
  rewrite (output_on_off_no_cascade _ _ _ _ _ _ _ _ Hk1).
  cbn [String.eqb Ascii.eqb Bool.eqb]. unfold turn_off. rewrite bind_bind.
  rewrite (bind_Ok _ _ _ _ _ (_is_setup_run _ _ _ _ Hty1 Hpin1)).
  assert (Hsetup : (if String.eqb ty "wired" && truthy_pin pin then true
                    else if str_in ty ["command"; "wireless_433MHz_pi_switch"]
                         then true
                         else if String.eqb ty "pwm"
                              then has_key (pwm_output (self w1')) k
                              else false) = true).
  { destruct Hkinds as [-> | ->]; [| reflexivity].
    destruct pin as [p|]; [| discriminate Hvalid].
    cbn [String.eqb Ascii.eqb Bool.eqb andb truthy_pin]. unfold truthy_int.
    destruct (Z.eqb_spec p 0) as [-> | _]; [now elim (Hp0 eq_refl) |].
    reflexivity. }
  rewrite Hsetup. cbn [negb]. cbv iota.
  mrun.
  match goal with
  | |- context [bind (if str_in ty pin_kinds then ?m else ret false) ?f w1'] =>
      assert (Hg : bind (if str_in ty pin_kinds then m else ret false) f w1'
                   = f false w1');
        [ destruct (str_in ty pin_kinds) eqn:Hpk;
          [ rewrite (bind_bind (getitem output_pin k)),
              (bind_getitem _ _ _ _ _ Hpin1), bind_ret;
            try rewrite Hpk in Hvalid; cbn [andb] in Hvalid;
            rewrite Hvalid; reflexivity
          | rewrite bind_ret; reflexivity ]
        | rewrite Hg; clear Hg; cbv beta iota ]
  end.
  destruct (output_switch_off_run k w1' ty pin trig Hwf1 Hty1 Hpin1 Htrig1
              Hvalid) as (w2 & Hsw2 & Hclock2 & Hself2 & Hgpio2).
  assert (Hs2 : same_samples w1' w2).
  { pose proof (samples_output_switch k "off" None w1') as H.
    now rewrite Hsw2 in H. }
  assert (Hnp : String.eqb ty "pwm" = false)
    by (destruct Hkinds as [-> | ->]; reflexivity).
  rewrite Hnp in Hself2.
  rewrite bind_bind, (bind_Ok _ _ _ _ _ Hsw2).
  assert (Hty2 : output_type (self w2) !! k = Some ty)
    by (rewrite Hself2; exact Hty1).
  assert (Hpin2 : output_pin (self w2) !! k = Some pin)
    by (rewrite Hself2; exact Hpin1).
  assert (Htrig2 : output_trigger (self w2) !! k = Some trig)
    by (rewrite Hself2; exact Htrig1).
  assert (Hpwm2 : pwm_time_turned_on (self w2) !! k = Some pwm_t)
    by (rewrite Hself2, Hself', Hself; exact Hpwm).
  assert (Hton2 : output_time_turned_on (self w2) !! k
                  = Some (Some (clock w)))
    by (rewrite Hself2, Hself', Hself; cbn; apply lookup_insert_eq).
  assert (Htimed2 : output_on_duration (self w2) !! k = Some timed)
    by (rewrite Hself2, Hself', Hself; exact Htimed).
  assert (Huntil2 : output_on_until (self w2) !! k = Some until)
    by (rewrite Hself2, Hself', Hself; exact Huntil).
  assert (Hlast2 : output_last_duration (self w2) !! k = Some last)
    by (rewrite Hself2, Hself', Hself; exact Hlast).
  assert (Huid2 : output_unique_id (self w2) !! k = Some uid)
    by (rewrite Hself2, Hself', Hself; exact Huid).
  assert (Hlatch : ty = "wired" → ∀ p, pin = Some p → p ≠ 0 →
                   GPIO w2 !! p = Some (negb trig))
    by (intros -> p -> _; rewrite Hgpio2; cbn; apply lookup_insert_eq).
  assert (Hc2 : clock w2 = t1) by (rewrite Hclock2; reflexivity).
  assert (Hsamples : duration_samples (trace w2) = duration_samples (trace w)).
  { unfold same_samples in Hs1, Hs2. rewrite Hs2. exact Hs1. }
  clear Hself2 Hgpio2 Hsw2 Hs2 Hclock2.
  mrun. rewrite Hnp.
  destruct timed; mrun_deep;
    try (match goal with
         | |- context [Qgtb ?a ?b] => destruct (Qgtb a b)
         end; mrun_deep);
    unfold Thread_start, emit, modify; cbn [snd]; mrun;
    (eexists; split; [reflexivity |]; split;
     [ rewrite is_on_run;
       cbn [self GPIO set_self set_trace set_output_time_turned_on
            set_output_on_duration set_output_on_until
            output_type output_pin output_trigger output_time_turned_on
            pwm_time_turned_on];
       rewrite lookup_insert_eq, Hty2, Hpin2, Htrig2, Hpwm2; f_equal;
       apply is_on_pure_off; [exact Hlatch | reflexivity |];
       intros ->; discriminate Hnp
     | cbn [trace set_trace set_self];
       rewrite duration_samples_app, Hsamples; cbn; now rewrite Hc2 ]).
Qed.

Lemma untimed_interval_writes_one_sample_witness :
  let db := BudgetScenario.db "wired" "command" in
  let w := BudgetScenario.started "wired" "command" in
  let w1 := (output_on_off db 8 2 "on" 0 0 0 false w).2 in
  well_formed w
  ∧ output_id (self w) !! 2 ≠ None
  ∧ output_type (self w) !! 2 = Some "command"
  ∧ ("command" = "wired" ∨ "command" = "command")
  ∧ output_pin (self w) !! 2 = Some (Some 27)
  ∧ ("command" = "wired" → Some 27 ≠ Some 0)
  ∧ output_unique_id (self w) !! 2 = Some "out"
  ∧ output_on_off db 8 2 "on" 0 0 0 false w = (Ok None, w1)
  ∧ duration_samples (trace w1) = duration_samples (trace w)
  ∧ ∃ w2,
      output_on_off db 8 2 "off" 0 0 0 false (set_clock 25 w1) = (Ok None, w2)
      ∧ is_on 2 w2 = (Ok false, w2)
      ∧ duration_samples (trace w2)
        = (duration_samples (trace w)
           ++ [((25 - clock w)%Q, Some (25 - (25 - clock w))%Q)])%list.
Proof.
  cbv zeta.
  do 3 (refine (conj _ _); [by_compute |]).
  refine (conj (or_intror eq_refl) _).
  do 4 (refine (conj _ _); [by_compute |]).
  apply (untimed_interval_writes_one_sample
           (BudgetScenario.db "wired" "command") 7 2 _ "command" (Some 27)
           "out" 0 0 _ 25); first [by_compute | exact (or_intror eq_refl)].
Defined.
